(** * Input/output buffers of the network layer (iobuf.h, iobuf.cc)

    A shallow embedding of [struct ibuf], [struct obuf] and [struct iobuf]
    and of the functions that operate on them, followed by the properties
    of the buffering layer.

    Conventions of the embedding.
    - [size_t] is a 64-bit unsigned integer: a [Z] in [0, 2^64), every
      addition, subtraction and multiplication of the source is followed
      by [wrap].
    - [int pos] of [struct obuf] and of [struct obuf_svp] is a [nat]: the
      code starts it at 0 and only increments it, and reads an array slot
      right after each increment, which is out of bounds from 32 on.
    - A pointer is [NULL] or a block of memory together with an offset.
      The region allocator and the slab cache hand out fresh blocks.
    - A function of the source is a state transformer that ends in one
      of: a normal return, a raised exception (the state is the one
      mutated so far), a failed [assert], undefined behaviour (an access
      outside an array or a block), or a loop that never ends.
    - [assert] is checked unless [NDEBUG] is set, as in C. *)

From Stdlib Require Import ZArith Lia.
From Stdlib.Strings Require Import Byte.
From stdpp Require Import base tactics option list numbers.

Local Open Scope Z_scope.

(** ** Machine integers *)

Definition SIZE_MAX : Z := 2 ^ 64 - 1.

Definition wrap (x : Z) : Z := x mod 2 ^ 64.

Definition INT_MIN : Z := - 2 ^ 31.

(** [int] arithmetic as two's complement wrap-around. *)
Definition wrap_int (x : Z) : Z := (x + 2 ^ 31) mod 2 ^ 32 - 2 ^ 31.

(** ** Memory: blocks and pointers *)

Abbreviation block := (list byte).

(** [None] is [NULL]; [Some (b, o)] points [o] bytes into block [b]. *)
Definition ptr := option (nat * Z).

Definition NULL : ptr := None.

Definition ptr_add (p : ptr) (n : Z) : ptr :=
  match p with
  | None => None
  | Some (b, o) => Some (b, o + n)
  end.

(** [p - q] for two pointers into the same array; [NULL - NULL] is 0. *)
Definition ptr_diff (p q : ptr) : option Z :=
  match p, q with
  | None, None => Some 0
  | Some (b, o), Some (b', o') => if decide (b = b') then Some (o - o') else None
  | _, _ => None
  end.

Abbreviation memory := (list block).

(** The [n] bytes at [p]; nothing when the range leaves its block. *)
Definition mem_read (m : memory) (p : ptr) (n : Z) : option (list byte) :=
  if n =? 0 then Some []
  else match p with
       | None => None
       | Some (b, o) =>
           match m !! b with
           | Some blk =>
               if (0 <=? o) && (0 <=? n) && (o + n <=? Z.of_nat (length blk))
               then Some (take (Z.to_nat n) (drop (Z.to_nat o) blk))
               else None
           | None => None
           end
       end.

(** Store [data] at [p]; nothing when the range leaves its block.
    Storing no bytes changes nothing, whatever the pointer. *)
Definition mem_write (m : memory) (p : ptr) (data : list byte) : option memory :=
  match data with
  | [] => Some m
  | _ =>
      match p with
      | None => None
      | Some (b, o) =>
          match m !! b with
          | Some blk =>
              if (0 <=? o) && (o + Z.of_nat (length data) <=? Z.of_nat (length blk))
              then Some (<[b := take (Z.to_nat o) blk ++ data
                               ++ drop (Z.to_nat o + length data) blk]> m)
              else None
          | None => None
          end
      end
  end.

(** ** Outcomes of a call *)

Inductive exn : Type := OutOfMemory.

Inductive outcome (S A : Type) : Type :=
| Ret (a : A) (s : S)          (* normal return *)
| Throw (e : exn) (s : S)      (* tnt_raise *)
| Abort                        (* a failed assert *)
| Undefined                    (* access outside an array or a block *)
| Diverge.                     (* a loop that does not end *)

Arguments Ret {S A} a s.
Arguments Throw {S A} e s.
Arguments Abort {S A}.
Arguments Undefined {S A}.
Arguments Diverge {S A}.

Definition M (S A : Type) : Type := S -> outcome S A.

Definition ret {S A} (a : A) : M S A := fun s => Ret a s.

Definition bind {S A B} (m : M S A) (k : A -> M S B) : M S B :=
  fun s =>
    match m s with
    | Ret a s' => k a s'
    | Throw e s' => Throw e s'
    | Abort => Abort
    | Undefined => Undefined
    | Diverge => Diverge
    end.

Notation "x <- m ;; k" := (bind m (fun x => k))
  (at level 100, m at next level, right associativity).
Notation "m ;;; k" := (bind m (fun _ => k))
  (at level 100, right associativity).

Definition gets {S A} (f : S -> A) : M S A := fun s => Ret (f s) s.
Definition modify {S} (f : S -> S) : M S unit := fun s => Ret tt (f s).
Definition tnt_raise {S A} (e : exn) : M S A := fun s => Throw e s.
Definition undefined {S A} : M S A := fun _ => Undefined.
Definition diverge {S A} : M S A := fun _ => Diverge.

(** [assert(e)]: [e] is not even evaluated under [NDEBUG]. *)
Definition assert_ {S} (NDEBUG : bool) (e : M S bool) : M S unit :=
  if NDEBUG then ret tt
  else b <- e ;; if b then ret tt else (fun _ => Abort).

(** ** The output buffer: [struct obuf] *)

Definition IOBUF_IOV_MAX : nat := 32.

Record iovec : Type := Iovec {
  iov_base : ptr;
  iov_len : Z
}.

(** [struct region]: the blocks handed out so far. [region_alloc] never
    frees or moves a block. *)
Record region : Type := Region {
  r_blocks : memory
}.

Record obuf : Type := Obuf {
  ob_pool : region;          (* struct region *pool: the region pointed to *)
  ob_size : Z;               (* size_t size *)
  ob_pos : nat;              (* int pos *)
  ob_alloc_factor : Z;       (* size_t alloc_factor *)
  ob_capacity : list Z;      (* size_t capacity[IOBUF_IOV_MAX] *)
  ob_iov : list iovec        (* struct iovec iov[IOBUF_IOV_MAX] *)
}.

Record obuf_svp : Type := ObufSvp {
  svp_pos : nat;
  svp_iov_len : Z;
  svp_size : Z
}.

Definition with_pool (r : region) (b : obuf) : obuf :=
  Obuf r (ob_size b) (ob_pos b) (ob_alloc_factor b) (ob_capacity b) (ob_iov b).
Definition with_size (n : Z) (b : obuf) : obuf :=
  Obuf (ob_pool b) n (ob_pos b) (ob_alloc_factor b) (ob_capacity b) (ob_iov b).
Definition with_pos (p : nat) (b : obuf) : obuf :=
  Obuf (ob_pool b) (ob_size b) p (ob_alloc_factor b) (ob_capacity b) (ob_iov b).
Definition with_alloc_factor (f : Z) (b : obuf) : obuf :=
  Obuf (ob_pool b) (ob_size b) (ob_pos b) f (ob_capacity b) (ob_iov b).
Definition with_capacity (c : list Z) (b : obuf) : obuf :=
  Obuf (ob_pool b) (ob_size b) (ob_pos b) (ob_alloc_factor b) c (ob_iov b).
Definition with_iov (v : list iovec) (b : obuf) : obuf :=
  Obuf (ob_pool b) (ob_size b) (ob_pos b) (ob_alloc_factor b) (ob_capacity b) v.

(** Array accesses: a slot outside the array is undefined behaviour. *)

Definition get_capacity (i : nat) : M obuf Z := fun b =>
  match ob_capacity b !! i with
  | Some c => Ret c b
  | None => Undefined
  end.

Definition get_iov (i : nat) : M obuf iovec := fun b =>
  match ob_iov b !! i with
  | Some v => Ret v b
  | None => Undefined
  end.

Definition set_capacity (i : nat) (c : Z) : M obuf unit := fun b =>
  match ob_capacity b !! i with
  | Some _ => Ret tt (with_capacity (<[i := c]> (ob_capacity b)) b)
  | None => Undefined
  end.

Definition set_iov_base (i : nat) (p : ptr) : M obuf unit := fun b =>
  match ob_iov b !! i with
  | Some v => Ret tt (with_iov (<[i := Iovec p (iov_len v)]> (ob_iov b)) b)
  | None => Undefined
  end.

Definition set_iov_len (i : nat) (n : Z) : M obuf unit := fun b =>
  match ob_iov b !! i with
  | Some v => Ret tt (with_iov (<[i := Iovec (iov_base v) n]> (ob_iov b)) b)
  | None => Undefined
  end.

(** [memcpy(dst, src, n)] into the memory of the buffer's region; [src]
    holds the bytes readable at the source pointer. *)
Definition memcpy (dst : ptr) (src : list byte) (n : Z) : M obuf unit := fun b =>
  if (n <? 0) || (Z.of_nat (length src) <? n) then Undefined
  else match mem_write (r_blocks (ob_pool b)) dst (take (Z.to_nat n) src) with
       | Some m => Ret tt (with_pool (Region m) b)
       | None => Undefined
       end.

Section Obuf.

(** Whether asserts are compiled out. *)
Variable NDEBUG : bool.

(** The region allocator is not part of these sources; from the spec:
    "any arena allocation failure is an out-of-memory condition". Whether
    the region can supply [n] more bytes is left to [region_admits]. *)
Variable region_admits : region -> Z -> bool.

(** Modelled from the spec: [region_alloc] of small/region.h, "alloc(size)
    -> span from a caller-scoped region", no per-allocation free; a
    failure is an out-of-memory condition. The new span is a fresh block
    of [n] bytes (their initial value is not specified; zero here). *)
Definition region_alloc (n : Z) : M obuf ptr := fun b =>
  if region_admits (ob_pool b) n then
    Ret (Some (length (r_blocks (ob_pool b)), 0))
        (with_pool (Region (r_blocks (ob_pool b) ++ [replicate (Z.to_nat n) x00])) b)
  else Throw OutOfMemory b.

(** Initialize the next slot in iovec array. *)
Definition obuf_init_pos (pos : nat) : M obuf unit :=
  if decide (IOBUF_IOV_MAX <= pos)%nat then tnt_raise OutOfMemory
  else
    set_iov_base pos NULL ;;;
    set_iov_len pos 0 ;;;
    set_capacity pos 0.

(** [while (capacity < size) capacity *= 2]. After 64 doublings the
    capacity is 0 for good, so a loop that has not ended by then never
    ends. *)
Fixpoint grow_capacity (fuel : nat) (capacity size : Z) : option Z :=
  if capacity <? size then
    match fuel with
    | O => None
    | S fuel' => grow_capacity fuel' (wrap (capacity * 2)) size
    end
  else Some capacity.

(** Allocate memory for a single iovec buffer. *)
Definition obuf_alloc_pos (pos : nat) (size : Z) : M obuf unit :=
  assert_ NDEBUG (c <- get_capacity pos ;; ret (c =? 0)) ;;;
  capacity <- match pos with
              | O => gets ob_alloc_factor
              | S pos' => c <- get_capacity pos' ;; ret (wrap (c * 2))
              end ;;
  match grow_capacity 64 capacity size with
  | None => diverge
  | Some capacity =>
      p <- region_alloc capacity ;;
      set_iov_base pos p ;;;
      cur <- gets ob_pos ;;
      set_capacity cur capacity ;;;
      assert_ NDEBUG (v <- get_iov pos ;; ret (iov_len v =? 0))
  end.

(** Initialize an output buffer instance. Don't allocate memory yet.
    The call overwrites the fields of a [struct obuf] that is either
    fresh memory or a buffer used before: of the two arrays only slot 0
    is written, the other slots keep what they held. *)
Definition obuf_create (pool : region) (alloc_factor : Z) : M obuf unit :=
  modify (with_pool pool) ;;;
  modify (with_pos 0) ;;;
  modify (with_size 0) ;;;
  modify (with_alloc_factor alloc_factor) ;;;
  pos <- gets ob_pos ;;
  obuf_init_pos pos.

(** How many bytes are in the output buffer. *)
Definition obuf_size : M obuf Z := gets ob_size.

(** The size of iov vector in the buffer. *)
Definition obuf_iovcnt : M obuf nat :=
  pos <- gets ob_pos ;;
  v <- get_iov pos ;;
  ret (if iov_len v >? 0 then (pos + 1)%nat else pos).

(** [for (int i = from; i < to; i++) buf->iov[i].iov_len = 0;] *)
Definition zero_iov_lens (from to : nat) : M obuf unit :=
  foldr (fun i k => set_iov_len i 0 ;;; k) (ret tt) (seq from (to - from)).

(** Mark an output buffer as empty. *)
Definition obuf_reset : M obuf unit :=
  iovcnt <- obuf_iovcnt ;;
  zero_iov_lens 0 iovcnt ;;;
  modify (with_pos 0) ;;;
  modify (with_size 0).

(** The body of the [while] of [obuf_dup]; [data] is what is left to
    copy, and the result is what is left when the loop is over. Every
    turn that does not end the loop moves to the next slot, and slot 32
    cannot be read, so 32 turns are enough. *)
Fixpoint obuf_dup_loop (fuel : nat) (data : list byte) : M obuf (list byte) :=
  let size := Z.of_nat (length data) in
  pos <- gets ob_pos ;;
  iov <- get_iov pos ;;
  capacity <- get_capacity pos ;;
  if wrap (iov_len iov + size) >? capacity then
    match fuel with
    | O => diverge
    | S fuel' =>
        let next (data : list byte) : M obuf (list byte) :=
          assert_ NDEBUG (v <- get_iov pos ;; ret (capacity =? iov_len v)) ;;;
          modify (with_pos (pos + 1)) ;;;
          assert_ NDEBUG (p <- gets ob_pos ;; ret (bool_decide (p < IOBUF_IOV_MAX)%nat)) ;;;
          obuf_dup_loop fuel' data in
        if iov_len iov <? capacity then
          let fill := wrap (capacity - iov_len iov) in
          assert_ NDEBUG (ret (fill <? size)) ;;;
          memcpy (ptr_add (iov_base iov) (iov_len iov)) data fill ;;;
          set_iov_len pos (wrap (iov_len iov + fill)) ;;;
          sz <- gets ob_size ;;
          modify (with_size (wrap (sz + fill))) ;;;
          next (drop (Z.to_nat fill) data)
        else if capacity =? 0 then
          obuf_init_pos (pos + 1) ;;;
          obuf_alloc_pos pos size ;;;
          ret data
        else next data
    end
  else ret data.

(** Add data to the output buffer. Copies the data. *)
Definition obuf_dup (data : list byte) : M obuf unit :=
  rest <- obuf_dup_loop IOBUF_IOV_MAX data ;;
  let size := Z.of_nat (length rest) in
  pos <- gets ob_pos ;;
  iov <- get_iov pos ;;
  memcpy (ptr_add (iov_base iov) (iov_len iov)) rest size ;;;
  set_iov_len pos (wrap (iov_len iov + size)) ;;;
  sz <- gets ob_size ;;
  modify (with_size (wrap (sz + size))) ;;;
  assert_ NDEBUG (p <- gets ob_pos ;; v <- get_iov p ;; c <- get_capacity p ;;
                  ret (iov_len v <=? c)).

(** Slow path of obuf_reserve(). *)
Definition obuf_reserve_slow (size : Z) : M obuf ptr :=
  pos <- gets ob_pos ;;
  iov <- get_iov pos ;;
  capacity <- get_capacity pos ;;
  ic <- (if iov_len iov >? 0 then
           modify (with_pos (pos + 1)) ;;;
           assert_ NDEBUG (p <- gets ob_pos ;; ret (bool_decide (p < IOBUF_IOV_MAX)%nat)) ;;;
           iov <- get_iov (pos + 1) ;;
           capacity <- get_capacity (pos + 1) ;;
           ret (iov, capacity)
         else ret (iov, capacity)) ;;
  let iov := fst ic in
  let capacity := snd ic in
  assert_ NDEBUG (ret (iov_len iov =? 0)) ;;;
  pos <- gets ob_pos ;;
  (if capacity =? 0 then
     obuf_init_pos (pos + 1) ;;;
     obuf_alloc_pos pos size
   else if size >? capacity then
     obuf_alloc_pos pos size
   else ret tt) ;;;
  assert_ NDEBUG (p <- gets ob_pos ;; v <- get_iov p ;; c <- get_capacity p ;;
                  ret (wrap (iov_len v + size) <=? c)) ;;;
  pos <- gets ob_pos ;;
  v <- get_iov pos ;;
  ret (ptr_add (iov_base v) (iov_len v)).

(** Ensure the buffer has at least [size] bytes of contiguous memory for
    write and return a pointer to this chunk. *)
Definition obuf_reserve (size : Z) : M obuf ptr :=
  pos <- gets ob_pos ;;
  v <- get_iov pos ;;
  c <- get_capacity pos ;;
  if wrap (iov_len v + size) >? c then obuf_reserve_slow size
  else ret (ptr_add (iov_base v) (iov_len v)).

(** Advance write position after using obuf_reserve(). *)
Definition obuf_alloc (size : Z) : M obuf ptr :=
  pos <- gets ob_pos ;;
  v <- get_iov pos ;;
  c <- get_capacity pos ;;
  (if wrap (iov_len v + size) >? c then _ <- obuf_reserve_slow size ;; ret tt
   else ret tt) ;;;
  pos <- gets ob_pos ;;
  iov <- get_iov pos ;;
  let p := ptr_add (iov_base iov) (iov_len iov) in
  set_iov_len pos (wrap (iov_len iov + size)) ;;;
  sz <- gets ob_size ;;
  modify (with_size (wrap (sz + size))) ;;;
  assert_ NDEBUG (p <- gets ob_pos ;; v <- get_iov p ;; c <- get_capacity p ;;
                  ret (iov_len v <? c)) ;;;
  ret p.

Definition obuf_create_svp : M obuf obuf_svp :=
  pos <- gets ob_pos ;;
  v <- get_iov pos ;;
  sz <- gets ob_size ;;
  ret (ObufSvp pos (iov_len v) sz).

(** Book a few bytes in the output buffer. *)
Definition obuf_book (size : Z) : M obuf obuf_svp :=
  _ <- obuf_reserve size ;;
  pos <- gets ob_pos ;;
  v <- get_iov pos ;;
  sz <- gets ob_size ;;
  let svp := ObufSvp pos (iov_len v) sz in
  _ <- obuf_alloc size ;;
  ret svp.

(** Convert a savepoint position to a pointer in the buffer. *)
Definition obuf_svp_to_ptr (svp : obuf_svp) : M obuf ptr :=
  v <- get_iov (svp_pos svp) ;;
  ret (ptr_add (iov_base v) (svp_iov_len svp)).

(** Forget about data in the output buffer beyond the savepoint. *)
Definition obuf_rollback_to_svp (svp : obuf_svp) : M obuf unit :=
  iovcnt <- obuf_iovcnt ;;
  modify (with_pos (svp_pos svp)) ;;;
  pos <- gets ob_pos ;;
  set_iov_len pos (svp_iov_len svp) ;;;
  modify (with_size (svp_size svp)) ;;;
  pos <- gets ob_pos ;;
  zero_iov_lens (pos + 1) iovcnt.

End Obuf.

(** The callbacks of the encoder over [obuf_reserve] and [obuf_alloc]. *)

Section ObufCb.
Variable NDEBUG : bool.
Variable region_admits : region -> Z -> bool.

(** [obuf_reserve_cb(ctx, &size)]: the pointer that [obuf_reserve]
    returns, and the new value of [*size]. *)
Definition obuf_reserve_cb (size : Z) : M obuf (ptr * Z) :=
  p <- obuf_reserve NDEBUG region_admits size ;;
  pos <- gets ob_pos ;;
  c <- get_capacity pos ;;
  v <- get_iov pos ;;
  ret (p, wrap (c - iov_len v)).

Definition obuf_alloc_cb (size : Z) : M obuf ptr :=
  obuf_alloc NDEBUG region_admits size.

End ObufCb.

(** ** The input buffer: [struct ibuf] *)

(** [struct slab_cache]: the memory of the slabs handed out so far. *)
Record slab_cache : Type := SlabCache {
  sc_slabs : memory
}.

Record ibuf : Type := Ibuf {
  ib_slabc : slab_cache;     (* struct slab_cache *slabc: the cache pointed to *)
  ib_buf : ptr;              (* char *buf *)
  ib_pos : ptr;              (* char *pos: start of input *)
  ib_end : ptr;              (* char *end: end of useful input *)
  ib_capacity : Z            (* size_t capacity *)
}.

(** The unconsumed bytes [pos, end), when they lie inside one block. *)
Definition ibuf_data (b : ibuf) : option (list byte) :=
  match ptr_diff (ib_end b) (ib_pos b) with
  | Some n => mem_read (sc_slabs (ib_slabc b)) (ib_pos b) n
  | None => None
  end.

Section Ibuf.

Variable NDEBUG : bool.

(** static int iobuf_readahead = 16320, changed by iobuf_set_readahead. *)
Variable iobuf_readahead : Z.

(** The slab cache is not part of these sources. [slab_supply sc n] is
    the capacity of the slab that [slab_get(sc, n)] returns, or [None]
    when [slab_get] returns NULL. *)
Variable slab_supply : slab_cache -> Z -> option Z.

(** Initialize an input buffer. *)
Definition ibuf_create (slabc : slab_cache) : ibuf :=
  Ibuf slabc NULL NULL NULL 0.

(** Forget all cached input. *)
Definition ibuf_reset : M ibuf unit :=
  modify (fun b => Ibuf (ib_slabc b) (ib_buf b) (ib_buf b) (ib_buf b) (ib_capacity b)).

(** How much data is read and is not parsed yet. A pointer difference is
    defined inside one array only; its conversion to size_t wraps. *)
Definition ibuf_size : M ibuf Z := fun b =>
  match ptr_diff (ib_end b) (ib_pos b) with
  | Some d =>
      (assert_ NDEBUG (ret (d >=? 0)) ;;; ret (wrap d)) b
  | None => Undefined
  end.

(** How much data can we fit beyond buf->end. *)
Definition ibuf_unused : M ibuf Z := fun b =>
  match ptr_diff (ptr_add (ib_buf b) (ib_capacity b)) (ib_end b) with
  | Some d => Ret (wrap d) b
  | None => Undefined
  end.

(** How much memory is allocated. *)
Definition ibuf_capacity : M ibuf Z := gets ib_capacity.

(** Integer value of the position in the buffer. *)
Definition ibuf_pos : M ibuf Z := fun b =>
  match ptr_diff (ib_pos b) (ib_buf b) with
  | Some d => Ret (wrap d) b
  | None => Undefined
  end.

(** Modelled from the spec: [slab_get] of the slab cache, "acquire(min_size)
    -> chunk{data, capacity}"; "failure to acquire signals an out-of-memory
    condition to the caller". The result is the pointer [slab_data(slab)]
    and [slab_capacity(slab)], or [None] for a NULL slab. *)
Definition slab_get (size : Z) : M ibuf (option (ptr * Z)) := fun b =>
  match slab_supply (ib_slabc b) size with
  | Some cap =>
      let m := sc_slabs (ib_slabc b) in
      Ret (Some (Some (length m, 0), cap))
          (Ibuf (SlabCache (m ++ [replicate (Z.to_nat cap) x00]))
                (ib_buf b) (ib_pos b) (ib_end b) (ib_capacity b))
  | None => Ret None b
  end.

(** Modelled from the spec: [slab_put], "release(chunk)". The memory of a
    released slab is no longer the buffer's; the model keeps the block. *)
Definition slab_put (p : ptr) : M ibuf unit := ret tt.

(** [memmove] and [memcpy] inside the slab memory: read [n] bytes at
    [src], then store them at [dst]. *)
Definition ibuf_move (dst src : ptr) (n : Z) : M ibuf unit := fun b =>
  let m := sc_slabs (ib_slabc b) in
  match mem_read m src n with
  | Some bytes =>
      match mem_write m dst bytes with
      | Some m' => Ret tt (Ibuf (SlabCache m') (ib_buf b) (ib_pos b) (ib_end b)
                                (ib_capacity b))
      | None => Undefined
      end
  | None => Undefined
  end.

(** [while (new_capacity < current_size + size) new_capacity *= 2] *)
Fixpoint grow_ibuf (fuel : nat) (new_capacity need : Z) : option Z :=
  if new_capacity <? need then
    match fuel with
    | O => None
    | S fuel' => grow_ibuf fuel' (wrap (new_capacity * 2)) need
    end
  else Some new_capacity.

(** Ensure the buffer has sufficient capacity to store size bytes. *)
Definition ibuf_reserve (size : Z) : M ibuf unit :=
  unused <- ibuf_unused ;;
  if size <=? unused then ret tt
  else
    current_size <- ibuf_size ;;
    capacity <- gets ib_capacity ;;
    (if wrap (size + current_size) <=? capacity then
       buf <- gets ib_buf ;;
       pos <- gets ib_pos ;;
       ibuf_move buf pos current_size
     else
       (* MAX(ibuf->capacity * 2, iobuf_readahead): the int is converted
          to size_t *)
       let new_capacity := Z.max (wrap (capacity * 2)) (wrap iobuf_readahead) in
       match grow_ibuf 64 new_capacity (wrap (current_size + size)) with
       | None => diverge
       | Some new_capacity =>
           slab <- slab_get new_capacity ;;
           match slab with
           | None => tnt_raise OutOfMemory
           | Some (ptr, slab_capacity) =>
               pos <- gets ib_pos ;;
               ibuf_move ptr pos current_size ;;;
               modify (fun b => Ibuf (ib_slabc b) (ib_buf b) (ib_pos b) (ib_end b)
                                     slab_capacity) ;;;
               buf <- gets ib_buf ;;
               (if decide (buf = NULL) then ret tt else slab_put buf) ;;;
               modify (fun b => Ibuf (ib_slabc b) ptr (ib_pos b) (ib_end b)
                                     (ib_capacity b))
           end
       end) ;;;
    modify (fun b => Ibuf (ib_slabc b) (ib_buf b) (ib_buf b) (ib_end b) (ib_capacity b)) ;;;
    modify (fun b => Ibuf (ib_slabc b) (ib_buf b) (ib_pos b)
                          (ptr_add (ib_pos b) current_size) (ib_capacity b)).

End Ibuf.

(** [ibuf_destroy]: give the slab back, if there is one. *)
Definition ibuf_destroy : M ibuf unit :=
  buf <- gets ib_buf ;;
  if decide (buf = NULL) then ret tt else slab_put buf.

(** ** The input/output pair: [struct iobuf] *)

Record iobuf : Type := Iobuf {
  io_in : ibuf;              (* struct ibuf in *)
  io_out : obuf;             (* struct obuf out; its pool is iobuf->pool *)
  io_pins : Z                (* int pins *)
}.

(** Run a function of the input buffer on [iobuf->in]. *)
Definition on_in {A} (m : M ibuf A) : M iobuf A := fun io =>
  match m (io_in io) with
  | Ret a i => Ret a (Iobuf i (io_out io) (io_pins io))
  | Throw e i => Throw e (Iobuf i (io_out io) (io_pins io))
  | Abort => Abort
  | Undefined => Undefined
  | Diverge => Diverge
  end.

(** Run a function of the output buffer on [iobuf->out]. *)
Definition on_out {A} (m : M obuf A) : M iobuf A := fun io =>
  match m (io_out io) with
  | Ret a o => Ret a (Iobuf (io_in io) o (io_pins io))
  | Throw e o => Throw e (Iobuf (io_in io) o (io_pins io))
  | Abort => Abort
  | Undefined => Undefined
  | Diverge => Diverge
  end.

Section Iobuf.

Variable NDEBUG : bool.

(** [iobuf->pins++] *)
Definition iobuf_pin : M iobuf unit :=
  modify (fun io => Iobuf (io_in io) (io_out io) (wrap_int (io_pins io + 1))).

(** [iobuf->pins--] *)
Definition iobuf_unpin : M iobuf unit :=
  modify (fun io => Iobuf (io_in io) (io_out io) (wrap_int (io_pins io - 1))).

(** Return true if there is no input and no output and no one has pinned
    the buffer. The operands of [&&] are evaluated left to right, each
    only when the ones before it hold. *)
Definition iobuf_is_idle : M iobuf bool :=
  n <- on_in (ibuf_size NDEBUG) ;;
  if n =? 0 then
    m <- on_out obuf_size ;;
    if m =? 0 then
      p <- gets io_pins ;;
      ret (p =? 0)
    else ret false
  else ret false.

(** If we happen to have fully processed the input, move the pos to the
    start of the input buffer; reset the output buffer. *)
Definition iobuf_reset : M iobuf unit :=
  n <- on_in (ibuf_size NDEBUG) ;;
  (if n =? 0 then on_in ibuf_reset else ret tt) ;;;
  on_out obuf_reset.

End Iobuf.

(** ** The cache of units *)

Section IobufCache.

Variable NDEBUG : bool.

(** static int iobuf_readahead *)
Variable iobuf_readahead : Z.

(** [region_used] of small/region.h is not part of these sources. *)
Variable region_used : region -> Z.

(** [mempool_alloc(&iobuf_pool)] of small/mempool.h is not part of
    these sources: the memory of a new [struct iobuf], with whatever it
    holds; [None] when the allocator signals out of memory. *)
Variable mempool_alloc : option iobuf.

(** [&cord()->slabc] *)
Variable cord_slabc : slab_cache.

(** How big is a buffer which needs to be shrunk before it is put back
    into buffer cache. The product is taken in [int]; the properties of
    the cache are stated for readaheads whose product fits. *)
Definition iobuf_max_pool_size : Z := wrap_int (18 * iobuf_readahead).

(** Modelled from the spec: [region_create] and [region_free] of
    small/region.h, "bulk_free(region) releases everything allocated
    since the region was created/last reset": a region that was just
    created or freed holds no block. *)
Definition region_create : region := Region [].
Definition region_free (r : region) : region := Region [].

(** The two asserts that end [iobuf_new]; the [int] is converted to
    [size_t] for the comparisons. *)
Definition iobuf_new_checks (io : iobuf) : M (list iobuf) iobuf :=
  assert_ NDEBUG (ret (region_used (ob_pool (io_out io)) <=? wrap iobuf_max_pool_size)) ;;;
  assert_ NDEBUG (ret (ib_capacity (io_in io) <=? wrap iobuf_max_pool_size)) ;;;
  ret io.

(** Create an instance of input/output buffer or take one from cache.
    The state is the cache, [SLIST_HEAD(iobuf_cache, iobuf)];
    [region_set_name] only labels the region. *)
Definition iobuf_new : M (list iobuf) iobuf := fun cache =>
  match cache with
  | [] =>
      match mempool_alloc with
      | None => Throw OutOfMemory cache
      | Some raw =>
          match obuf_create region_create (wrap iobuf_readahead) (io_out raw) with
          | Ret _ out => iobuf_new_checks (Iobuf (ibuf_create cord_slabc) out 0) cache
          | Throw e _ => Throw e cache
          | Abort => Abort
          | Undefined => Undefined
          | Diverge => Diverge
          end
      end
  | io :: rest => iobuf_new_checks io rest
  end.

(** What [iobuf_delete] does to the unit before it puts it into the
    cache. The input buffer of a unit is on the slab cache of the
    thread, so [&cord()->slabc] is the cache the buffer holds. *)
Definition iobuf_trim : M iobuf unit :=
  assert_ NDEBUG (p <- gets io_pins ;; ret (p =? 0)) ;;;
  c <- on_in ibuf_capacity ;;
  (if c <? wrap iobuf_max_pool_size then on_in ibuf_reset
   else on_in ibuf_destroy ;;;
        modify (fun io => Iobuf (ibuf_create (ib_slabc (io_in io))) (io_out io) (io_pins io))) ;;;
  used <- gets (fun io => region_used (ob_pool (io_out io))) ;;
  if used <? wrap iobuf_max_pool_size then on_out obuf_reset
  else on_out (modify (fun b => with_pool (region_free (ob_pool b)) b)) ;;;
       pool <- gets (fun io => ob_pool (io_out io)) ;;
       on_out (obuf_create pool (wrap iobuf_readahead)).

(** Put an instance back to the iobuf_cache. *)
Definition iobuf_delete (io : iobuf) : M (list iobuf) unit := fun cache =>
  match iobuf_trim io with
  | Ret _ io' => Ret tt (io' :: cache)
  | Throw e _ => Throw e cache
  | Abort => Abort
  | Undefined => Undefined
  | Diverge => Diverge
  end.

End IobufCache.

(** ** Reading a buffer *)

Definition cap_at (b : obuf) (i : nat) : Z := default 0 (ob_capacity b !! i).
Definition iov_at (b : obuf) (i : nat) : iovec := default (Iovec NULL 0) (ob_iov b !! i).
Definition len_at (b : obuf) (i : nat) : Z := iov_len (iov_at b i).
Definition base_at (b : obuf) (i : nat) : ptr := iov_base (iov_at b i).

(** The value of [obuf_iovcnt]. *)
Definition iovcnt (b : obuf) : nat :=
  if len_at b (ob_pos b) >? 0 then (ob_pos b + 1)%nat else ob_pos b.

(** The bytes of segment [i]: the first [iov_len] bytes at [iov_base]. *)
Definition seg_bytes (b : obuf) (i : nat) : list byte :=
  default [] (mem_read (r_blocks (ob_pool b)) (base_at b i) (len_at b i)).

(** What [writev] sends: the segments [0 .. obuf_iovcnt), in order. *)
Definition obuf_content (b : obuf) : list byte :=
  concat (map (seg_bytes b) (seq 0 (iovcnt b))).

(** ** A run of the concrete scenario *)

Module Scenario.

Definition admits_all (_ : region) (_ : Z) : bool := true.

(** Slot contents left over in memory before [obuf_create]. *)
Definition raw : obuf :=
  Obuf (Region []) 7 3 9 (replicate 32 5) (replicate 32 (Iovec (Some (9%nat, 4)) 11)).

Definition run {A} (m : M obuf A) (o : outcome obuf unit) : outcome obuf A :=
  match o with
  | Ret _ s => m s
  | Throw e s => Throw e s
  | Abort => Abort
  | Undefined => Undefined
  | Diverge => Diverge
  end.

Definition state_of {A} (o : outcome obuf A) : obuf :=
  match o with
  | Ret _ s => s
  | Throw _ s => s
  | _ => raw
  end.

Definition bytes (n : nat) (x : byte) : list byte := replicate n x.

Definition s0 := obuf_create (Region []) 128 raw.
Definition s1 := run (obuf_dup false admits_all (bytes 100 x61)) s0.
Definition s2 := run (obuf_dup false admits_all (bytes 50 x62)) s1.

End Scenario.

(** * The vocabulary of the specifications *)

(** ** Memory *)

(** [data] written over [blk] from offset [o] on. *)
Definition splice (o : nat) (data blk : list byte) : list byte :=
  take o blk ++ data ++ drop (o + length data) blk.

(** ** Well-formed output buffers *)

(** The theorems below are about requests of at most 4 GiB on buffers
    with an allocation factor of at most 4 GiB: then no [size_t]
    computation of the code wraps around. *)
Definition REQ_MAX : Z := 2 ^ 32.

Definition cap_bound (i : nat) : Z := 2 ^ (33 + Z.of_nat i).

Fixpoint sum_len (b : obuf) (k : nat) : Z :=
  match k with
  | O => 0
  | S k' => sum_len b k' + len_at b k'
  end.

(** Slot [i] holds an allocated segment. *)
Record seg_ok (b : obuf) (i : nat) : Prop := SegOk {
  seg_cap_pos : 0 < cap_at b i;
  seg_cap_le : cap_at b i <= cap_bound i;
  seg_len_ge : 0 <= len_at b i;
  seg_len_le : len_at b i <= cap_at b i;
  seg_blk : exists k blk,
      base_at b i = Some (k, 0) /\
      r_blocks (ob_pool b) !! k = Some blk /\
      Z.of_nat (length blk) = cap_at b i
}.

(** [wf_at n b]: slots [0 .. n) hold allocated segments, slot [n] is the
    zero-initialized end marker, and the slots after it hold anything
    ([obuf_create] writes slot 0 only). *)
Record wf_at (n : nat) (b : obuf) : Prop := WfAt {
  wf_lcap : length (ob_capacity b) = IOBUF_IOV_MAX;
  wf_liov : length (ob_iov b) = IOBUF_IOV_MAX;
  wf_pos : (ob_pos b <= n)%nat;
  wf_n : (n < IOBUF_IOV_MAX)%nat;
  wf_af : 0 < ob_alloc_factor b <= REQ_MAX;
  wf_seg : forall i, (i < n)%nat -> seg_ok b i;
  wf_sent_cap : cap_at b n = 0;
  wf_sent_len : len_at b n = 0;
  wf_tail : forall i, (ob_pos b < i < n)%nat -> len_at b i = 0;
  wf_distinct : forall i j k o o', (i < n)%nat -> (j < n)%nat -> i <> j ->
      base_at b i = Some (k, o) -> base_at b j = Some (k, o') -> False;
  wf_size : ob_size b = sum_len b n
}.

Definition obuf_wf (b : obuf) : Prop := exists n, wf_at n b.

Definition content_upto (b : obuf) (m : nat) : list byte :=
  concat (map (seg_bytes b) (seq 0 m)).

(** ** Buffers that only grow *)

(** [grows b d b']: [b'] holds what [b] held, at the same places, followed by [d]. *)
Record grows (b : obuf) (d : list byte) (b' : obuf) : Prop := Grows {
  g_pos : (ob_pos b <= ob_pos b')%nat;
  g_af : ob_alloc_factor b' = ob_alloc_factor b;
  g_content : obuf_content b' = obuf_content b ++ d;
  g_size : ob_size b' = ob_size b + Z.of_nat (length d);
  g_len_below : forall i, (i < ob_pos b)%nat -> len_at b' i = len_at b i;
  g_len_cur : len_at b (ob_pos b) <= len_at b' (ob_pos b);
  g_bytes : forall i, (i <= ob_pos b)%nat ->
      take (Z.to_nat (len_at b i)) (seg_bytes b' i) = seg_bytes b i
}.

(** ** The steps of the allocation *)

(** [b'] is [b] with slot [q] of both arrays overwritten. *)
Record slot_update (b b' : obuf) (q : nat) (c : Z) (v : iovec) : Prop := SlotUpdate {
  su_pos : ob_pos b' = ob_pos b;
  su_size : ob_size b' = ob_size b;
  su_af : ob_alloc_factor b' = ob_alloc_factor b;
  su_lcap : length (ob_capacity b') = length (ob_capacity b);
  su_liov : length (ob_iov b') = length (ob_iov b);
  su_cap : forall i, cap_at b' i = if decide (q = i) then c else cap_at b i;
  su_iov : forall i, iov_at b' i = if decide (q = i) then v else iov_at b i
}.

Definition alloc_start (b : obuf) (p : nat) : Z :=
  match p with
  | O => ob_alloc_factor b
  | S p' => wrap (cap_at b p' * 2)
  end.

(** The buffer after a successful [obuf_alloc_pos(buf, p, size)] that
    settled on capacity [c]. *)
Definition alloc_state (b : obuf) (p : nat) (c : Z) : obuf :=
  let b1 := with_pool (Region (r_blocks (ob_pool b) ++ [replicate (Z.to_nat c) x00])) b in
  let b2 := with_iov (<[p := Iovec (Some (length (r_blocks (ob_pool b)), 0)) (len_at b1 p)]>
                        (ob_iov b1)) b1 in
  with_capacity (<[p := c]> (ob_capacity b2)) b2.

(** The capacity of the slots [i .. n). *)
Definition sum_cap (b : obuf) (i n : nat) : Z :=
  foldr (fun j acc => cap_at b j + acc) 0 (seq i (n - i)).

(** The bytes that fit into the allocated segments from the current one
    on: what [obuf_dup] can store without a new segment. *)
Definition room (b : obuf) (n : nat) : Z :=
  sum_cap b (ob_pos b) n - len_at b (ob_pos b).

(** ** What the calls come to *)

Section Outcomes.
Variable NDEBUG : bool.
Variable region_admits : region -> Z -> bool.

(** The end marker becomes a segment: [obuf_init_pos(buf, pos + 1)] and
    [obuf_alloc_pos(buf, pos, size)] with [pos] at the end marker. *)
Inductive materialized (n : nat) (b : obuf) (size : Z) : outcome obuf unit -> Prop :=
| mat_cap : S n = IOBUF_IOV_MAX -> materialized n b size (Throw OutOfMemory b)
| mat_oom b1 r c : (S n < IOBUF_IOV_MAX)%nat -> wf_at n b1 -> grows b [] b1 ->
    region_admits r c = false -> materialized n b size (Throw OutOfMemory b1)
| mat_ok b' : (S n < IOBUF_IOV_MAX)%nat -> wf_at (S n) b' -> grows b [] b' ->
    ob_pos b' = n -> len_at b' n = 0 -> size <= cap_at b' n ->
    materialized n b size (Ret tt b').

Definition dup_loop_post (n : nat) (b : obuf) (data : list byte)
    (o : outcome obuf (list byte)) : Prop :=
  match o with
  | Ret rest b' =>
      exists n' d, data = d ++ rest /\ wf_at n' b' /\ grows b d b' /\
        len_at b' (ob_pos b') + Z.of_nat (length rest) <= cap_at b' (ob_pos b') /\
        ((Z.of_nat (length data) <= room b n /\ n' = n) \/
         (room b n < Z.of_nat (length data) /\ n' = S n))
  | Throw e b' =>
      e = OutOfMemory /\ room b n < Z.of_nat (length data) /\
      exists d rest, data = d ++ rest /\ wf_at n b' /\ grows b d b' /\
        (S n = IOBUF_IOV_MAX \/ exists r c, region_admits r c = false)
  | _ => False
  end.

(** What a call of [obuf_dup] on a well-formed buffer with [n]
    allocated segments comes to. *)
Definition dup_post (n : nat) (b : obuf) (data : list byte)
    (o : outcome obuf unit) : Prop :=
  match o with
  | Ret _ b' =>
      exists n', wf_at n' b' /\ grows b data b' /\
        ((Z.of_nat (length data) <= room b n /\ n' = n) \/
         (room b n < Z.of_nat (length data) /\ n' = S n))
  | Throw e b' =>
      e = OutOfMemory /\ room b n < Z.of_nat (length data) /\
      exists d rest, data = d ++ rest /\ wf_at n b' /\ grows b d b' /\
        (S n = IOBUF_IOV_MAX \/ exists r c, region_admits r c = false)
  | _ => False
  end.

(** The slot [obuf_reserve_slow] works on: the next one when the current
    segment holds data. *)
Definition slow_slot (b : obuf) : nat :=
  if len_at b (ob_pos b) >? 0 then S (ob_pos b) else ob_pos b.

Definition reserve_slow_post (n : nat) (b : obuf) (size : Z)
    (o : outcome obuf ptr) : Prop :=
  match o with
  | Ret p b' =>
      exists n', wf_at n' b' /\ grows b [] b' /\ (n' = n \/ n' = S n) /\
        ob_pos b' = slow_slot b /\ len_at b' (ob_pos b') = 0 /\
        size <= cap_at b' (ob_pos b') /\
        p = ptr_add (base_at b' (ob_pos b')) 0 /\
        (forall i, (i <= ob_pos b)%nat -> len_at b' i = len_at b i) /\
        (cap_at b (slow_slot b) = 0 \/ size <= cap_at b (slow_slot b) \/ NDEBUG = true)
  | Throw e b' =>
      e = OutOfMemory /\ wf_at n b' /\ grows b [] b' /\
      (forall i, (i <= ob_pos b)%nat -> len_at b' i = len_at b i) /\
      ((slow_slot b = n /\ S n = IOBUF_IOV_MAX) \/ exists r c, region_admits r c = false) /\
      (cap_at b (slow_slot b) = 0 \/ NDEBUG = true)
  | Abort =>
      NDEBUG = false /\ (slow_slot b < n)%nat /\ 0 < cap_at b (slow_slot b) < size
  | _ => False
  end.

(** The caller of [obuf_reserve] or [obuf_alloc] stores its bytes at the
    pointer it got: [memcpy(ptr, data, n)]. *)
Definition obuf_store (p : ptr) (data : list byte) : M obuf unit :=
  memcpy p data (Z.of_nat (length data)).

(** The second half of [obuf_alloc], from [struct iovec *iov = ...] on. *)
Definition obuf_alloc_tail (size : Z) : M obuf ptr :=
  pos <- gets ob_pos ;;
  iov <- get_iov pos ;;
  let p := ptr_add (iov_base iov) (iov_len iov) in
  set_iov_len pos (wrap (iov_len iov + size)) ;;;
  sz <- gets ob_size ;;
  modify (with_size (wrap (sz + size))) ;;;
  assert_ NDEBUG (p <- gets ob_pos ;; v <- get_iov p ;; c <- get_capacity p ;;
                  ret (iov_len v <? c)) ;;;
  ret p.

(** Appending [data] through [obuf_alloc]: get the pointer, store the bytes. *)
Definition obuf_alloc_store (data : list byte) : M obuf unit :=
  p <- obuf_alloc NDEBUG region_admits (Z.of_nat (length data)) ;;
  obuf_store p data.

Definition append_post (n : nat) (b : obuf) (data : list byte)
    (o : outcome obuf unit) : Prop :=
  match o with
  | Ret _ b' => exists n', wf_at n' b' /\ grows b data b' /\ (n' = n \/ n' = S n)
  | Throw e b' =>
      e = OutOfMemory /\ exists d, wf_at n b' /\ grows b d b' /\
        (S n = IOBUF_IOV_MAX \/ exists r c, region_admits r c = false)
  | Abort => NDEBUG = false
  | _ => False
  end.

(** [obuf_reserve] on a well-formed buffer. *)
Definition reserve_post (n : nat) (b : obuf) (size : Z) (o : outcome obuf ptr) : Prop :=
  match o with
  | Ret p b' =>
      exists n', wf_at n' b' /\ grows b [] b' /\ (n' = n \/ n' = S n) /\
        len_at b' (ob_pos b') + size <= cap_at b' (ob_pos b') /\
        p = ptr_add (base_at b' (ob_pos b')) (len_at b' (ob_pos b')) /\
        (forall i, (i <= ob_pos b)%nat -> len_at b' i = len_at b i)
  | Throw e b' =>
      e = OutOfMemory /\ wf_at n b' /\ grows b [] b' /\
      (forall i, (i <= ob_pos b)%nat -> len_at b' i = len_at b i) /\
      ((slow_slot b = n /\ S n = IOBUF_IOV_MAX) \/ exists r c, region_admits r c = false)
  | Abort =>
      NDEBUG = false /\ (slow_slot b < n)%nat /\ 0 < cap_at b (slow_slot b) < size
  | _ => False
  end.

(** Savepoints. *)

(** [b'] is [b] with the lengths of the slots [from .. from + k) set to 0. *)
Record lens_zeroed (from k : nat) (b b' : obuf) : Prop := LensZeroed {
  lz_pool : ob_pool b' = ob_pool b;
  lz_size : ob_size b' = ob_size b;
  lz_pos : ob_pos b' = ob_pos b;
  lz_af : ob_alloc_factor b' = ob_alloc_factor b;
  lz_cap : ob_capacity b' = ob_capacity b;
  lz_liov : length (ob_iov b') = length (ob_iov b);
  lz_iov : forall i, iov_at b' i =
      if decide (from <= i < from + k)%nat then Iovec (base_at b i) 0 else iov_at b i
}.

(** The savepoint that [obuf_create_svp] takes of [b]. *)
Definition svp_of (b : obuf) : obuf_svp :=
  ObufSvp (ob_pos b) (len_at b (ob_pos b)) (ob_size b).

(** Appending the chunks in order through [obuf_dup]. *)
Definition obuf_dup_all (chunks : list (list byte)) : M obuf unit :=
  foldr (fun c k => obuf_dup NDEBUG region_admits c ;;; k) (ret tt) chunks.

Definition dup_all_post (n : nat) (b : obuf) (chunks : list (list byte))
    (o : outcome obuf unit) : Prop :=
  match o with
  | Ret _ b' =>
      exists n', wf_at n' b' /\ grows b (concat chunks) b' /\
                 (n <= n' <= n + length chunks)%nat
  | Throw e b' =>
      e = OutOfMemory /\ exists n' d, wf_at n' b' /\ grows b d b' /\
        d `prefix_of` concat chunks /\ (n' < n + length chunks)%nat /\
        (S n' = IOBUF_IOV_MAX \/ exists r c, region_admits r c = false)
  | _ => False
  end.

(** Deciding well-formedness. *)

Definition seg_check (b : obuf) (i : nat) : bool :=
  (0 <? cap_at b i) && (cap_at b i <=? cap_bound i) &&
  (0 <=? len_at b i) && (len_at b i <=? cap_at b i) &&
  match base_at b i with
  | Some (k, o) =>
      (o =? 0) &&
      match r_blocks (ob_pool b) !! k with
      | Some blk => Z.of_nat (length blk) =? cap_at b i
      | None => false
      end
  | None => false
  end.

Definition base_differ (b : obuf) (i j : nat) : bool :=
  match base_at b i, base_at b j with
  | Some (k, _), Some (k', _) => negb (Nat.eqb k k')
  | _, _ => true
  end.

Definition wf_check (n : nat) (b : obuf) : bool :=
  Nat.eqb (length (ob_capacity b)) IOBUF_IOV_MAX &&
  Nat.eqb (length (ob_iov b)) IOBUF_IOV_MAX &&
  Nat.leb (ob_pos b) n && Nat.ltb n IOBUF_IOV_MAX &&
  (0 <? ob_alloc_factor b) && (ob_alloc_factor b <=? REQ_MAX) &&
  forallb (seg_check b) (seq 0 n) &&
  (cap_at b n =? 0) && (len_at b n =? 0) &&
  forallb (fun i => Nat.leb i (ob_pos b) || (len_at b i =? 0)) (seq 0 n) &&
  forallb (fun i => forallb (fun j => Nat.eqb i j || base_differ b i j) (seq 0 n)) (seq 0 n) &&
  (ob_size b =? sum_len b n).

(** A buffer whose 31 usable slots are all taken and full (one-byte
    segments keep it small). *)
Definition full31 : obuf :=
  Obuf (Region (replicate 31 [x00])) 31 30 1
       (replicate 31 1 ++ [0])
       (map (fun k => Iovec (Some (k, 0)) 1) (seq 0 31) ++ [Iovec NULL 0]).

(** Sequences of appends. *)

(** One append: through [obuf_dup], or through [obuf_alloc] with the
    bytes stored at the pointer it returns. *)
Inductive append_op : Type :=
| AppDup (data : list byte)
| AppAlloc (data : list byte).

Definition op_data (op : append_op) : list byte :=
  match op with
  | AppDup data => data
  | AppAlloc data => data
  end.

(** How a savepoint is taken. *)
Inductive capture : Type :=
| ByCreateSvp
| ByBook (size : Z).

Definition run_append (op : append_op) : M obuf unit :=
  match op with
  | AppDup data => obuf_dup NDEBUG region_admits data
  | AppAlloc data => obuf_alloc_store data
  end.

Definition run_appends (ops : list append_op) : M obuf unit :=
  foldr (fun op k => run_append op ;;; k) (ret tt) ops.

Definition capture_svp (c : capture) : M obuf obuf_svp :=
  match c with
  | ByCreateSvp => obuf_create_svp
  | ByBook size => obuf_book NDEBUG region_admits size
  end.

(** [p = obuf_reserve(buf, n); memcpy(p, data, n); obuf_alloc(buf, n);] *)
Definition reserve_store_alloc (data : list byte) : M obuf ptr :=
  p <- obuf_reserve NDEBUG region_admits (Z.of_nat (length data)) ;;
  obuf_store p data ;;;
  obuf_alloc NDEBUG region_admits (Z.of_nat (length data)).

(** Whether the bytes fill the segment that [obuf_reserve] settles on to
    the last byte. *)
Definition exact_fit (b : obuf) (size : Z) : Prop :=
  len_at b (ob_pos b) + size = cap_at b (ob_pos b).

End Outcomes.

(** ** Input buffers *)

(** [buf <= pos <= end <= buf + capacity], all inside the slab of the
    buffer; or no slab yet. *)
Inductive ibuf_wf (b : ibuf) : Prop :=
| ibuf_wf_null :
    ib_buf b = NULL -> ib_pos b = NULL -> ib_end b = NULL -> ib_capacity b = 0 ->
    ibuf_wf b
| ibuf_wf_slab k blk p e :
    ib_buf b = Some (k, 0) -> ib_pos b = Some (k, p) -> ib_end b = Some (k, e) ->
    0 <= p <= e -> e <= ib_capacity b -> ib_capacity b <= SIZE_MAX ->
    sc_slabs (ib_slabc b) !! k = Some blk ->
    Z.of_nat (length blk) = ib_capacity b ->
    ibuf_wf b.

(** The value of [ibuf_size] and of [ibuf_unused] in a well-formed buffer. *)
Definition ibuf_used (b : ibuf) : Z :=
  default 0 (ptr_diff (ib_end b) (ib_pos b)).

Definition ibuf_free (b : ibuf) : Z :=
  default 0 (ptr_diff (ptr_add (ib_buf b) (ib_capacity b)) (ib_end b)).

(** Computations that raise nothing. *)
Definition no_throw {S A} (m : M S A) : Prop :=
  forall s e s', m s = Throw e s' -> False.

Section IbufGrowth.
Variable iobuf_readahead : Z.

(** The capacity [ibuf_reserve] asks the slab cache for. *)
Definition ibuf_new_capacity (b : ibuf) (size : Z) : option Z :=
  grow_ibuf 64 (Z.max (wrap (ib_capacity b * 2)) (wrap iobuf_readahead))
            (wrap (ibuf_used b + size)).

End IbufGrowth.

(** The largest [int]: [iobuf->pins] is an [int]. *)
Definition INT_MAX : Z := 2 ^ 31 - 1.

(** ** Example runs *)

Module Scenario2.
Import Scenario.

(** The savepoint taken at size 100, and the rollback to it after the
    append of 50 bytes. *)
Definition svp100 : obuf_svp := svp_of (state_of s1).
Definition s3 : outcome obuf unit := run (obuf_rollback_to_svp svp100) s2.

End Scenario2.

Module SavepointExample.
Import Scenario.

(** After the append of 100 bytes. *)
Definition sA : obuf := state_of s1.

(** [obuf_book(buf, 50)] in that state: the 50 bytes do not fit into
    the 28 bytes left of segment 0. *)
Definition booked : outcome obuf obuf_svp := obuf_book false admits_all 50 sA.
Definition svp : obuf_svp :=
  match booked with
  | Ret v _ => v
  | _ => svp_of sA
  end.
Definition s_booked : obuf := state_of booked.

(** Further appends, through [obuf_dup] and through [obuf_alloc]. *)
Definition B : list append_op := [AppDup (bytes 50 x62); AppAlloc (bytes 10 x63)].
Definition sB : obuf := state_of (run_appends false admits_all B s_booked).

End SavepointExample.

Module IbufExample.

(** A slab cache that has no slab left to give. *)
Definition no_slabs (_ : slab_cache) (_ : Z) : option Z := None.

(** An input buffer on a slab of 8 bytes: 4 bytes consumed, 2 bytes
    unconsumed, 2 bytes free after [end]. *)
Definition fragmented : ibuf :=
  Ibuf (SlabCache [[x01; x02; x03; x04; x05; x06; x07; x08]])
       (Some (0%nat, 0)) (Some (0%nat, 4)) (Some (0%nat, 6)) 8.

(** A unit with empty buffers that is pinned once. *)
Definition pinned_once : iobuf :=
  Iobuf (ibuf_create (SlabCache [])) (Scenario.state_of Scenario.s0) 1.

End IbufExample.

(** ** Memory that stays where it is *)

(** [settled b b']: the segments of [b] that hold data are where they
    were, with the capacity they had, and hold at least as much. *)
Record settled (b b' : obuf) : Prop := Settled {
  st_pos : (ob_pos b <= ob_pos b')%nat;
  st_len : forall i, (i <= ob_pos b)%nat -> len_at b i <= len_at b' i;
  st_base : forall i, (i <= ob_pos b)%nat -> 0 < len_at b i -> base_at b' i = base_at b i;
  st_cap : forall i, (i <= ob_pos b)%nat -> 0 < len_at b i -> cap_at b' i = cap_at b i
}.

(** The number of blocks the region has handed out. *)
Definition blocks (b : obuf) : nat := length (r_blocks (ob_pool b)).

(** What a computation that stores bytes and bumps lengths leaves as it is. *)
Definition layout_kept (b b' : obuf) : Prop :=
  ob_pos b' = ob_pos b /\ ob_capacity b' = ob_capacity b /\
  (forall i, base_at b' i = base_at b i) /\ blocks b' = blocks b.

(** Computations that keep the layout, also when they raise. *)
Definition keeps_layout {A} (m : M obuf A) : Prop :=
  forall b, match m b with
            | Ret _ b' | Throw _ b' => layout_kept b b'
            | _ => True
            end.

(** What the appends through [obuf_dup] come to, besides [dup_post]. *)
Definition dup_settled {A} (n : nat) (b : obuf) (o : outcome obuf A) : Prop :=
  match o with
  | Ret _ b' =>
      settled b b' /\
      exists n', wf_at n' b' /\ (n <= n')%nat /\ blocks b' = (blocks b + (n' - n))%nat
  | Throw _ b' => settled b b' /\ wf_at n b' /\ blocks b' = blocks b
  | _ => True
  end.

(** Computations that only read the buffer. *)
Definition readonly {A} (m : M obuf A) : Prop :=
  forall b, match m b with
            | Ret _ b' | Throw _ b' => b' = b
            | _ => True
            end.

(** A field of the buffer that a computation leaves as it is, also when
    it raises. *)
Definition preserves {X A} (f : obuf -> X) (m : M obuf A) : Prop :=
  forall b, match m b with
            | Ret _ b' | Throw _ b' => f b' = f b
            | _ => True
            end.

(** [memcpy(obuf_svp_to_ptr(buf, &svp), data, n)]: storing bytes at a savepoint. *)
Definition obuf_svp_store (svp : obuf_svp) (data : list byte) : M obuf unit :=
  p <- obuf_svp_to_ptr svp ;;
  obuf_store p data.

(** ** Slab caches *)

(** What the code expects of [slab_get]: a slab of at least the size
    asked for. *)
Definition slab_honest (slab_supply : slab_cache -> Z -> option Z) : Prop :=
  forall sc c cap, slab_supply sc c = Some cap -> c <= cap <= SIZE_MAX.

(** ** More example runs *)

Module MoreExamples.
Import Scenario.

(** A region that refuses every allocation. *)
Definition admits_none (_ : region) (_ : Z) : bool := false.

(** The buffer after both appends of the scenario: 128 bytes in
    segment 0, 22 bytes in segment 1 of capacity 256. *)
Definition s150 : obuf := state_of s2.

(** 50 more bytes for the buffer that holds 100 of 128, when the region
    has nothing to give. *)
Definition failed : outcome obuf unit :=
  obuf_dup false admits_none (bytes 50 x62) SavepointExample.sA.

(** The appends of [SavepointExample] when the region has nothing to give. *)
Definition failedB : outcome obuf unit :=
  run_appends false admits_none SavepointExample.B SavepointExample.sA.

(** The bytes a region has handed out. *)
Definition region_bytes (r : region) : Z := Z.of_nat (length (concat (r_blocks r))).

(** A slab cache that gives slabs of the size asked for. *)
Definition slab_exact (_ : slab_cache) (c : Z) : option Z :=
  if c <=? SIZE_MAX then Some c else None.

(** The fragmented input buffer after [ibuf_reserve] of 100 bytes. *)
Definition grown : ibuf :=
  match ibuf_reserve false 16320 slab_exact 100 IbufExample.fragmented with
  | Ret _ b | Throw _ b => b
  | _ => IbufExample.fragmented
  end.

(** A unit in use, and the memory of a unit before [iobuf_new] sets it up. *)
Definition unit_used : iobuf := Iobuf IbufExample.fragmented s150 0.
Definition unit_raw : iobuf := Iobuf IbufExample.fragmented raw 5.

End MoreExamples.

(** * Lemmas on memory and arrays *)

(** ** Facts about memory *)

Lemma splice_length o data blk :
  (o + length data <= length blk)%nat -> length (splice o data blk) = length blk.
Proof.
  intros H. unfold splice. rewrite !length_app, length_take, length_drop. lia.
Qed.

Lemma splice_take_below o data blk k :
  (k <= o)%nat -> (o <= length blk)%nat -> take k (splice o data blk) = take k blk.
Proof.
  intros Hk Ho. unfold splice.
  rewrite take_app_le by (rewrite length_take; lia).
  rewrite take_take. f_equal. lia.
Qed.

Lemma splice_take_upto o data blk :
  (o <= length blk)%nat ->
  take (o + length data) (splice o data blk) = take o blk ++ data.
Proof.
  intros Ho. unfold splice.
  rewrite app_assoc.
  rewrite take_app_le by (rewrite length_app, length_take; lia).
  apply take_ge. rewrite length_app, length_take. lia.
Qed.

Lemma mem_write_block m k o data blk :
  m !! k = Some blk -> 0 <= o ->
  o + Z.of_nat (length data) <= Z.of_nat (length blk) ->
  mem_write m (Some (k, o)) data = Some (<[k := splice (Z.to_nat o) data blk]> m).
Proof.
  intros Hk Ho Hb. unfold mem_write. destruct data as [|x data].
  - f_equal. symmetry. apply list_insert_id. rewrite Hk. f_equal.
    unfold splice. simpl. rewrite Nat.add_0_r. symmetry. apply take_drop.
  - rewrite Hk.
    replace ((0 <=? o) && (o + Z.of_nat (length (x :: data)) <=? Z.of_nat (length blk)))
      with true; [done|].
    symmetry. apply andb_true_intro. split; [apply Z.leb_le | apply Z.leb_le]; lia.
Qed.

Lemma mem_read_block m k n blk :
  m !! k = Some blk -> 0 <= n <= Z.of_nat (length blk) ->
  mem_read m (Some (k, 0)) n = Some (take (Z.to_nat n) blk).
Proof.
  intros Hk Hn. unfold mem_read. destruct (n =? 0) eqn:E.
  - apply Z.eqb_eq in E. subst. done.
  - rewrite Hk. simpl.
    replace ((0 <=? n) && (0 + n <=? Z.of_nat (length blk))) with true; [done|].
    symmetry. apply andb_true_intro. split; apply Z.leb_le; lia.
Qed.

Lemma mem_read_block' m k o n blk :
  m !! k = Some blk -> 0 <= o -> 0 <= n -> o + n <= Z.of_nat (length blk) ->
  mem_read m (Some (k, o)) n = Some (take (Z.to_nat n) (drop (Z.to_nat o) blk)).
Proof.
  intros Hk Ho Hn Hb. unfold mem_read. destruct (n =? 0) eqn:E.
  - apply Z.eqb_eq in E. subst. done.
  - rewrite Hk.
    replace ((0 <=? o) && (0 <=? n) && (o + n <=? Z.of_nat (length blk))) with true; [done|].
    symmetry. repeat (apply andb_true_intro; split); apply Z.leb_le; lia.
Qed.

(** ** Facts about the arrays *)

Lemma cap_at_lookup b i :
  (i < length (ob_capacity b))%nat -> ob_capacity b !! i = Some (cap_at b i).
Proof.
  intros H. unfold cap_at. destruct (lookup_lt_is_Some_2 _ _ H) as [c ->]. done.
Qed.

Lemma iov_at_lookup b i :
  (i < length (ob_iov b))%nat -> ob_iov b !! i = Some (iov_at b i).
Proof.
  intros H. unfold iov_at. destruct (lookup_lt_is_Some_2 _ _ H) as [c ->]. done.
Qed.

Lemma get_capacity_eq b i :
  (i < length (ob_capacity b))%nat -> get_capacity i b = Ret (cap_at b i) b.
Proof. intros H. unfold get_capacity. by rewrite cap_at_lookup. Qed.

Lemma get_iov_eq b i :
  (i < length (ob_iov b))%nat -> get_iov i b = Ret (iov_at b i) b.
Proof. intros H. unfold get_iov. by rewrite iov_at_lookup. Qed.

Lemma set_capacity_eq b i c :
  (i < length (ob_capacity b))%nat ->
  set_capacity i c b = Ret tt (with_capacity (<[i := c]> (ob_capacity b)) b).
Proof. intros H. unfold set_capacity. by rewrite cap_at_lookup. Qed.

Lemma set_iov_len_eq b i n :
  (i < length (ob_iov b))%nat ->
  set_iov_len i n b = Ret tt (with_iov (<[i := Iovec (base_at b i) n]> (ob_iov b)) b).
Proof. intros H. unfold set_iov_len. by rewrite iov_at_lookup. Qed.

Lemma set_iov_base_eq b i p :
  (i < length (ob_iov b))%nat ->
  set_iov_base i p b = Ret tt (with_iov (<[i := Iovec p (len_at b i)]> (ob_iov b)) b).
Proof. intros H. unfold set_iov_base. by rewrite iov_at_lookup. Qed.

Lemma cap_at_insert b l i c j :
  (i < length l)%nat ->
  cap_at (with_capacity (<[i := c]> l) b) j =
  if decide (i = j) then c else cap_at (with_capacity l b) j.
Proof.
  intros H. unfold cap_at. simpl. destruct (decide (i = j)) as [->|Hne].
  - by rewrite list_lookup_insert_eq.
  - by rewrite list_lookup_insert_ne.
Qed.

Lemma iov_at_insert b l i v j :
  (i < length l)%nat ->
  iov_at (with_iov (<[i := v]> l) b) j = if decide (i = j) then v else iov_at (with_iov l b) j.
Proof.
  intros H. unfold iov_at. simpl. destruct (decide (i = j)) as [->|Hne].
  - by rewrite list_lookup_insert_eq.
  - by rewrite list_lookup_insert_ne.
Qed.

(** ** Well-formed output buffers *)

Lemma content_upto_S b m :
  content_upto b (S m) = content_upto b m ++ seg_bytes b m.
Proof.
  unfold content_upto. rewrite seq_S, map_app, concat_app. simpl.
  by rewrite app_nil_r.
Qed.

Lemma content_upto_ext b b' m :
  (forall i, (i < m)%nat -> seg_bytes b' i = seg_bytes b i) ->
  content_upto b' m = content_upto b m.
Proof.
  induction m as [|m IH]; intros H; [done|].
  rewrite !content_upto_S, IH by (intros; apply H; lia).
  rewrite H by lia. done.
Qed.

Lemma seg_bytes_nonpos b i : len_at b i <= 0 -> seg_bytes b i = [].
Proof.
  intros H. unfold seg_bytes, mem_read.
  destruct (len_at b i =? 0) eqn:E0; [done|]. apply Z.eqb_neq in E0.
  destruct (base_at b i) as [[k o]|]; [|done].
  destruct (r_blocks (ob_pool b) !! k); [|done].
  replace (0 <=? len_at b i) with false by (symmetry; apply Z.leb_gt; lia).
  by rewrite andb_false_r.
Qed.

Lemma seg_bytes_len0 b i : len_at b i = 0 -> seg_bytes b i = [].
Proof. intros H. apply seg_bytes_nonpos. lia. Qed.

Lemma obuf_content_eq b :
  obuf_content b = content_upto b (ob_pos b) ++ seg_bytes b (ob_pos b).
Proof.
  unfold obuf_content, iovcnt.
  destruct (len_at b (ob_pos b) >? 0) eqn:E.
  - rewrite Nat.add_1_r. apply content_upto_S.
  - rewrite seg_bytes_nonpos, app_nil_r; [done|]. lia.
Qed.

Lemma seg_bytes_ok b i k blk :
  base_at b i = Some (k, 0) -> r_blocks (ob_pool b) !! k = Some blk ->
  0 <= len_at b i <= Z.of_nat (length blk) ->
  seg_bytes b i = take (Z.to_nat (len_at b i)) blk.
Proof.
  intros Hb Hk Hl. unfold seg_bytes. rewrite Hb.
  by rewrite (mem_read_block _ _ _ _ Hk Hl).
Qed.

Lemma seg_bytes_length b i :
  seg_ok b i -> Z.of_nat (length (seg_bytes b i)) = len_at b i.
Proof.
  intros [? ? ? ? (k & blk & Hb & Hk & Hl)].
  rewrite (seg_bytes_ok _ _ _ _ Hb Hk) by lia.
  rewrite length_take. lia.
Qed.

Lemma pow2_33_le i j : (i <= j)%nat -> cap_bound i <= cap_bound j.
Proof. intros H. unfold cap_bound. apply Z.pow_le_mono_r; lia. Qed.

Lemma cap_bound_S i : cap_bound (S i) = 2 * cap_bound i.
Proof.
  unfold cap_bound. replace (33 + Z.of_nat (S i)) with (Z.succ (33 + Z.of_nat i)) by lia.
  rewrite Z.pow_succ_r by lia. done.
Qed.

Lemma cap_bound_pos i : 0 < cap_bound i.
Proof. unfold cap_bound. apply Z.pow_pos_nonneg; lia. Qed.

Lemma cap_bound_max i : (i < IOBUF_IOV_MAX)%nat -> cap_bound i <= 2 ^ 64.
Proof.
  intros H. unfold cap_bound, IOBUF_IOV_MAX in *. apply Z.pow_le_mono_r; lia.
Qed.

Lemma cap_bound_seg i : (S i < IOBUF_IOV_MAX)%nat -> cap_bound i <= 2 ^ 63.
Proof.
  intros H. unfold cap_bound, IOBUF_IOV_MAX in *. apply Z.pow_le_mono_r; lia.
Qed.

Lemma sum_len_bound b n :
  (forall i, (i < n)%nat -> 0 <= len_at b i <= cap_bound i) ->
  0 <= sum_len b n < cap_bound n.
Proof.
  induction n as [|n IH]; intros H; simpl.
  - pose proof (cap_bound_pos 0). lia.
  - rewrite cap_bound_S. specialize (H n ltac:(lia)) as Hn.
    specialize (IH ltac:(intros; apply H; lia)). lia.
Qed.

Lemma sum_len_ext b b' n :
  (forall i, (i < n)%nat -> len_at b' i = len_at b i) -> sum_len b' n = sum_len b n.
Proof.
  induction n as [|n IH]; intros H; simpl; [done|].
  rewrite IH by (intros; apply H; lia). rewrite H by lia. done.
Qed.

Lemma sum_len_upd b b' n p d :
  (p < n)%nat -> len_at b' p = len_at b p + d ->
  (forall i, (i < n)%nat -> i <> p -> len_at b' i = len_at b i) ->
  sum_len b' n = sum_len b n + d.
Proof.
  induction n as [|n IH]; intros Hp Hl H; [lia|]. simpl.
  destruct (decide (p = n)) as [->|Hne].
  - rewrite Hl, (sum_len_ext b b') by (intros; apply H; lia). lia.
  - rewrite IH by (try lia; intros; apply H; lia). rewrite H by lia. lia.
Qed.

Lemma wf_size_bound n b : wf_at n b -> 0 <= ob_size b < cap_bound n.
Proof.
  intros W. rewrite (wf_size _ _ W). apply sum_len_bound.
  intros i Hi. destruct (wf_seg _ _ W i Hi). lia.
Qed.

Lemma wrap_small x : 0 <= x < 2 ^ 64 -> wrap x = x.
Proof. intros H. unfold wrap. by apply Z.mod_small. Qed.

Lemma wf_at_update n b b' :
  wf_at n b ->
  length (ob_capacity b') = IOBUF_IOV_MAX ->
  length (ob_iov b') = IOBUF_IOV_MAX ->
  (ob_pos b' <= n)%nat ->
  ob_alloc_factor b' = ob_alloc_factor b ->
  (forall i, (i <= n)%nat -> cap_at b' i = cap_at b i) ->
  (forall i, (i <= n)%nat -> base_at b' i = base_at b i) ->
  (forall i, (i < n)%nat -> 0 <= len_at b' i <= cap_at b i) ->
  len_at b' n = 0 ->
  (forall i, (ob_pos b' < i < n)%nat -> len_at b' i = 0) ->
  (forall k blk, r_blocks (ob_pool b) !! k = Some blk ->
     exists blk', r_blocks (ob_pool b') !! k = Some blk' /\ length blk' = length blk) ->
  ob_size b' = sum_len b' n ->
  wf_at n b'.
Proof.
  intros W Hlc Hli Hp Haf Hcap Hbase Hlen Hsent Htail Hpool Hsize.
  split; try done.
  - apply (wf_n _ _ W).
  - rewrite Haf. apply (wf_af _ _ W).
  - intros i Hi. destruct (wf_seg _ _ W i Hi) as [? ? ? ? (k & blk & Hb & Hk & Hl)].
    specialize (Hlen i Hi).
    split; rewrite ?Hcap by lia; try lia.
    destruct (Hpool _ _ Hk) as (blk' & Hk' & Hl').
    exists k, blk'. rewrite Hbase by lia. split_and!; try done. lia.
  - rewrite Hcap by lia. apply (wf_sent_cap _ _ W).
  - intros i j k o o' Hi Hj Hne. rewrite !Hbase by lia.
    by apply (wf_distinct _ _ W).
Qed.

(** ** Appending: how a buffer grows *)

Lemma seg_bytes_take_self b i :
  take (Z.to_nat (len_at b i)) (seg_bytes b i) = seg_bytes b i.
Proof.
  unfold seg_bytes, mem_read. destruct (len_at b i =? 0) eqn:E; [apply take_nil|].
  destruct (base_at b i) as [[k o]|]; [|apply take_nil].
  destruct (r_blocks (ob_pool b) !! k); [|apply take_nil].
  match goal with |- context [if ?c then _ else _] => destruct c end; simpl; [|apply take_nil].
  by rewrite take_take, Nat.min_id.
Qed.

Lemma grows_refl b : grows b [] b.
Proof.
  split; try done.
  - by rewrite app_nil_r.
  - simpl. lia.
  - intros. apply seg_bytes_take_self.
Qed.

Lemma grows_trans b d b' d' b'' :
  grows b d b' -> grows b' d' b'' -> grows b (d ++ d') b''.
Proof.
  intros [P1 F1 C1 S1 B1 L1 Y1] [P2 F2 C2 S2 B2 L2 Y2].
  assert (Hle : forall i, (i <= ob_pos b)%nat -> len_at b i <= len_at b' i).
  { intros i Hi. destruct (decide (i = ob_pos b)) as [->|]; [done|]. rewrite B1; lia. }
  split.
  - lia.
  - congruence.
  - by rewrite C2, C1, app_assoc.
  - rewrite S2, S1, length_app. lia.
  - intros i Hi. rewrite B2, B1; [done|lia..].
  - destruct (decide (ob_pos b = ob_pos b')) as [E|E].
    + rewrite E in *. lia.
    + rewrite B2 by lia. done.
  - intros i Hi. rewrite <- Y1 by done. rewrite <- (Y2 i) by lia.
    rewrite !take_take. f_equal. specialize (Hle i Hi). lia.
Qed.

(** ** Steps of the code on a well-formed buffer *)

Arguments wrap : simpl never.
Arguments cap_at : simpl never.
Arguments iov_at : simpl never.
Arguments len_at : simpl never.
Arguments base_at : simpl never.
Arguments seg_bytes : simpl never.

Lemma iov_at_with_pool r b i : iov_at (with_pool r b) i = iov_at b i.
Proof. done. Qed.
Lemma iov_at_with_size n b i : iov_at (with_size n b) i = iov_at b i.
Proof. done. Qed.
Lemma iov_at_with_pos p b i : iov_at (with_pos p b) i = iov_at b i.
Proof. done. Qed.
Lemma iov_at_with_capacity c b i : iov_at (with_capacity c b) i = iov_at b i.
Proof. done. Qed.
Lemma iov_at_with_iov b l i v j :
  (i < length l)%nat ->
  iov_at (with_iov (<[i := v]> l) b) j = if decide (i = j) then v else iov_at (with_iov l b) j.
Proof. apply iov_at_insert. Qed.
Lemma iov_at_with_iov_id b i : iov_at (with_iov (ob_iov b) b) i = iov_at b i.
Proof. done. Qed.
Lemma cap_at_with_pool r b i : cap_at (with_pool r b) i = cap_at b i.
Proof. done. Qed.
Lemma cap_at_with_size n b i : cap_at (with_size n b) i = cap_at b i.
Proof. done. Qed.
Lemma cap_at_with_pos p b i : cap_at (with_pos p b) i = cap_at b i.
Proof. done. Qed.
Lemma cap_at_with_iov v b i : cap_at (with_iov v b) i = cap_at b i.
Proof. done. Qed.
Lemma cap_at_with_capacity b l i c j :
  (i < length l)%nat ->
  cap_at (with_capacity (<[i := c]> l) b) j =
  if decide (i = j) then c else cap_at (with_capacity l b) j.
Proof. apply cap_at_insert. Qed.
Lemma cap_at_with_capacity_id b i : cap_at (with_capacity (ob_capacity b) b) i = cap_at b i.
Proof. done. Qed.

Lemma len_at_eq b i : len_at b i = iov_len (iov_at b i).
Proof. done. Qed.
Lemma base_at_eq b i : base_at b i = iov_base (iov_at b i).
Proof. done. Qed.

Create Rewrite HintDb obuf_acc.

#[global] Hint Rewrite iov_at_with_pool iov_at_with_size iov_at_with_pos iov_at_with_capacity
  iov_at_with_iov_id cap_at_with_pool cap_at_with_size cap_at_with_pos cap_at_with_iov
  cap_at_with_capacity_id : obuf_acc.

(** Rewrite the reads of a modified buffer into reads of the original. *)
Ltac len_solve := repeat (simpl; rewrite ?length_insert); lia.

Ltac acc :=
  rewrite ?len_at_eq, ?base_at_eq;
  repeat first
    [ progress autorewrite with obuf_acc
    | rewrite iov_at_with_iov by len_solve
    | rewrite cap_at_with_capacity by len_solve ];
  rewrite <- ?len_at_eq, <- ?base_at_eq.

(** One monadic step whose result is known. *)
Ltac mstep H := unfold bind at 1; rewrite H; cbv beta iota.
Ltac mgets := unfold bind at 1; unfold gets at 1; cbv beta iota.
Ltac mmodify := unfold bind at 1; unfold modify at 1; cbv beta iota.

Lemma memcpy_eq b kb o blk data cnt :
  r_blocks (ob_pool b) !! kb = Some blk ->
  0 <= cnt <= Z.of_nat (length data) -> 0 <= o ->
  o + cnt <= Z.of_nat (length blk) ->
  memcpy (Some (kb, o)) data cnt b =
  Ret tt (with_pool (Region (<[kb := splice (Z.to_nat o) (take (Z.to_nat cnt) data) blk]>
                               (r_blocks (ob_pool b)))) b).
Proof.
  intros Hk Hc Ho Hb. unfold memcpy.
  replace ((cnt <? 0) || (Z.of_nat (length data) <? cnt)) with false.
  2:{ symmetry. apply orb_false_intro; apply Z.ltb_ge; lia. }
  rewrite (mem_write_block _ _ _ _ _ Hk Ho); [done|].
  rewrite length_take. lia.
Qed.

Lemma memcpy_zero b p data :
  memcpy p data 0 b = Ret tt (with_pool (Region (r_blocks (ob_pool b))) b).
Proof.
  unfold memcpy.
  replace ((0 <? 0) || (Z.of_nat (length data) <? 0)) with false.
  2:{ symmetry. apply orb_false_intro; apply Z.ltb_ge; lia. }
  done.
Qed.

Lemma seg_bytes_frame b b' i :
  base_at b' i = base_at b i -> len_at b' i = len_at b i ->
  (forall k o, base_at b i = Some (k, o) ->
     r_blocks (ob_pool b') !! k = r_blocks (ob_pool b) !! k) ->
  seg_bytes b' i = seg_bytes b i.
Proof.
  intros Hb Hl Hm. unfold seg_bytes. rewrite Hb, Hl. unfold mem_read.
  destruct (len_at b i =? 0); [done|].
  destruct (base_at b i) as [[k o]|]; [|done].
  by rewrite (Hm k o).
Qed.

Lemma append_step {A} n b data cnt (k : M obuf A) :
  wf_at n b ->
  0 <= cnt <= Z.of_nat (length data) ->
  len_at b (ob_pos b) + cnt <= cap_at b (ob_pos b) ->
  exists b',
    (memcpy (ptr_add (base_at b (ob_pos b)) (len_at b (ob_pos b))) data cnt ;;;
     set_iov_len (ob_pos b) (wrap (len_at b (ob_pos b) + cnt)) ;;;
     sz <- gets ob_size ;;
     modify (with_size (wrap (sz + cnt))) ;;;
     k) b = k b' /\
    wf_at n b' /\
    grows b (take (Z.to_nat cnt) data) b' /\
    ob_pos b' = ob_pos b /\
    (forall i, cap_at b' i = cap_at b i) /\
    len_at b' (ob_pos b) = len_at b (ob_pos b) + cnt.
Proof.
  intros W Hcnt Hfit.
  pose proof (wf_liov _ _ W) as Hli. pose proof (wf_lcap _ _ W) as Hlc'.
  pose proof (wf_pos _ _ W) as Hpn. pose proof (wf_n _ _ W) as Hn.
  pose proof (wf_size_bound _ _ W) as Hsz.
  pose proof (cap_bound_max n Hn) as Hnb.
  set (p := ob_pos b) in *.
  assert (Hp32 : (p < length (ob_iov b))%nat) by (rewrite Hli; lia).
  destruct (decide (p < n)%nat) as [Hp|Hp].
  - destruct (wf_seg _ _ W p Hp) as [Hc0 Hcb Hl0 Hlc (kb & blk & Hb & Hk & Hl)].
    pose proof (cap_bound_seg p ltac:(lia)) as Hpb.
    rewrite Hb. simpl ptr_add.
    mstep (memcpy_eq b kb (0 + len_at b p) blk data cnt Hk Hcnt ltac:(lia) ltac:(lia)).
    set (d := take (Z.to_nat cnt) data).
    assert (Hd : Z.of_nat (length d) = cnt) by (unfold d; rewrite length_take; lia).
    set (b1 := with_pool _ b).
    mstep (set_iov_len_eq b1 p (wrap (len_at b p + cnt)) Hp32).
    set (b2 := with_iov _ b1).
    mgets. mmodify.
    set (b3 := with_size _ b2).
    assert (Hlen3 : forall i, len_at b3 i = if decide (p = i) then len_at b p + cnt else len_at b i).
    { intros i. unfold b3, b2, b1. acc. destruct (decide (p = i)) as [->|Hne]; [|done].
      simpl. apply wrap_small. lia. }
    assert (Hbase3 : forall i, base_at b3 i = base_at b i).
    { intros i. unfold b3, b2, b1. acc. destruct (decide (p = i)) as [->|Hne]; [|done].
      simpl. by acc. }
    assert (Hsum : sum_len b3 n = sum_len b n + cnt).
    { apply (sum_len_upd b b3 n p); [done| |].
      - rewrite Hlen3. by rewrite decide_True.
      - intros i _ Hne. rewrite Hlen3. by rewrite decide_False. }
    assert (Hsize3 : ob_size b3 = ob_size b + cnt).
    { simpl. apply wrap_small.
      assert (W3 : 0 <= sum_len b3 n < cap_bound n).
      { apply sum_len_bound. intros i Hi. rewrite Hlen3.
        destruct (wf_seg _ _ W i Hi). destruct (decide (p = i)) as [<-|]; lia. }
      rewrite (wf_size _ _ W). lia. }
    assert (W3 : wf_at n b3).
    { apply (wf_at_update n b); try done.
      - simpl. by rewrite length_insert.
      - intros i Hi. rewrite Hlen3. destruct (decide (p = i)) as [<-|].
        + lia.
        + destruct (wf_seg _ _ W i Hi). lia.
      - rewrite Hlen3, decide_False by lia. apply (wf_sent_len _ _ W).
      - intros i Hi. rewrite Hlen3, decide_False by (simpl in Hi; lia).
        apply (wf_tail _ _ W). simpl in Hi. fold p. lia.
      - intros k0 blk0 Hk0. simpl. destruct (decide (kb = k0)) as [<-|Hne].
        + rewrite list_lookup_insert_eq by (by apply lookup_lt_Some in Hk).
          eexists. split; [done|]. rewrite Hk in Hk0. injection Hk0 as <-.
          apply splice_length. unfold d in *. lia.
        + rewrite list_lookup_insert_ne by done. eauto.
      - rewrite Hsize3, Hsum, (wf_size _ _ W). done. }
    assert (Hseg_other : forall i, (i < n)%nat -> i <> p -> seg_bytes b3 i = seg_bytes b i).
    { intros i Hi Hne. apply seg_bytes_frame.
      - apply Hbase3.
      - rewrite Hlen3. by rewrite decide_False.
      - intros k0 o0 Hb0. simpl. rewrite list_lookup_insert_ne; [done|].
        intros <-. by apply (wf_distinct _ _ W i p kb o0 0). }
    assert (Hseg_p : seg_bytes b3 p = seg_bytes b p ++ d).
    { rewrite (seg_bytes_ok b p kb blk) by (try done; lia).
      rewrite (seg_bytes_ok b3 p kb (splice (Z.to_nat (0 + len_at b p)) d blk)).
      - rewrite Hlen3, decide_True by done.
        replace (Z.to_nat (len_at b p + cnt)) with (Z.to_nat (0 + len_at b p) + length d)%nat by lia.
        rewrite splice_take_upto by lia. repeat (f_equal; try lia).
      - by rewrite Hbase3.
      - simpl. apply list_lookup_insert_eq. by apply lookup_lt_Some in Hk.
      - rewrite Hlen3, decide_True by done. rewrite splice_length; lia. }
    exists b3. split_and!; try done.
    + split; try done.
      * rewrite !obuf_content_eq. change (ob_pos b3) with p. fold p.
        rewrite Hseg_p, app_assoc. rewrite (content_upto_ext b b3 p); [done|].
        intros i Hi. apply Hseg_other; lia.
      * rewrite Hsize3. lia.
      * intros i Hi. rewrite Hlen3. rewrite decide_False; [done|]. fold p in Hi. lia.
      * fold p. rewrite Hlen3, decide_True by done. lia.
      * intros i Hi. fold p in Hi. destruct (decide (i = p)) as [->|Hne].
        -- rewrite Hseg_p. rewrite take_app_le.
           ++ rewrite take_ge; [done|]. pose proof (seg_bytes_length b p (wf_seg _ _ W p Hp)). lia.
           ++ pose proof (seg_bytes_length b p (wf_seg _ _ W p Hp)). lia.
        -- rewrite Hseg_other by lia. 
           rewrite take_ge; [done|]. pose proof (seg_bytes_length b i (wf_seg _ _ W i ltac:(lia))). lia.
    + rewrite Hlen3. by rewrite decide_True.
  - assert (p = n) as Hpn' by lia.
    assert (Hc : cnt = 0).
    { pose proof (wf_sent_cap _ _ W). pose proof (wf_sent_len _ _ W). rewrite Hpn' in *. lia. }
    subst cnt.
    pose proof (wf_sent_len _ _ W) as Hl0. rewrite <- Hpn' in Hl0.
    mstep (memcpy_zero b (ptr_add (base_at b p) (len_at b p)) data).
    set (b1 := with_pool _ b).
    mstep (set_iov_len_eq b1 p (wrap (len_at b p + 0)) Hp32).
    mgets. mmodify.
    match goal with |- context [k ?s] => assert (Hsame : s = b) end.
    { unfold b1, with_size, with_iov, with_pool, base_at. simpl.
      rewrite Hl0. change (0 + 0) with 0. rewrite (wrap_small 0) by lia.
      rewrite Z.add_0_r, wrap_small by lia.
      change (iov_at _ p) with (iov_at b p).
      rewrite list_insert_id.
      - destruct b as [[m] ? ? ? ? ?]. done.
      - rewrite iov_at_lookup by done. f_equal.
        unfold len_at in Hl0. destruct (iov_at b p) as [bs ln]. simpl in *. by subst. }
    rewrite Hsame. exists b. split_and!; try done.
    + apply grows_refl.
    + lia.
Qed.

Lemma grow_capacity_spec fuel c size B :
  0 < c <= B -> 2 * size <= B -> B <= 2 ^ 63 -> size <= c * 2 ^ Z.of_nat fuel ->
  exists c', grow_capacity fuel c size = Some c' /\
             c <= c' <= B /\ size <= c' /\ (c' = c \/ c' < 2 * size).
Proof.
  revert c. induction fuel as [|fuel IH]; intros c Hc Hs HB Hf.
  - simpl in *. replace (c <? size) with false by (symmetry; apply Z.ltb_ge; lia).
    exists c. split_and!; try done; try lia; by left.
  - simpl. destruct (c <? size) eqn:E.
    + apply Z.ltb_lt in E.
      rewrite wrap_small by lia.
      destruct (IH (c * 2)) as (c' & Hg & Hb & Hs' & Hd); try lia.
      { rewrite Nat2Z.inj_succ, Z.pow_succ_r in Hf by lia. lia. }
      exists c'. split_and!; try done; try lia.
    + apply Z.ltb_ge in E. exists c. split_and!; try done; try lia; by left.
Qed.

Lemma grow_capacity_64 c size B :
  0 < c <= B -> 2 * size <= B -> B <= 2 ^ 63 ->
  exists c', grow_capacity 64 c size = Some c' /\
             c <= c' <= B /\ size <= c' /\ (c' = c \/ c' < 2 * size).
Proof.
  intros Hc Hs HB. apply grow_capacity_spec; try done.
  change (Z.of_nat 64) with 64. nia.
Qed.

Lemma assert_holds {S} nd (e : M S bool) s :
  e s = Ret true s -> assert_ nd e s = Ret tt s.
Proof. intros H. unfold assert_. destruct nd; [done|]. unfold bind. by rewrite H. Qed.

Lemma assert_ndebug {S} (e : M S bool) s : assert_ true e s = Ret tt s.
Proof. done. Qed.

Lemma assert_fails {S} (e : M S bool) s :
  e s = Ret false s -> assert_ false e s = Abort.
Proof. intros H. unfold assert_, bind. by rewrite H. Qed.

Lemma obuf_init_pos_spec b q :
  (q < IOBUF_IOV_MAX)%nat ->
  length (ob_capacity b) = IOBUF_IOV_MAX -> length (ob_iov b) = IOBUF_IOV_MAX ->
  exists b', obuf_init_pos q b = Ret tt b' /\
             slot_update b b' q 0 (Iovec NULL 0) /\ ob_pool b' = ob_pool b.
Proof.
  intros Hq Hlc Hli. unfold obuf_init_pos.
  rewrite decide_False by lia.
  mstep (set_iov_base_eq b q NULL ltac:(lia)). set (b1 := with_iov _ b).
  mstep (set_iov_len_eq b1 q 0 ltac:(unfold b1; simpl; rewrite length_insert; lia)).
  set (b2 := with_iov _ b1).
  rewrite (set_capacity_eq b2 q 0) by (simpl; lia).
  eexists. split; [done|]. split; [|done].
  split; try done.
  - simpl. by rewrite length_insert.
  - simpl. by rewrite !length_insert.
  - intros i. unfold b2, b1. acc. done.
  - intros i. unfold b2, b1. acc. destruct (decide (q = i)) as [->|]; [|done].
    simpl. acc. by rewrite decide_True.
Qed.

Lemma obuf_init_pos_max b q :
  (IOBUF_IOV_MAX <= q)%nat -> obuf_init_pos q b = Throw OutOfMemory b.
Proof. intros H. unfold obuf_init_pos. by rewrite decide_True. Qed.

Section AllocPos.
Variable NDEBUG : bool.
Variable region_admits : region -> Z -> bool.

Lemma obuf_alloc_pos_abort b p size :
  NDEBUG = false -> (p < length (ob_capacity b))%nat -> cap_at b p <> 0 ->
  obuf_alloc_pos NDEBUG region_admits p size b = Abort.
Proof.
  intros -> Hp Hc. unfold obuf_alloc_pos. unfold bind at 1.
  rewrite assert_fails; [done|].
  unfold bind. rewrite get_capacity_eq by done. unfold ret. f_equal.
  by apply Z.eqb_neq.
Qed.

Lemma obuf_alloc_pos_spec b p size c :
  length (ob_capacity b) = IOBUF_IOV_MAX -> length (ob_iov b) = IOBUF_IOV_MAX ->
  p = ob_pos b -> (p < IOBUF_IOV_MAX)%nat ->
  (NDEBUG = false -> cap_at b p = 0) -> len_at b p = 0 ->
  grow_capacity 64 (alloc_start b p) size = Some c ->
  obuf_alloc_pos NDEBUG region_admits p size b =
  if region_admits (ob_pool b) c then Ret tt (alloc_state b p c)
  else Throw OutOfMemory b.
Proof.
  intros Hlc Hli Hp Hp32 Hcap Hlen Hgrow. unfold obuf_alloc_pos.
  unfold bind at 1.
  assert (Ha : assert_ NDEBUG (c0 <- get_capacity p;; ret (c0 =? 0)) b = Ret tt b).
  { destruct NDEBUG; [done|]. apply assert_holds. unfold bind.
    rewrite get_capacity_eq by lia. rewrite Hcap by done. done. }
  rewrite Ha. cbv beta iota.
  assert (Hs : (match p with
                | O => gets ob_alloc_factor
                | S pos' => c0 <- get_capacity pos';; ret (wrap (c0 * 2))
                end) b = Ret (alloc_start b p) b).
  { destruct p as [|p']; [done|]. unfold bind. by rewrite get_capacity_eq by lia. }
  mstep Hs. rewrite Hgrow.
  unfold bind at 1. unfold region_alloc at 1.
  destruct (region_admits (ob_pool b) c) eqn:E; [|done].
  cbv beta iota.
  set (b1 := with_pool _ b).
  mstep (set_iov_base_eq b1 p (Some (length (r_blocks (ob_pool b)), 0)) ltac:(simpl; lia)).
  set (b2 := with_iov _ b1). mgets.
  change (ob_pos b2) with (ob_pos b). rewrite <- Hp.
  mstep (set_capacity_eq b2 p c ltac:(simpl; lia)).
  apply assert_holds. unfold bind. rewrite get_iov_eq by len_solve.
  unfold alloc_state. acc. rewrite decide_True by done. simpl. by rewrite Hlen.
Qed.

Lemma alloc_state_update b p c :
  length (ob_capacity b) = IOBUF_IOV_MAX -> length (ob_iov b) = IOBUF_IOV_MAX ->
  (p < IOBUF_IOV_MAX)%nat -> len_at b p = 0 ->
  slot_update b (alloc_state b p c) p c
    (Iovec (Some (length (r_blocks (ob_pool b)), 0)) 0) /\
  r_blocks (ob_pool (alloc_state b p c)) =
    r_blocks (ob_pool b) ++ [replicate (Z.to_nat c) x00].
Proof.
  intros Hlc Hli Hp Hlen. split; [|done]. unfold alloc_state. split; try done.
  - simpl. by rewrite length_insert.
  - simpl. by rewrite length_insert.
  - intros i. by acc.
  - intros i. acc. by rewrite Hlen.
Qed.

End AllocPos.

Lemma slot_update_len b b' q c v i :
  slot_update b b' q c v -> len_at b' i = if decide (q = i) then iov_len v else len_at b i.
Proof. intros U. rewrite !len_at_eq, (su_iov _ _ _ _ _ U). by destruct (decide (q = i)). Qed.

Lemma slot_update_base b b' q c v i :
  slot_update b b' q c v -> base_at b' i = if decide (q = i) then iov_base v else base_at b i.
Proof. intros U. rewrite !base_at_eq, (su_iov _ _ _ _ _ U). by destruct (decide (q = i)). Qed.

Lemma grows_slot_update n b b' q c v :
  wf_at n b -> slot_update b b' q c v -> (ob_pos b <= q)%nat ->
  (q = ob_pos b -> len_at b q = 0 /\ iov_len v = 0) ->
  (forall k blk, r_blocks (ob_pool b) !! k = Some blk ->
                 r_blocks (ob_pool b') !! k = Some blk) ->
  grows b [] b'.
Proof.
  intros W U Hq Hcur Hpool.
  assert (Hseg : forall i, (i < ob_pos b)%nat -> seg_bytes b' i = seg_bytes b i).
  { intros i Hi. apply seg_bytes_frame.
    - rewrite (slot_update_base _ _ _ _ _ _ U), decide_False by lia. done.
    - rewrite (slot_update_len _ _ _ _ _ _ U), decide_False by lia. done.
    - intros k o Hb.
      destruct (wf_seg _ _ W i ltac:(pose proof (wf_pos _ _ W); lia))
        as [_ _ _ _ (k' & blk & Hb' & Hk & _)].
      rewrite Hb in Hb'. injection Hb' as <- _.
      by rewrite Hk, (Hpool _ _ Hk). }
  assert (Hcurseg : seg_bytes b' (ob_pos b) = seg_bytes b (ob_pos b)).
  { destruct (decide (q = ob_pos b)) as [E|E].
    - destruct (Hcur E) as [H1 H2]. rewrite <- E.
      rewrite !seg_bytes_len0; try done.
      rewrite (slot_update_len _ _ _ _ _ _ U), decide_True by done. done.
    - destruct (decide (ob_pos b < n)%nat) as [Hp|Hp].
      + apply seg_bytes_frame.
        * rewrite (slot_update_base _ _ _ _ _ _ U), decide_False by lia. done.
        * rewrite (slot_update_len _ _ _ _ _ _ U), decide_False by lia. done.
        * intros k o Hb.
          destruct (wf_seg _ _ W _ Hp) as [_ _ _ _ (k' & blk & Hb' & Hk & _)].
          rewrite Hb in Hb'. injection Hb' as <- _.
          by rewrite Hk, (Hpool _ _ Hk).
      + assert (ob_pos b = n) as En by (pose proof (wf_pos _ _ W); lia).
        rewrite !seg_bytes_len0; try done.
        * rewrite En. apply (wf_sent_len _ _ W).
        * rewrite (slot_update_len _ _ _ _ _ _ U), decide_False by lia.
          rewrite En. apply (wf_sent_len _ _ W). }
  split.
  - rewrite (su_pos _ _ _ _ _ U). lia.
  - apply (su_af _ _ _ _ _ U).
  - rewrite !obuf_content_eq, (su_pos _ _ _ _ _ U), app_nil_r, Hcurseg.
    by rewrite (content_upto_ext b b' _ Hseg).
  - rewrite (su_size _ _ _ _ _ U). simpl. lia.
  - intros i Hi. rewrite (slot_update_len _ _ _ _ _ _ U), decide_False by lia. done.
  - rewrite (slot_update_len _ _ _ _ _ _ U).
    destruct (decide (q = ob_pos b)) as [E|E]; [|lia].
    destruct (Hcur E) as [H1 H2]. rewrite <- E. lia.
  - intros i Hi. destruct (decide (i = ob_pos b)) as [->|Hne].
    + rewrite Hcurseg. apply seg_bytes_take_self.
    + rewrite Hseg by lia. apply seg_bytes_take_self.
Qed.

Lemma wf_at_init n b b' :
  wf_at n b -> (S n < IOBUF_IOV_MAX)%nat ->
  slot_update b b' (S n) 0 (Iovec NULL 0) -> ob_pool b' = ob_pool b ->
  wf_at n b'.
Proof.
  intros W Hn U Hpool.
  pose proof (su_pos _ _ _ _ _ U) as Hpos.
  apply (wf_at_update n b); try done.
  - rewrite (su_lcap _ _ _ _ _ U). apply (wf_lcap _ _ W).
  - rewrite (su_liov _ _ _ _ _ U). apply (wf_liov _ _ W).
  - rewrite Hpos. apply (wf_pos _ _ W).
  - apply (su_af _ _ _ _ _ U).
  - intros i Hi. rewrite (su_cap _ _ _ _ _ U), decide_False by lia. done.
  - intros i Hi. rewrite (slot_update_base _ _ _ _ _ _ U), decide_False by lia. done.
  - intros i Hi. rewrite (slot_update_len _ _ _ _ _ _ U), decide_False by lia.
    destruct (wf_seg _ _ W i Hi). lia.
  - rewrite (slot_update_len _ _ _ _ _ _ U), decide_False by lia. apply (wf_sent_len _ _ W).
  - intros i Hi. rewrite (slot_update_len _ _ _ _ _ _ U), decide_False by lia.
    apply (wf_tail _ _ W). lia.
  - intros k blk Hk. rewrite Hpool. eauto.
  - rewrite (su_size _ _ _ _ _ U), (wf_size _ _ W). symmetry. apply sum_len_ext.
    intros i Hi. rewrite (slot_update_len _ _ _ _ _ _ U), decide_False by lia. done.
Qed.

Lemma wf_at_alloc n b b' p c :
  wf_at n b -> p = ob_pos b -> len_at b p = 0 ->
  (p = n -> (S n < IOBUF_IOV_MAX)%nat /\ cap_at b (S n) = 0 /\ len_at b (S n) = 0) ->
  0 < c <= cap_bound p ->
  slot_update b b' p c (Iovec (Some (length (r_blocks (ob_pool b)), 0)) 0) ->
  r_blocks (ob_pool b') = r_blocks (ob_pool b) ++ [replicate (Z.to_nat c) x00] ->
  wf_at (if decide (p = n) then S n else n) b'.
Proof.
  intros W Hp Hlen Hnext Hc U Hpool.
  pose proof (su_pos _ _ _ _ _ U) as Hpos.
  pose proof (wf_pos _ _ W) as Hpn.
  set (n' := if decide (p = n) then S n else n).
  assert (Hn' : (n <= n')%nat) by (unfold n'; destruct (decide (p = n)); lia).
  assert (Hpn' : (p < n')%nat) by (unfold n'; destruct (decide (p = n)); lia).
  assert (Hold : forall i, (i < n')%nat -> i <> p -> (i < n)%nat).
  { unfold n'. intros i Hi Hne. destruct (decide (p = n)); lia. }
  assert (Hlook : forall k blk, r_blocks (ob_pool b) !! k = Some blk ->
                                r_blocks (ob_pool b') !! k = Some blk).
  { intros k blk Hk. rewrite Hpool. by apply lookup_app_l_Some. }
  split.
  - rewrite (su_lcap _ _ _ _ _ U). apply (wf_lcap _ _ W).
  - rewrite (su_liov _ _ _ _ _ U). apply (wf_liov _ _ W).
  - lia.
  - unfold n'. destruct (decide (p = n)) as [E|E]; [by apply Hnext | apply (wf_n _ _ W)].
  - rewrite (su_af _ _ _ _ _ U). apply (wf_af _ _ W).
  - intros i Hi. destruct (decide (p = i)) as [<-|Hne].
    + split.
      * rewrite (su_cap _ _ _ _ _ U), decide_True by done. lia.
      * rewrite (su_cap _ _ _ _ _ U), decide_True by done. lia.
      * rewrite (slot_update_len _ _ _ _ _ _ U), decide_True by done. simpl. lia.
      * rewrite (slot_update_len _ _ _ _ _ _ U), (su_cap _ _ _ _ _ U), !decide_True by done.
        simpl. lia.
      * exists (length (r_blocks (ob_pool b))), (replicate (Z.to_nat c) x00).
        rewrite (slot_update_base _ _ _ _ _ _ U), (su_cap _ _ _ _ _ U), !decide_True by done.
        split_and!; [done| |rewrite length_replicate; lia].
        rewrite Hpool. rewrite lookup_app_r by lia. by rewrite Nat.sub_diag.
    + destruct (wf_seg _ _ W i (Hold i Hi ltac:(done))) as [? ? ? ? (k & blk & Hb & Hk & Hl)].
      split; rewrite ?(slot_update_len _ _ _ _ _ _ U), ?(su_cap _ _ _ _ _ U), ?decide_False by done;
        try done.
      exists k, blk. rewrite (slot_update_base _ _ _ _ _ _ U), decide_False by done.
      split_and!; try done. by apply Hlook.
  - rewrite (su_cap _ _ _ _ _ U). unfold n'. destruct (decide (p = n)) as [E|E].
    + rewrite decide_False by lia. by apply Hnext.
    + rewrite decide_False by done. apply (wf_sent_cap _ _ W).
  - rewrite (slot_update_len _ _ _ _ _ _ U). unfold n'. destruct (decide (p = n)) as [E|E].
    + rewrite decide_False by lia. by apply Hnext.
    + rewrite decide_False by done. apply (wf_sent_len _ _ W).
  - intros i Hi. rewrite Hpos, <- Hp in Hi.
    rewrite (slot_update_len _ _ _ _ _ _ U), decide_False by lia.
    apply (wf_tail _ _ W). rewrite <- Hp. split; [lia|]. apply Hold; lia.
  - intros i j k o o' Hi Hj Hne.
    rewrite !(slot_update_base _ _ _ _ _ _ U).
    assert (Hfresh : forall i0 k0 o0, (i0 < n)%nat -> base_at b i0 = Some (k0, o0) ->
                       (k0 < length (r_blocks (ob_pool b)))%nat).
    { intros i0 k0 o0 Hi0 Hb0.
      destruct (wf_seg _ _ W i0 Hi0) as [_ _ _ _ (k' & blk & Hb' & Hk & _)].
      rewrite Hb0 in Hb'. injection Hb' as <- _. by apply lookup_lt_Some in Hk. }
    destruct (decide (p = i)) as [<-|Hi']; destruct (decide (p = j)) as [<-|Hj']; try done.
    + simpl. intros [= <- <-] Hb. apply (Hfresh j _ _ (Hold j Hj ltac:(done))) in Hb. lia.
    + simpl. intros Hb [= <- <-]. apply (Hfresh i _ _ (Hold i Hi ltac:(done))) in Hb. lia.
    + apply (wf_distinct _ _ W); try done; apply Hold; done.
  - rewrite (su_size _ _ _ _ _ U), (wf_size _ _ W).
    assert (Hext : sum_len b' n = sum_len b n).
    { apply sum_len_ext. intros i Hi. rewrite (slot_update_len _ _ _ _ _ _ U).
      destruct (decide (p = i)) as [<-|]; [simpl; lia|done]. }
    unfold n'. destruct (decide (p = n)) as [E|E]; [|done].
    simpl. rewrite Hext, (slot_update_len _ _ _ _ _ _ U), decide_True by done. simpl. lia.
Qed.

(** ** The loop of [obuf_dup] *)

Lemma sum_cap_lt b i n :
  (i < n)%nat -> sum_cap b i n = cap_at b i + sum_cap b (S i) n.
Proof.
  intros H. unfold sum_cap. replace (n - i)%nat with (S (n - S i)) by lia. done.
Qed.

Lemma sum_cap_ge b i n : (n <= i)%nat -> sum_cap b i n = 0.
Proof. intros H. unfold sum_cap. by replace (n - i)%nat with O by lia. Qed.

Lemma sum_cap_ext b b' i n :
  (forall j, (i <= j < n)%nat -> cap_at b' j = cap_at b j) ->
  sum_cap b' i n = sum_cap b i n.
Proof.
  unfold sum_cap. remember (n - i)%nat as k eqn:Hk. revert i Hk.
  induction k as [|k IH]; intros i Hk H; [done|]. simpl.
  rewrite H by lia. f_equal. apply IH; [lia|]. intros j Hj. apply H. lia.
Qed.

Lemma sum_cap_nonneg n b i : wf_at n b -> 0 <= sum_cap b i n.
Proof.
  intros W. unfold sum_cap. remember (n - i)%nat as k eqn:Hk. revert i Hk.
  induction k as [|k IH]; intros i Hk; [done|]. simpl.
  destruct (wf_seg _ _ W i ltac:(lia)). specialize (IH (S i) ltac:(lia)). lia.
Qed.

Lemma seg_bytes_with_pos q b i : seg_bytes (with_pos q b) i = seg_bytes b i.
Proof. done. Qed.

Lemma wf_next_len n b :
  wf_at n b -> (ob_pos b < n)%nat -> len_at b (S (ob_pos b)) = 0.
Proof.
  intros W Hp. destruct (decide (S (ob_pos b) = n)) as [<-|Hne].
  - apply (wf_sent_len _ _ W).
  - apply (wf_tail _ _ W). lia.
Qed.

Lemma advance_wf n b :
  wf_at n b -> (ob_pos b < n)%nat -> wf_at n (with_pos (ob_pos b + 1) b).
Proof.
  intros W Hp. apply (wf_at_update n b); try done; try apply W.
  - simpl. lia.
  - intros i Hi. change (len_at (with_pos _ b)) with (len_at b).
    destruct (wf_seg _ _ W i Hi). lia.
  - intros i Hi. simpl in Hi. apply (wf_tail _ _ W). lia.
  - eauto.
  - simpl. rewrite (wf_size _ _ W). by apply sum_len_ext.
Qed.

Lemma advance_grows n b :
  wf_at n b -> (ob_pos b < n)%nat -> grows b [] (with_pos (ob_pos b + 1) b).
Proof.
  intros W Hp. split; try done.
  - simpl. lia.
  - rewrite !obuf_content_eq. simpl ob_pos. rewrite Nat.add_1_r, app_nil_r.
    rewrite (content_upto_ext b (with_pos (S (ob_pos b)) b)) by done.
    rewrite content_upto_S, seg_bytes_with_pos.
    rewrite (seg_bytes_len0 b (S (ob_pos b))) by (by apply (wf_next_len n)).
    by rewrite app_nil_r.
  - simpl. lia.
  - intros i Hi. rewrite seg_bytes_with_pos. apply seg_bytes_take_self.
Qed.

Lemma advance_room n b :
  wf_at n b -> (ob_pos b < n)%nat ->
  room (with_pos (ob_pos b + 1) b) n =
  room b n - (cap_at b (ob_pos b) - len_at b (ob_pos b)).
Proof.
  intros W Hp. unfold room. simpl ob_pos.
  change (len_at (with_pos _ b)) with (len_at b).
  rewrite Nat.add_1_r, (wf_next_len n b W Hp).
  rewrite (sum_cap_lt b (ob_pos b)) by done.
  rewrite (sum_cap_ext b (with_pos (S (ob_pos b)) b)) by done. lia.
Qed.

Section DupLoop.
Variable NDEBUG : bool.
Variable region_admits : region -> Z -> bool.

Lemma bind_assoc {S A B C} (m : M S A) (f : A -> M S B) (g : B -> M S C) s :
  bind (bind m f) g s = bind m (fun a => bind (f a) g) s.
Proof. unfold bind. by destruct (m s). Qed.

Lemma materialize_spec n b size :
  wf_at n b -> ob_pos b = n -> 0 <= size <= REQ_MAX ->
  materialized region_admits n b size
    ((obuf_init_pos (n + 1) ;;; obuf_alloc_pos NDEBUG region_admits n size) b).
Proof.
  intros W Hp Hsize.
  pose proof (wf_liov _ _ W) as Hli. pose proof (wf_lcap _ _ W) as Hlc.
  pose proof (wf_n _ _ W) as Hn. rewrite Nat.add_1_r.
  destruct (decide (S n = IOBUF_IOV_MAX)) as [Hmax|Hmax].
  { unfold bind. rewrite obuf_init_pos_max by lia. by apply mat_cap. }
  assert (Hn1 : (S n < IOBUF_IOV_MAX)%nat) by lia.
  destruct (obuf_init_pos_spec b (S n) Hn1 Hlc Hli) as (b1 & Heq & U1 & Hpool1).
  mstep Heq.
  assert (W1 : wf_at n b1) by (by apply (wf_at_init n b)).
  assert (G1 : grows b [] b1).
  { apply (grows_slot_update n b b1 (S n) 0 (Iovec NULL 0)); try done; try lia.
    intros k blk Hk. by rewrite Hpool1. }
  pose proof (cap_bound_seg n Hn1) as Hb63.
  assert (Hb33 : 2 ^ 33 <= cap_bound n).
  { unfold cap_bound. apply Z.pow_le_mono_r; lia. }
  assert (Hstart : 0 < alloc_start b1 n <= cap_bound n).
  { unfold alloc_start. destruct n as [|n'].
    - rewrite (su_af _ _ _ _ _ U1). pose proof (wf_af _ _ W). unfold REQ_MAX in *. lia.
    - rewrite (su_cap _ _ _ _ _ U1), decide_False by lia.
      destruct (wf_seg _ _ W n' ltac:(lia)).
      rewrite cap_bound_S in *. rewrite wrap_small; lia. }
  destruct (grow_capacity_64 (alloc_start b1 n) size (cap_bound n)) as (c & Hg & Hc1 & Hc2 & _);
    [done|unfold REQ_MAX in *; lia|done|].
  assert (Hlen1 : len_at b1 n = 0).
  { rewrite (slot_update_len _ _ _ _ _ _ U1), decide_False by lia. apply (wf_sent_len _ _ W). }
  assert (Hcap1 : cap_at b1 n = 0).
  { rewrite (su_cap _ _ _ _ _ U1), decide_False by lia. apply (wf_sent_cap _ _ W). }
  rewrite (obuf_alloc_pos_spec NDEBUG region_admits b1 n size c); try done.
  - destruct (region_admits (ob_pool b1) c) eqn:E.
    + destruct (alloc_state_update b1 n c) as [U2 Hpool2]; try done.
      * apply (wf_lcap _ _ W1).
      * apply (wf_liov _ _ W1).
      * pose proof (wf_at_alloc n b1 (alloc_state b1 n c) n c W1) as W2.
        rewrite decide_True in W2 by done.
        apply mat_ok; try done.
        -- apply W2; try done.
           ++ by rewrite (su_pos _ _ _ _ _ U1).
           ++ intros _. split_and!; [done| |].
              ** rewrite (su_cap _ _ _ _ _ U1), decide_True by done. done.
              ** rewrite (slot_update_len _ _ _ _ _ _ U1), decide_True by done. done.
           ++ lia.
        -- rewrite <- (app_nil_l []). apply (grows_trans _ _ b1); [done|].
           eapply (grows_slot_update n b1); try done.
           ++ rewrite (su_pos _ _ _ _ _ U1). lia.
           ++ intros k blk Hk. rewrite Hpool2. by apply lookup_app_l_Some.
        -- by rewrite (su_pos _ _ _ _ _ U2), (su_pos _ _ _ _ _ U1).
        -- rewrite (slot_update_len _ _ _ _ _ _ U2), decide_True by done. done.
        -- rewrite (su_cap _ _ _ _ _ U2), decide_True by done. done.
    + by apply (mat_oom _ _ _ _ b1 (ob_pool b1) c).
  - apply (wf_lcap _ _ W1).
  - apply (wf_liov _ _ W1).
  - by rewrite (su_pos _ _ _ _ _ U1).
Qed.

Lemma obuf_dup_loop_eq fuel data :
  obuf_dup_loop NDEBUG region_admits fuel data =
  (let size := Z.of_nat (length data) in
   pos <- gets ob_pos ;;
   iov <- get_iov pos ;;
   capacity <- get_capacity pos ;;
   if wrap (iov_len iov + size) >? capacity then
     match fuel with
     | O => diverge
     | S fuel' =>
         let next (data : list byte) : M obuf (list byte) :=
           assert_ NDEBUG (v <- get_iov pos ;; ret (capacity =? iov_len v)) ;;;
           modify (with_pos (pos + 1)) ;;;
           assert_ NDEBUG (p <- gets ob_pos ;; ret (bool_decide (p < IOBUF_IOV_MAX)%nat)) ;;;
           obuf_dup_loop NDEBUG region_admits fuel' data in
         if iov_len iov <? capacity then
           let fill := wrap (capacity - iov_len iov) in
           assert_ NDEBUG (ret (fill <? size)) ;;;
           memcpy (ptr_add (iov_base iov) (iov_len iov)) data fill ;;;
           set_iov_len pos (wrap (iov_len iov + fill)) ;;;
           sz <- gets ob_size ;;
           modify (with_size (wrap (sz + fill))) ;;;
           next (drop (Z.to_nat fill) data)
         else if capacity =? 0 then
           obuf_init_pos (pos + 1) ;;;
           obuf_alloc_pos NDEBUG region_admits pos size ;;;
           ret data
         else next data
     end
   else ret data).
Proof. by destruct fuel. Qed.

Lemma dup_next_eq {A} n b (K : M obuf A) :
  wf_at n b -> (ob_pos b < n)%nat -> len_at b (ob_pos b) = cap_at b (ob_pos b) ->
  (assert_ NDEBUG (v <- get_iov (ob_pos b) ;; ret (cap_at b (ob_pos b) =? iov_len v)) ;;;
   modify (with_pos (ob_pos b + 1)) ;;;
   assert_ NDEBUG (p <- gets ob_pos ;; ret (bool_decide (p < IOBUF_IOV_MAX)%nat)) ;;;
   K) b = K (with_pos (ob_pos b + 1) b).
Proof.
  intros W Hp Hfull.
  pose proof (wf_liov _ _ W) as Hli. pose proof (wf_n _ _ W) as Hn.
  unfold bind at 1. rewrite assert_holds.
  2:{ unfold bind. rewrite get_iov_eq by lia. unfold ret. f_equal.
      apply Z.eqb_eq. by rewrite <- len_at_eq. }
  mmodify. unfold bind at 1. rewrite assert_holds; [done|].
  unfold bind, gets, ret. simpl. f_equal. apply bool_decide_eq_true. lia.
Qed.

Lemma dup_loop_spec fuel : forall n b data,
  wf_at n b -> Z.of_nat (length data) <= REQ_MAX ->
  (n - ob_pos b < fuel)%nat ->
  dup_loop_post region_admits n b data (obuf_dup_loop NDEBUG region_admits fuel data b).
Proof.
  induction fuel as [|fuel IH]; intros n b data W Hdata Hfuel; [lia|].
  pose proof (wf_liov _ _ W) as Hli. pose proof (wf_lcap _ _ W) as Hlc.
  pose proof (wf_pos _ _ W) as Hpn. pose proof (wf_n _ _ W) as Hn.
  rewrite obuf_dup_loop_eq. cbv zeta.
  mgets. mstep (get_iov_eq b (ob_pos b) ltac:(lia)).
  mstep (get_capacity_eq b (ob_pos b) ltac:(lia)).
  rewrite <- ?len_at_eq, <- ?base_at_eq.
  set (p := ob_pos b) in *. set (size := Z.of_nat (length data)) in *.
  assert (Hseg : 0 <= len_at b p <= cap_at b p /\ cap_at b p <= 2 ^ 63 /\
                 ((p < n)%nat -> 0 < cap_at b p) /\ (p = n -> cap_at b p = 0)).
  { destruct (decide (p < n)%nat) as [Hp|Hp].
    - destruct (wf_seg _ _ W p Hp). pose proof (cap_bound_seg p ltac:(lia)).
      split_and!; try lia.
    - assert (p = n) as -> by lia.
      rewrite (wf_sent_cap _ _ W), (wf_sent_len _ _ W). split_and!; try lia. }
  destruct Hseg as (Hlen & Hcap63 & Hcappos & Hcap0).
  assert (Hsize : 0 <= size <= 2 ^ 32) by (unfold REQ_MAX in Hdata; lia).
  rewrite (wrap_small (len_at b p + size)) by lia.
  pose proof (sum_cap_nonneg n b (S p) W) as Hnn.
  destruct (len_at b p + size >? cap_at b p) eqn:Econd.
  2:{ (* the data fits *)
    rewrite Z.gtb_ltb in Econd. apply Z.ltb_ge in Econd. simpl.
    exists n, []. split_and!; try done.
    - apply grows_refl.
    - left. split; [|done]. unfold room. fold p size.
      destruct (decide (p < n)%nat) as [Hp|Hp].
      + rewrite sum_cap_lt by done. lia.
      + rewrite Hcap0 in Econd by lia. rewrite sum_cap_ge by lia. lia. }
  rewrite Z.gtb_ltb in Econd. apply Z.ltb_lt in Econd.
  destruct (len_at b p <? cap_at b p) eqn:Elt.
  - (* fill the current segment *)
    apply Z.ltb_lt in Elt.
    assert (Hp : (p < n)%nat).
    { destruct (decide (p < n)%nat); [done|]. rewrite Hcap0 in Elt by lia. lia. }
    set (fill := cap_at b p - len_at b p).
    rewrite (wrap_small fill) by (unfold fill; lia).
    unfold bind at 1. rewrite assert_holds.
    2:{ unfold ret. f_equal. apply Z.ltb_lt. unfold fill. lia. }
    destruct (append_step n b data fill
      (assert_ NDEBUG (v <- get_iov p ;; ret (cap_at b p =? iov_len v)) ;;;
       modify (with_pos (p + 1)) ;;;
       assert_ NDEBUG (q <- gets ob_pos ;; ret (bool_decide (q < IOBUF_IOV_MAX)%nat)) ;;;
       obuf_dup_loop NDEBUG region_admits fuel (drop (Z.to_nat fill) data)) W)
      as (b1 & Heq & W1 & G1 & Hpos1 & Hcap1 & Hlen1).
    { unfold fill. fold size. lia. }
    { fold p. unfold fill. lia. }
    fold p in Heq, Hlen1, Hpos1. rewrite Heq. clear Heq.
    rewrite <- Hpos1, <- (Hcap1 (ob_pos b1)).
    rewrite (dup_next_eq n b1); [|done|lia|rewrite Hpos1, Hlen1, Hcap1; unfold fill; lia].
    set (b2 := with_pos (ob_pos b1 + 1) b1).
    assert (W2 : wf_at n b2) by (apply advance_wf; [done|lia]).
    assert (G2 : grows b1 [] b2) by (apply (advance_grows n); [done|lia]).
    assert (R2 : room b2 n = room b n - fill).
    { unfold b2. rewrite (advance_room n) by (try done; lia).
      rewrite Hpos1, Hlen1, Hcap1. unfold room. fold p.
      rewrite (sum_cap_ext b b1) by (intros; apply Hcap1).
      rewrite Hpos1. unfold fill. lia. }
    set (data' := drop (Z.to_nat fill) data).
    assert (Hd' : Z.of_nat (length data') = size - fill).
    { unfold data'. rewrite length_drop. unfold fill in *. lia. }
    specialize (IH n b2 data' W2 ltac:(unfold REQ_MAX in *; lia) ltac:(simpl; lia)).
    destruct (obuf_dup_loop NDEBUG region_admits fuel data' b2) as [rest b'|e b'| | |];
      simpl in *; try done.
    + destruct IH as (n' & d & Hd & W' & G' & Hfit & Hroom).
      exists n', (take (Z.to_nat fill) data ++ d). split_and!; try done.
      * rewrite <- app_assoc, <- Hd. unfold data'. by rewrite take_drop.
      * apply (grows_trans _ _ b1); [done|].
        rewrite <- (app_nil_l d). by apply (grows_trans _ _ b2).
      * fold size. lia.
    + destruct IH as (-> & Hroom & d & rest & Hd & W' & G' & Hwhy).
      split_and!; [done|fold size; lia|].
      exists (take (Z.to_nat fill) data ++ d), rest. split_and!; try done.
      * rewrite <- app_assoc, <- Hd. unfold data'. by rewrite take_drop.
      * apply (grows_trans _ _ b1); [done|].
        rewrite <- (app_nil_l d). by apply (grows_trans _ _ b2).
  - apply Z.ltb_ge in Elt.
    destruct (cap_at b p =? 0) eqn:E0.
    + (* the end marker: a new segment *)
      apply Z.eqb_eq in E0.
      assert (Hp : p = n).
      { destruct (decide (p < n)%nat) as [Hp|]; [|lia]. specialize (Hcappos Hp). lia. }
      assert (Hl0 : len_at b p = 0) by lia.
      assert (Hroom : room b n < size).
      { unfold room. fold p. rewrite sum_cap_ge by lia. lia. }
      rewrite <- bind_assoc. rewrite Hp.
      pose proof (materialize_spec n b size W Hp Hsize) as HM.
      unfold bind at 1. fold size.
      inversion HM as [Hmax Ho | b1 r c Hlt W1 G1 Hadm Ho | b' Hlt W' G' Hpos' Hlen' Hcap' Ho];
        simpl.
      * split_and!; [done|done|]. exists [], data. split_and!; try done.
        -- apply grows_refl.
        -- by left.
      * split_and!; [done|done|]. exists [], data. split_and!; try done.
        right. eauto.
      * exists (S n), []. split_and!; try done.
        -- rewrite Hpos', Hlen'. fold size. lia.
        -- by right.
    + (* a full segment: move on *)
      apply Z.eqb_neq in E0.
      assert (Hp : (p < n)%nat).
      { destruct (decide (p < n)%nat); [done|]. rewrite Hcap0 in E0 by lia. lia. }
      rewrite (dup_next_eq n b); [|done|done|fold p; lia].
      fold p.
      set (b2 := with_pos (p + 1) b).
      assert (W2 : wf_at n b2) by (apply advance_wf; [done|lia]).
      assert (G2 : grows b [] b2) by (apply (advance_grows n); [done|lia]).
      assert (R2 : room b2 n = room b n).
      { unfold b2, p. rewrite (advance_room n) by (try done; lia). fold p. lia. }
      specialize (IH n b2 data W2 Hdata ltac:(simpl; lia)).
      destruct (obuf_dup_loop NDEBUG region_admits fuel data b2) as [rest b'|e b'| | |];
        simpl in *; try done.
      * destruct IH as (n' & d & Hd & W' & G' & Hfit & Hroom).
        exists n', d. split_and!; try done.
        -- rewrite <- (app_nil_l d). by apply (grows_trans _ _ b2).
        -- fold size. lia.
      * destruct IH as (-> & Hroom & d & rest & Hd & W' & G' & Hwhy).
        split_and!; [done|fold size; lia|].
        exists d, rest. split_and!; try done.
        rewrite <- (app_nil_l d). by apply (grows_trans _ _ b2).
Qed.

End DupLoop.

(** ** [obuf_dup] on a well-formed buffer *)

Lemma wf_len_le_cap n b i : wf_at n b -> (i <= n)%nat -> 0 <= len_at b i <= cap_at b i.
Proof.
  intros W Hi. destruct (decide (i < n)%nat) as [Hlt|Hlt].
  - destruct (wf_seg _ _ W i Hlt). lia.
  - assert (i = n) as -> by lia. rewrite (wf_sent_cap _ _ W), (wf_sent_len _ _ W). lia.
Qed.

Section Dup.
Variable NDEBUG : bool.
Variable region_admits : region -> Z -> bool.

Lemma obuf_dup_spec n b data :
  wf_at n b -> Z.of_nat (length data) <= REQ_MAX ->
  dup_post region_admits n b data (obuf_dup NDEBUG region_admits data b).
Proof.
  intros W Hdata. unfold obuf_dup. unfold bind at 1.
  pose proof (dup_loop_spec NDEBUG region_admits IOBUF_IOV_MAX n b data W Hdata
                ltac:(pose proof (wf_n _ _ W); lia)) as HL.
  destruct (obuf_dup_loop NDEBUG region_admits IOBUF_IOV_MAX data b)
    as [rest b1|e b1| | |]; simpl in HL; try done.
  destruct HL as (n' & d & Hd & W1 & G1 & Hfit & Hroom).
  pose proof (wf_liov _ _ W1) as Hli. pose proof (wf_pos _ _ W1) as Hpn.
  pose proof (wf_n _ _ W1) as Hn. cbv zeta.
  mgets. mstep (get_iov_eq b1 (ob_pos b1) ltac:(lia)).
  rewrite <- ?len_at_eq, <- ?base_at_eq.
  destruct (append_step n' b1 rest (Z.of_nat (length rest))
     (assert_ NDEBUG (p <- gets ob_pos ;; v <- get_iov p ;; c <- get_capacity p ;;
                      ret (iov_len v <=? c))) W1)
    as (b2 & Heq & W2 & G2 & Hpos2 & Hcap2 & Hlen2); [lia|done|].
  rewrite Heq. rewrite assert_holds.
  - simpl. exists n'. split_and!; try done.
    rewrite Hd. apply (grows_trans _ _ b1); [done|].
    rewrite Nat2Z.id, take_ge in G2 by lia. done.
  - mgets. rewrite Hpos2.
    mstep (get_iov_eq b2 (ob_pos b1) ltac:(rewrite (wf_liov _ _ W2); lia)).
    mstep (get_capacity_eq b2 (ob_pos b1) ltac:(rewrite (wf_lcap _ _ W2); lia)).
    unfold ret. f_equal. apply Z.leb_le. rewrite <- len_at_eq.
    apply (wf_len_le_cap n'); [done|lia].
Qed.

End Dup.

(** ** [obuf_reserve_slow] on a well-formed buffer *)

Section Reserve.
Variable NDEBUG : bool.
Variable region_admits : region -> Z -> bool.

Lemma grows_nil_trans b b' b'' : grows b [] b' -> grows b' [] b'' -> grows b [] b''.
Proof. intros G1 G2. rewrite <- (app_nil_l []). by apply (grows_trans _ _ b'). Qed.

Lemma alloc_start_bound n b p :
  wf_at n b -> (p <= n)%nat -> (S p < IOBUF_IOV_MAX)%nat ->
  0 < alloc_start b p <= cap_bound p.
Proof.
  intros W Hp Hp32. unfold alloc_start. destruct p as [|p'].
  - pose proof (wf_af _ _ W). change (cap_bound 0) with (2 ^ 33). unfold REQ_MAX in *. lia.
  - destruct (wf_seg _ _ W p' ltac:(lia)).
    pose proof (cap_bound_seg (S p') Hp32) as Hb.
    rewrite cap_bound_S in *. rewrite wrap_small; lia.
Qed.

Lemma obuf_reserve_slow_spec n b size :
  wf_at n b -> 0 <= size <= REQ_MAX ->
  reserve_slow_post NDEBUG region_admits n b size (obuf_reserve_slow NDEBUG region_admits size b).
Proof.
  intros W Hsize.
  pose proof (wf_liov _ _ W) as Hli. pose proof (wf_lcap _ _ W) as Hlc.
  pose proof (wf_pos _ _ W) as Hpn. pose proof (wf_n _ _ W) as Hn.
  unfold obuf_reserve_slow.
  mgets. mstep (get_iov_eq b (ob_pos b) ltac:(lia)).
  mstep (get_capacity_eq b (ob_pos b) ltac:(lia)).
  rewrite <- ?len_at_eq.
  (* the first part: move to the next buffer *)
  set (b1 := if len_at b (ob_pos b) >? 0 then with_pos (ob_pos b + 1) b else b).
  assert (Hfirst :
    (if len_at b (ob_pos b) >? 0
     then modify (with_pos (ob_pos b + 1)) ;;;
          assert_ NDEBUG (p <- gets ob_pos ;; ret (bool_decide (p < IOBUF_IOV_MAX)%nat)) ;;;
          iov <- get_iov (ob_pos b + 1) ;;
          capacity <- get_capacity (ob_pos b + 1) ;;
          ret (iov, capacity)
     else ret (iov_at b (ob_pos b), cap_at b (ob_pos b))) b
    = Ret (iov_at b1 (ob_pos b1), cap_at b1 (ob_pos b1)) b1 /\
    wf_at n b1 /\ grows b [] b1 /\ ob_pos b1 = slow_slot b /\ len_at b1 (ob_pos b1) = 0 /\
    (forall i, iov_at b1 i = iov_at b i) /\ (forall i, cap_at b1 i = cap_at b i)).
  { unfold slow_slot, b1. destruct (len_at b (ob_pos b) >? 0) eqn:E.
    - rewrite Z.gtb_ltb in E. apply Z.ltb_lt in E.
      assert (Hp : (ob_pos b < n)%nat).
      { destruct (decide (ob_pos b < n)%nat); [done|].
        assert (ob_pos b = n) as Hpe by lia. rewrite Hpe, (wf_sent_len _ _ W) in E. lia. }
      split_and!; try done.
      + mmodify. unfold bind at 1. rewrite assert_holds.
        2:{ unfold bind, gets, ret. simpl. f_equal. apply bool_decide_eq_true. lia. }
        mstep (get_iov_eq (with_pos (ob_pos b + 1) b) (ob_pos b + 1) ltac:(simpl; lia)).
        mstep (get_capacity_eq (with_pos (ob_pos b + 1) b) (ob_pos b + 1) ltac:(simpl; lia)).
        done.
      + by apply advance_wf.
      + by apply (advance_grows n).
      + simpl. lia.
      + simpl ob_pos. rewrite Nat.add_1_r. change (len_at (with_pos _ b)) with (len_at b).
        by apply (wf_next_len n).
    - rewrite Z.gtb_ltb in E. apply Z.ltb_ge in E.
      split_and!; try done.
      + apply grows_refl.
      + pose proof (wf_len_le_cap n b (ob_pos b) W Hpn). lia. }
  destruct Hfirst as (Heq & W1 & G1 & Hpos1 & Hlen1 & Hiov1 & Hcap1).
  mstep Heq. clear Heq. cbv zeta. simpl fst. simpl snd.
  rewrite <- ?len_at_eq.
  unfold bind at 1. rewrite assert_holds.
  2:{ unfold ret. f_equal. apply Z.eqb_eq. done. }
  mgets.
  pose proof (wf_len_le_cap n b1 (ob_pos b1) W1 (wf_pos _ _ W1)) as Hlc1.
  set (p := ob_pos b1) in *.
  assert (Hp32 : (p < IOBUF_IOV_MAX)%nat) by (pose proof (wf_pos _ _ W1); unfold p; lia).
  (* the tail of the function, on a buffer whose current slot can take [size] *)
  assert (Htail : forall n' b', wf_at n' b' -> ob_pos b' = p -> len_at b' p = 0 ->
     size <= cap_at b' p ->
     (assert_ NDEBUG (q <- gets ob_pos ;; v <- get_iov q ;; c <- get_capacity q ;;
                      ret (wrap (iov_len v + size) <=? c)) ;;;
      pos <- gets ob_pos ;; v <- get_iov pos ;;
      ret (ptr_add (iov_base v) (iov_len v))) b'
     = Ret (ptr_add (base_at b' p) 0) b').
  { intros n' b' W' Hpos' Hlen' Hcap'.
    pose proof (wf_liov _ _ W'). pose proof (wf_lcap _ _ W').
    unfold bind at 1. rewrite assert_holds.
    - mgets. rewrite Hpos'. mstep (get_iov_eq b' p ltac:(lia)).
      rewrite <- ?len_at_eq, <- ?base_at_eq. by rewrite Hlen'.
    - mgets. rewrite Hpos'. mstep (get_iov_eq b' p ltac:(lia)).
      mstep (get_capacity_eq b' p ltac:(lia)). rewrite <- ?len_at_eq, Hlen'.
      unfold ret. f_equal. apply Z.leb_le. rewrite wrap_small; unfold REQ_MAX in *; lia. }
  assert (Hkeep : forall b', grows b1 [] b' -> len_at b' p = 0 ->
            forall i, (i <= ob_pos b)%nat -> len_at b' i = len_at b i).
  { intros b' G' Hl' i Hi. rewrite (len_at_eq b i), <- (Hiov1 i), <- len_at_eq.
    assert (Hle : (ob_pos b <= p)%nat) by (pose proof (g_pos _ _ _ G1); unfold p; lia).
    destruct (decide (i = p)) as [->|Hne]; [by rewrite Hl', Hlen1|].
    apply (g_len_below _ _ _ G'). fold p. lia. }
  destruct (cap_at b1 p =? 0) eqn:E0.
  - (* the end marker *)
    apply Z.eqb_eq in E0.
    assert (Hpn1 : p = n).
    { destruct (decide (p < n)%nat) as [Hlt|]; [|pose proof (wf_pos _ _ W1); unfold p in *; lia].
      destruct (wf_seg _ _ W1 p Hlt). lia. }
    rewrite Hpn1.
    pose proof (materialize_spec NDEBUG region_admits n b1 size W1 ltac:(by rewrite <- Hpn1) Hsize)
      as HM.
    unfold bind at 1.
    inversion HM as [Hmax Ho | b2 r c Hlt W2 G2 Hadm Ho | b' Hlt W' G' Hpos' Hlen' Hcap' Ho]; simpl.
    + split_and!; try done.
      * intros i Hi. by rewrite len_at_eq, Hiov1.
      * left. split; [|done]. rewrite <- Hpos1. done.
      * left. by rewrite <- Hpos1, <- Hcap1.
    + split_and!; try done.
      * by apply (grows_nil_trans _ b1).
      * apply Hkeep; [done|]. rewrite Hpn1. apply (wf_sent_len _ _ W2).
      * right; eauto.
      * left. by rewrite <- Hpos1, <- Hcap1.
    + rewrite <- Hpn1 in *. rewrite (Htail (S p) b' W' Hpos' Hlen' Hcap'). simpl.
      exists (S p). rewrite Hpos'. split_and!; try done.
      * by apply (grows_nil_trans _ b1).
      * by right.
      * by apply Hkeep.
      * left. by rewrite <- Hpos1, <- Hcap1.
  - apply Z.eqb_neq in E0.
    assert (Hlt : (p < n)%nat).
    { destruct (decide (p < n)%nat) as [Hlt|]; [done|].
      assert (p = n) as Hpe by (pose proof (wf_pos _ _ W1); unfold p in *; lia).
      rewrite Hpe, (wf_sent_cap _ _ W1) in E0. done. }
    destruct (size >? cap_at b1 p) eqn:Egt.
    + (* "Simply realloc." *)
      rewrite Z.gtb_ltb in Egt. apply Z.ltb_lt in Egt.
      destruct NDEBUG eqn:End.
      * pose proof (alloc_start_bound n b1 p W1 ltac:(lia) ltac:(lia)) as Hstart.
        pose proof (cap_bound_seg p ltac:(lia)) as Hb63.
        assert (Hb33 : 2 ^ 33 <= cap_bound p).
        { unfold cap_bound. apply Z.pow_le_mono_r; lia. }
        destruct (grow_capacity_64 (alloc_start b1 p) size (cap_bound p))
          as (c & Hg & Hc1 & Hc2 & _); [done|unfold REQ_MAX in *; lia|done|].
        unfold bind at 1.
        rewrite (obuf_alloc_pos_spec true region_admits b1 p size c); try done;
          try apply W1.
        destruct (region_admits (ob_pool b1) c) eqn:E.
        -- destruct (alloc_state_update b1 p c) as [U2 Hpool2]; try done; try apply W1.
           pose proof (wf_at_alloc n b1 (alloc_state b1 p c) p c W1) as W2.
           rewrite decide_False in W2 by lia.
           assert (G2 : grows b1 [] (alloc_state b1 p c)).
           { eapply (grows_slot_update n b1); try done.
             intros k blk Hk. rewrite Hpool2. by apply lookup_app_l_Some. }
           assert (Hl2 : len_at (alloc_state b1 p c) p = 0).
           { rewrite (slot_update_len _ _ _ _ _ _ U2), decide_True by done. done. }
           rewrite (Htail n (alloc_state b1 p c)); try done.
           ++ simpl. exists n. change (ob_pos (alloc_state b1 p c)) with p.
              split_and!; try done.
              ** apply W2; try done; lia.
              ** by apply (grows_nil_trans _ b1).
              ** by left.
              ** rewrite (su_cap _ _ _ _ _ U2), decide_True by done. done.
              ** by apply Hkeep.
              ** by right; right.
           ++ apply W2; try done; lia.
           ++ rewrite (su_cap _ _ _ _ _ U2), decide_True by done. done.
        -- simpl. split_and!; try done.
           ++ intros i Hi. by rewrite len_at_eq, Hiov1.
           ++ right; eauto.
           ++ by right.
      * unfold bind at 1. rewrite obuf_alloc_pos_abort; try done; [|rewrite (wf_lcap _ _ W1); lia].
        simpl. rewrite <- Hpos1, <- Hcap1. fold p. split_and!; try done. lia.
    + rewrite Z.gtb_ltb in Egt. apply Z.ltb_ge in Egt.
      unfold bind at 1. unfold ret at 1. cbv beta iota.
      rewrite (Htail n b1 W1 eq_refl Hlen1 Egt). simpl.
      exists n. split_and!; try done; [by left| |].
      * intros i Hi. by rewrite len_at_eq, Hiov1.
      * right; left. by rewrite <- Hpos1, <- Hcap1.
Qed.

End Reserve.

(** ** [obuf_alloc] and [obuf_reserve] on a well-formed buffer *)

Section Alloc.
Variable NDEBUG : bool.
Variable region_admits : region -> Z -> bool.

Lemma obuf_alloc_eq size b :
  obuf_alloc NDEBUG region_admits size b =
  (pos <- gets ob_pos ;;
   v <- get_iov pos ;;
   c <- get_capacity pos ;;
   (if wrap (iov_len v + size) >? c
    then _ <- obuf_reserve_slow NDEBUG region_admits size ;; ret tt
    else ret tt) ;;;
   obuf_alloc_tail NDEBUG size) b.
Proof. done. Qed.

(** Bumping the length first and storing the bytes afterwards ends in
    the state of storing first and bumping afterwards. *)
Lemma alloc_tail_store n b data :
  wf_at n b ->
  len_at b (ob_pos b) + Z.of_nat (length data) <= cap_at b (ob_pos b) ->
  exists b2 b3,
    obuf_alloc_tail NDEBUG (Z.of_nat (length data)) b =
      (if negb NDEBUG && (len_at b (ob_pos b) + Z.of_nat (length data) =? cap_at b (ob_pos b))
       then Abort
       else Ret (ptr_add (base_at b (ob_pos b)) (len_at b (ob_pos b))) b2) /\
    obuf_store (ptr_add (base_at b (ob_pos b)) (len_at b (ob_pos b))) data b2 = Ret tt b3 /\
    wf_at n b3 /\ grows b data b3 /\ ob_pos b3 = ob_pos b /\
    ob_size b2 = ob_size b + Z.of_nat (length data) /\
    (forall i, cap_at b3 i = cap_at b i) /\
    len_at b3 (ob_pos b) = len_at b (ob_pos b) + Z.of_nat (length data) /\
    ob_pool b2 = ob_pool b.
Proof.
  intros W Hfit.
  pose proof (wf_liov _ _ W) as Hli. pose proof (wf_lcap _ _ W) as Hlc.
  pose proof (wf_pos _ _ W) as Hpn. pose proof (wf_n _ _ W) as Hn.
  pose proof (wf_len_le_cap n b (ob_pos b) W Hpn) as Hlen.
  pose proof (wf_size_bound _ _ W) as Hsz.
  destruct (append_step n b data (Z.of_nat (length data)) (ret tt) W ltac:(lia) Hfit)
    as (b' & Heq & W' & G' & Hpos' & Hcap' & Hlen').
  rewrite Nat2Z.id, take_ge in G' by lia.
  set (p := ob_pos b) in *. set (size := Z.of_nat (length data)) in *.
  set (b2 := with_size (wrap (ob_size b + size))
               (with_iov (<[p := Iovec (base_at b p) (wrap (len_at b p + size))]> (ob_iov b)) b)).
  assert (Hb3 : obuf_store (ptr_add (base_at b p) (len_at b p)) data b2 = Ret tt b').
  { etrans; [|exact Heq]. unfold obuf_store. fold size. unfold bind, memcpy.
    change (r_blocks (ob_pool b2)) with (r_blocks (ob_pool b)).
    destruct ((size <? 0) || (Z.of_nat (length data) <? size)); [done|].
    destruct (mem_write _ _ _) as [m|]; [|done].
    unfold set_iov_len. simpl. rewrite iov_at_lookup by lia.
    unfold gets, modify, ret. done. }
  exists b2, b'. split_and!; try done.
  - unfold obuf_alloc_tail. mgets. fold p. mstep (get_iov_eq b p ltac:(lia)).
    cbv zeta. rewrite <- ?len_at_eq, <- ?base_at_eq.
    mstep (set_iov_len_eq b p (wrap (len_at b p + size)) ltac:(lia)).
    mgets. mmodify. simpl ob_size. fold b2.
    assert (Hl2 : len_at b2 p = len_at b p + size).
    { unfold b2. acc. rewrite decide_True by done. simpl. apply wrap_small.
      pose proof (cap_bound_max p ltac:(lia)).
      destruct (decide (p < n)%nat) as [Hp|Hp].
      - destruct (wf_seg _ _ W p Hp). pose proof (cap_bound_seg p ltac:(lia)). lia.
      - assert (p = n) as Hpe by lia. rewrite Hpe, (wf_sent_cap _ _ W) in *. lia. }
    assert (Hc2 : cap_at b2 p = cap_at b p) by done.
    unfold bind at 1.
    assert (Hchk : (q <- gets ob_pos;; v <- get_iov q;; c <- get_capacity q;;
                    ret (iov_len v <? c)) b2 = Ret (len_at b p + size <? cap_at b p) b2).
    { mgets. change (ob_pos b2) with p.
      mstep (get_iov_eq b2 p ltac:(unfold b2; len_solve)).
      mstep (get_capacity_eq b2 p ltac:(unfold b2; len_solve)).
      rewrite <- len_at_eq, Hl2, Hc2. done. }
    destruct NDEBUG; simpl.
    + done.
    + unfold assert_. unfold bind at 1. rewrite Hchk. cbv beta iota.
      destruct (len_at b p + size =? cap_at b p) eqn:Ee.
      * apply Z.eqb_eq in Ee. rewrite Ee, Z.ltb_irrefl. done.
      * apply Z.eqb_neq in Ee.
        replace (len_at b p + size <? cap_at b p) with true; [done|].
        symmetry. apply Z.ltb_lt. lia.
  - unfold b2. simpl. apply wrap_small.
    pose proof (g_size _ _ _ G'). pose proof (wf_size_bound _ _ W').
    pose proof (cap_bound_max n Hn). fold size in H. lia.
Qed.

End Alloc.

Section Alloc2.
Variable NDEBUG : bool.
Variable region_admits : region -> Z -> bool.

Lemma obuf_alloc_store_spec n b data :
  wf_at n b -> Z.of_nat (length data) <= REQ_MAX ->
  append_post NDEBUG region_admits n b data (obuf_alloc_store NDEBUG region_admits data b).
Proof.
  intros W Hdata.
  pose proof (wf_liov _ _ W) as Hli. pose proof (wf_lcap _ _ W) as Hlc.
  pose proof (wf_pos _ _ W) as Hpn. pose proof (wf_n _ _ W) as Hn.
  pose proof (wf_len_le_cap n b (ob_pos b) W Hpn) as Hlen.
  unfold obuf_alloc_store. unfold bind at 1. rewrite obuf_alloc_eq.
  set (size := Z.of_nat (length data)) in *.
  mgets. mstep (get_iov_eq b (ob_pos b) ltac:(lia)).
  mstep (get_capacity_eq b (ob_pos b) ltac:(lia)).
  rewrite <- ?len_at_eq.
  assert (Hc63 : cap_at b (ob_pos b) <= 2 ^ 63).
  { destruct (decide (ob_pos b < n)%nat) as [Hp|Hp].
    - destruct (wf_seg _ _ W _ Hp). pose proof (cap_bound_seg (ob_pos b) ltac:(lia)). lia.
    - assert (ob_pos b = n) as Hpe by lia. rewrite Hpe, (wf_sent_cap _ _ W). lia. }
  rewrite wrap_small by (unfold REQ_MAX in *; lia).
  destruct (len_at b (ob_pos b) + size >? cap_at b (ob_pos b)) eqn:E.
  - unfold bind at 1. unfold bind at 1.
    pose proof (obuf_reserve_slow_spec NDEBUG region_admits n b size W ltac:(lia)) as HR.
    destruct (obuf_reserve_slow NDEBUG region_admits size b) as [p1 b1|e b1| | |];
      simpl in HR; try done.
    + destruct HR as (n' & W1 & G1 & Hn' & Hpos1 & Hlen1 & Hcap1 & _ & _ & _).
      unfold ret at 1. cbv beta iota.
      destruct (alloc_tail_store NDEBUG n' b1 data W1 ltac:(fold size; lia))
        as (b2 & b3 & Htail & Hstore & W3 & G3 & _).
      fold size in Htail. rewrite Htail.
      destruct (negb NDEBUG && (len_at b1 (ob_pos b1) + size =? cap_at b1 (ob_pos b1))) eqn:Eab.
      * simpl. apply andb_prop in Eab as [Hnd _]. by destruct NDEBUG.
      * cbv beta iota. rewrite Hstore. simpl. exists n'. split_and!; try done.
        rewrite <- (app_nil_l data). by apply (grows_trans _ _ b1).
    + destruct HR as (-> & W1 & G1 & _ & Hwhy & _). simpl. split; [done|].
      exists []. split_and!; try done. destruct Hwhy as [[_ ?]|?]; eauto.
    + by destruct HR as [-> _].
  - rewrite Z.gtb_ltb in E. apply Z.ltb_ge in E.
    unfold bind at 1. unfold ret at 1. cbv beta iota.
    destruct (alloc_tail_store NDEBUG n b data W ltac:(fold size; lia))
      as (b2 & b3 & Htail & Hstore & W3 & G3 & _).
    fold size in Htail. rewrite Htail.
    destruct (negb NDEBUG && (len_at b (ob_pos b) + size =? cap_at b (ob_pos b))) eqn:Eab.
    + simpl. apply andb_prop in Eab as [Hnd _]. by destruct NDEBUG.
    + cbv beta iota. rewrite Hstore. simpl. exists n. split_and!; try done. by left.
Qed.

Lemma obuf_reserve_spec n b size :
  wf_at n b -> 0 <= size <= REQ_MAX ->
  reserve_post NDEBUG region_admits n b size (obuf_reserve NDEBUG region_admits size b).
Proof.
  intros W Hsize.
  pose proof (wf_liov _ _ W) as Hli. pose proof (wf_lcap _ _ W) as Hlc.
  pose proof (wf_pos _ _ W) as Hpn. pose proof (wf_n _ _ W) as Hn.
  pose proof (wf_len_le_cap n b (ob_pos b) W Hpn) as Hlen.
  unfold obuf_reserve.
  mgets. mstep (get_iov_eq b (ob_pos b) ltac:(lia)).
  mstep (get_capacity_eq b (ob_pos b) ltac:(lia)).
  rewrite <- ?len_at_eq, <- ?base_at_eq.
  assert (Hc63 : cap_at b (ob_pos b) <= 2 ^ 63).
  { destruct (decide (ob_pos b < n)%nat) as [Hp|Hp].
    - destruct (wf_seg _ _ W _ Hp). pose proof (cap_bound_seg (ob_pos b) ltac:(lia)). lia.
    - assert (ob_pos b = n) as Hpe by lia. rewrite Hpe, (wf_sent_cap _ _ W). lia. }
  rewrite wrap_small by (unfold REQ_MAX in *; lia).
  destruct (len_at b (ob_pos b) + size >? cap_at b (ob_pos b)) eqn:E.
  - pose proof (obuf_reserve_slow_spec NDEBUG region_admits n b size W Hsize) as HR.
    destruct (obuf_reserve_slow NDEBUG region_admits size b) as [p1 b1|e b1| | |];
      simpl in *; try done.
    + destruct HR as (n' & W1 & G1 & Hn' & Hpos1 & Hlen1 & Hcap1 & Hp1 & Hkeep & _).
      exists n'. split_and!; try done; [lia|by rewrite Hlen1].
    + destruct HR as (? & ? & ? & ? & ? & _). done.
  - rewrite Z.gtb_ltb in E. apply Z.ltb_ge in E. simpl.
    exists n. split_and!; try done; [apply grows_refl|by left].
Qed.

End Alloc2.

(** ** Savepoints and rollback *)

Lemma zero_iov_lens_spec k : forall from b,
  (from + k <= length (ob_iov b))%nat ->
  exists b', zero_iov_lens from (from + k) b = Ret tt b' /\ lens_zeroed from k b b'.
Proof.
  unfold zero_iov_lens.
  induction k as [|k IH]; intros from b Hle.
  - replace (from + 0 - from)%nat with O by lia. simpl. exists b. split; [done|].
    split; try done. intros i. rewrite decide_False by lia. done.
  - replace (from + S k - from)%nat with (S k) by lia. simpl.
    mstep (set_iov_len_eq b from 0 ltac:(lia)). set (b1 := with_iov _ b).
    destruct (IH (S from) b1) as (b' & Heq & Z).
    { unfold b1. simpl. rewrite length_insert. lia. }
    replace (S from + k - S from)%nat with k in Heq by lia.
    exists b'. split; [done|]. destruct Z as [? ? ? ? ? Hl Hi]. split; try done.
    + rewrite Hl. unfold b1. simpl. by rewrite length_insert.
    + intros i. rewrite Hi. unfold b1.
      destruct (decide (S from <= i < S from + k)%nat) as [H1|H1].
      * rewrite decide_True by lia. f_equal. acc. rewrite decide_False by lia. done.
      * acc. destruct (decide (from = i)) as [<-|Hne].
        -- by rewrite decide_True by lia.
        -- by rewrite decide_False by lia.
Qed.

Lemma sum_len_tail b q n :
  (q < n)%nat -> (forall i, (q < i < n)%nat -> len_at b i = 0) ->
  sum_len b n = sum_len b q + len_at b q.
Proof.
  intros Hq Hz. induction n as [|n IH]; [lia|].
  destruct (decide (q = n)) as [->|Hne]; [done|].
  simpl. rewrite IH by (try lia; intros; apply Hz; lia).
  rewrite (Hz n) by lia. lia.
Qed.

Lemma obuf_iovcnt_eq b :
  (ob_pos b < length (ob_iov b))%nat -> obuf_iovcnt b = Ret (iovcnt b) b.
Proof.
  intros H. unfold obuf_iovcnt. mgets. mstep (get_iov_eq b (ob_pos b) H). done.
Qed.

Lemma obuf_create_svp_eq b :
  (ob_pos b < length (ob_iov b))%nat ->
  obuf_create_svp b = Ret (ObufSvp (ob_pos b) (len_at b (ob_pos b)) (ob_size b)) b.
Proof.
  intros H. unfold obuf_create_svp. mgets. mstep (get_iov_eq b (ob_pos b) H). done.
Qed.

Lemma obuf_rollback_spec n b svp :
  wf_at n b -> (svp_pos svp <= ob_pos b)%nat ->
  0 <= svp_iov_len svp <= len_at b (svp_pos svp) ->
  svp_size svp = sum_len b (svp_pos svp) + svp_iov_len svp ->
  exists b', obuf_rollback_to_svp svp b = Ret tt b' /\ wf_at n b' /\
    ob_pos b' = svp_pos svp /\ ob_size b' = svp_size svp /\
    ob_pool b' = ob_pool b /\
    (forall i, cap_at b' i = cap_at b i) /\
    (forall i, (i <= svp_pos svp)%nat -> base_at b' i = base_at b i) /\
    (forall i, (i < svp_pos svp)%nat -> len_at b' i = len_at b i) /\
    len_at b' (svp_pos svp) = svp_iov_len svp.
Proof.
  intros W Hq Hl Hs. destruct svp as [q l s]. simpl in *.
  pose proof (wf_liov _ _ W) as Hli. pose proof (wf_lcap _ _ W) as Hlc.
  pose proof (wf_pos _ _ W) as Hpn. pose proof (wf_n _ _ W) as Hn.
  unfold obuf_rollback_to_svp. simpl.
  mstep (obuf_iovcnt_eq b ltac:(lia)). mmodify. mgets. simpl ob_pos.
  mstep (set_iov_len_eq (with_pos q b) q l ltac:(simpl; lia)).
  set (b1 := with_iov _ _). mmodify. mgets. simpl ob_pos.
  set (b2 := with_size s b1).
  assert (Hcnt : (q + 1 + (iovcnt b - (q + 1)) <= length (ob_iov b2))%nat).
  { unfold b2, b1, iovcnt. simpl. rewrite length_insert.
    destruct (len_at b (ob_pos b) >? 0); lia. }
  destruct (zero_iov_lens_spec (iovcnt b - (q + 1)) (q + 1) b2 Hcnt) as (b' & Heq & Z).
  assert (Hto : zero_iov_lens (q + 1) (iovcnt b) b2 = Ret tt b').
  { destruct (decide (q + 1 <= iovcnt b)%nat) as [Hle|Hle].
    - replace (q + 1 + (iovcnt b - (q + 1)))%nat with (iovcnt b) in Heq by lia. done.
    - unfold zero_iov_lens in *.
      replace (q + 1 + (iovcnt b - (q + 1)) - (q + 1))%nat with O in Heq by lia.
      replace (iovcnt b - (q + 1))%nat with O by lia. done. }
  exists b'. split; [done|].
  destruct Z as [Zpool Zsize Zpos Zaf Zcap Zliov Ziov].
  assert (Hiov' : forall i, iov_at b' i =
     if decide (q + 1 <= i < iovcnt b)%nat then Iovec (base_at b i) 0
     else if decide (q = i) then Iovec (base_at b q) l else iov_at b i).
  { intros i. rewrite Ziov. unfold b2, b1.
    destruct (decide (q + 1 <= i < q + 1 + (iovcnt b - (q + 1)))%nat) as [H1|H1].
    - rewrite decide_True by lia. f_equal. acc. rewrite decide_False by lia. done.
    - rewrite decide_False by lia. acc. done. }
  assert (Hlen' : forall i, len_at b' i =
     if decide (q + 1 <= i < iovcnt b)%nat then 0
     else if decide (q = i) then l else len_at b i).
  { intros i. rewrite len_at_eq, Hiov'. by repeat destruct (decide _). }
  assert (Hbase' : forall i, base_at b' i = base_at b i).
  { intros i. rewrite base_at_eq, Hiov'. repeat destruct (decide _); try done. by subst. }
  assert (Hcap' : forall i, cap_at b' i = cap_at b i).
  { intros i. unfold cap_at. by rewrite Zcap. }
  assert (Hic : (iovcnt b <= S (ob_pos b))%nat /\ (ob_pos b <= iovcnt b)%nat /\
                (iovcnt b = ob_pos b -> len_at b (ob_pos b) = 0)).
  { unfold iovcnt. destruct (len_at b (ob_pos b) >? 0) eqn:E; split_and!; try lia.
    intros _. rewrite Z.gtb_ltb in E. apply Z.ltb_ge in E.
    pose proof (wf_len_le_cap n b _ W Hpn). lia. }
  destruct Hic as (Hic1 & Hic2 & Hic3).
  assert (Htail' : forall i, (q < i <= n)%nat -> len_at b' i = 0).
  { intros i Hi. rewrite Hlen'. destruct (decide (q + 1 <= i < iovcnt b)%nat); [done|].
    rewrite decide_False by lia.
    destruct (decide (i = ob_pos b)) as [->|Hne]; [apply Hic3; lia|].
    destruct (decide (i = n)) as [->|Hne']; [apply (wf_sent_len _ _ W)|].
    apply (wf_tail _ _ W). lia. }
  assert (Hlq : len_at b' q = l).
  { rewrite Hlen', decide_False by lia. by rewrite decide_True. }
  assert (Hlow : forall i, (i < q)%nat -> len_at b' i = len_at b i).
  { intros i Hi. rewrite Hlen', !decide_False by lia. done. }
  split_and!; try done.
  - apply (wf_at_update n b); try done.
    + by rewrite Zcap.
    + rewrite Zliov. unfold b2, b1. simpl. by rewrite length_insert.
    + rewrite Zpos. simpl. lia.
    + intros i Hi. destruct (decide (i < q)%nat) as [H1|H1].
      * rewrite Hlow by done. destruct (wf_seg _ _ W i Hi). lia.
      * destruct (decide (i = q)) as [->|H2].
        -- rewrite Hlq. destruct (wf_seg _ _ W q Hi). lia.
        -- rewrite Htail' by lia. destruct (wf_seg _ _ W i Hi). lia.
    + destruct (decide (q = n)) as [->|Hne].
      * rewrite Hlq. rewrite (wf_sent_len _ _ W) in Hl. lia.
      * apply Htail'. lia.
    + intros i Hi. rewrite Zpos in Hi. simpl in Hi. apply Htail'. lia.
    + intros k blk Hk. rewrite Zpool. eauto.
    + rewrite Zsize. simpl. rewrite Hs.
      destruct (decide (q = n)) as [->|Hne].
      * rewrite (wf_sent_len _ _ W) in Hl. replace l with 0 by lia.
        rewrite Z.add_0_r. symmetry. by apply sum_len_ext.
      * rewrite (sum_len_tail b' q n) by (try lia; intros; apply Htail'; lia).
        rewrite Hlq. f_equal. symmetry. by apply sum_len_ext.
Qed.

Lemma seg_bytes_shrink n b b' i :
  wf_at n b -> (i <= n)%nat ->
  base_at b' i = base_at b i -> ob_pool b' = ob_pool b ->
  0 <= len_at b' i <= len_at b i ->
  seg_bytes b' i = take (Z.to_nat (len_at b' i)) (seg_bytes b i).
Proof.
  intros W Hi Hb Hp Hl. destruct (decide (i < n)%nat) as [Hlt|Hlt].
  - destruct (wf_seg _ _ W i Hlt) as [? ? ? ? (k & blk & Hbk & Hk & Hlb)].
    rewrite (seg_bytes_ok b i k blk) by (try done; lia).
    rewrite (seg_bytes_ok b' i k blk) by (try congruence; lia).
    rewrite take_take. f_equal. lia.
  - assert (i = n) as -> by lia. pose proof (wf_sent_len _ _ W) as H0. rewrite H0 in Hl.
    rewrite (seg_bytes_len0 b' n) by lia. rewrite (seg_bytes_len0 b n) by done.
    by rewrite take_nil.
Qed.

Lemma rollback_restores n0 s0 d nB sB :
  wf_at n0 s0 -> wf_at nB sB -> grows s0 d sB ->
  exists sR, obuf_rollback_to_svp (svp_of s0) sB = Ret tt sR /\
    wf_at nB sR /\ ob_pos sR = ob_pos s0 /\ ob_size sR = ob_size s0 /\
    (forall i, (i <= ob_pos s0)%nat ->
       len_at sR i = len_at s0 i /\ seg_bytes sR i = seg_bytes s0 i) /\
    obuf_content sR = obuf_content s0.
Proof.
  intros W0 WB G. set (q := ob_pos s0).
  pose proof (wf_pos _ _ W0) as Hq0. pose proof (wf_pos _ _ WB) as HqB.
  pose proof (g_pos _ _ _ G) as Hqq. fold q in Hq0, Hqq.
  pose proof (wf_len_le_cap n0 s0 q W0 Hq0) as Hl0.
  pose proof (g_len_cur _ _ _ G) as Hcur. fold q in Hcur.
  assert (Hsum : ob_size s0 = sum_len sB q + len_at s0 q).
  { rewrite (wf_size _ _ W0).
    rewrite (sum_len_ext s0 sB q) by (intros; apply (g_len_below _ _ _ G); fold q; lia).
    destruct (decide (q = n0)) as [E|E].
    - rewrite E. rewrite (wf_sent_len _ _ W0). lia.
    - apply sum_len_tail; [lia|]. intros i Hi. apply (wf_tail _ _ W0). fold q. lia. }
  destruct (obuf_rollback_spec nB sB (svp_of s0) WB)
    as (sR & Heq & WR & Hpos & Hsize & Hpool & Hcap & Hbase & Hlow & Hlq);
    try (simpl; fold q; done || lia).
  simpl in *. fold q in Hpos, Hbase, Hlow, Hlq.
  assert (Hseg : forall i, (i <= q)%nat ->
            len_at sR i = len_at s0 i /\ seg_bytes sR i = seg_bytes s0 i).
  { intros i Hi. destruct (decide (i = q)) as [->|Hne].
    - split; [done|].
      rewrite (seg_bytes_shrink nB sB sR q) by (try done; try lia; by apply Hbase).
      rewrite Hlq. apply (g_bytes _ _ _ G). fold q. lia.
    - assert (Hlt : (i < q)%nat) by lia.
      pose proof (g_len_below _ _ _ G i Hlt) as Hlb.
      split; [by rewrite Hlow|].
      rewrite (seg_bytes_shrink nB sB sR i) by (try done; try lia; try (by apply Hbase);
        rewrite Hlow by done; pose proof (wf_len_le_cap nB sB i WB ltac:(lia)); lia).
      rewrite Hlow, Hlb by done. apply (g_bytes _ _ _ G). fold q. lia. }
  exists sR. split_and!; try done.
  rewrite !obuf_content_eq, Hpos. fold q.
  rewrite (proj2 (Hseg q ltac:(lia))). f_equal.
  apply content_upto_ext. intros i Hi. apply Hseg. lia.
Qed.

Section Create.
Variable NDEBUG : bool.
Variable region_admits : region -> Z -> bool.

Lemma obuf_create_spec raw pool af :
  length (ob_capacity raw) = IOBUF_IOV_MAX -> length (ob_iov raw) = IOBUF_IOV_MAX ->
  0 < af <= REQ_MAX ->
  exists b, obuf_create pool af raw = Ret tt b /\ wf_at 0 b /\
    ob_size b = 0 /\ ob_pos b = O /\ obuf_content b = [] /\
    ob_pool b = pool /\ ob_alloc_factor b = af.
Proof.
  intros Hlc Hli Haf. unfold obuf_create.
  mmodify. mmodify. mmodify. mmodify. mgets. simpl ob_pos.
  set (b0 := with_alloc_factor _ _).
  destruct (obuf_init_pos_spec b0 0) as (b & Heq & U & Hpool); try done.
  { unfold IOBUF_IOV_MAX. lia. }
  exists b. split; [done|].
  pose proof (su_cap _ _ _ _ _ U 0%nat) as Hc. rewrite decide_True in Hc by done.
  pose proof (slot_update_len _ _ _ _ _ 0%nat U) as Hl. rewrite decide_True in Hl by done.
  simpl in Hl.
  assert (W : wf_at 0 b).
  { split; try done.
    - by rewrite (su_lcap _ _ _ _ _ U).
    - by rewrite (su_liov _ _ _ _ _ U).
    - by rewrite (su_pos _ _ _ _ _ U).
    - unfold IOBUF_IOV_MAX. lia.
    - by rewrite (su_af _ _ _ _ _ U).
    - intros i Hi. lia.
    - intros i Hi. lia.
    - intros i j k o o' Hi. lia.
    - by rewrite (su_size _ _ _ _ _ U). }
  split_and!; try done.
  - by rewrite (su_size _ _ _ _ _ U).
  - by rewrite (su_pos _ _ _ _ _ U).
  - rewrite obuf_content_eq, (su_pos _ _ _ _ _ U). simpl.
    by rewrite seg_bytes_len0.
  - by rewrite (su_af _ _ _ _ _ U).
Qed.

Lemma obuf_dup_all_spec chunks : forall n b,
  wf_at n b -> Forall (fun c => Z.of_nat (length c) <= REQ_MAX) chunks ->
  dup_all_post region_admits n b chunks (obuf_dup_all NDEBUG region_admits chunks b).
Proof.
  induction chunks as [|c chunks IH]; intros n b W Hall.
  - simpl. exists n. split_and!; try done; [apply grows_refl|lia].
  - inversion Hall as [|? ? Hc Hall']; subst. clear Hall. rename Hall' into Hall.
    simpl obuf_dup_all. unfold bind.
    pose proof (obuf_dup_spec NDEBUG region_admits n b c W Hc) as HD.
    destruct (obuf_dup NDEBUG region_admits c b) as [[] b1|e b1| | |]; simpl in HD; try done.
    + destruct HD as (n1 & W1 & G1 & Hn1).
      specialize (IH n1 b1 W1 Hall). fold (obuf_dup_all NDEBUG region_admits chunks).
      destruct (obuf_dup_all NDEBUG region_admits chunks b1) as [[] b2|e b2| | |];
        simpl in *; try done.
      * destruct IH as (n2 & W2 & G2 & Hn2). exists n2. split_and!; try done; try lia.
        by apply (grows_trans _ _ b1).
      * destruct IH as (-> & n2 & d & W2 & G2 & Hpre & Hn2 & Hwhy). split; [done|].
        exists n2, (c ++ d). split_and!; try done; try lia.
        -- by apply (grows_trans _ _ b1).
        -- by apply prefix_app.
    + destruct HD as (-> & _ & d & rest & Hd & W1 & G1 & Hwhy). simpl. split; [done|].
      exists n, d. split_and!; try done; try lia.
      rewrite Hd, <- app_assoc. by apply prefix_app_r.
Qed.

Lemma obuf_dup_all_returns chunks n b :
  wf_at n b -> Forall (fun c => Z.of_nat (length c) <= REQ_MAX) chunks ->
  (forall r c, region_admits r c = true) ->
  (n + length chunks < IOBUF_IOV_MAX)%nat ->
  exists b', obuf_dup_all NDEBUG region_admits chunks b = Ret tt b'.
Proof.
  intros W Hall Hadm Hn.
  pose proof (obuf_dup_all_spec chunks n b W Hall) as HD.
  destruct (obuf_dup_all NDEBUG region_admits chunks b) as [[] b'|e b'| | |];
    simpl in HD; try done; [eauto|].
  destruct HD as (_ & n' & d & _ & _ & _ & Hn' & [Hmax|(r & c & Hr)]); [lia|].
  by rewrite Hadm in Hr.
Qed.

End Create.

(** ** Deciding well-formedness *)

Lemma forallb_seq (f : nat -> bool) n :
  forallb f (seq 0 n) = true -> forall i, (i < n)%nat -> f i = true.
Proof.
  intros H i Hi. rewrite forallb_forall in H. apply H. apply in_seq. lia.
Qed.

Lemma seg_check_sound b i : seg_check b i = true -> seg_ok b i.
Proof.
  unfold seg_check. intros H.
  repeat (apply andb_prop in H as [H ?]).
  destruct (base_at b i) as [[k o]|] eqn:Hb; [|done].
  apply andb_prop in H0 as [Ho Hk].
  destruct (r_blocks (ob_pool b) !! k) as [blk|] eqn:Hblk; [|done].
  apply Z.eqb_eq in Ho, Hk. subst o.
  split; try (apply Z.ltb_lt; done); try (apply Z.leb_le; done).
  exists k, blk. done.
Qed.

Lemma wf_check_sound n b : wf_check n b = true -> wf_at n b.
Proof.
  unfold wf_check. intros H.
  repeat (apply andb_prop in H as [H ?]).
  split.
  - by apply Nat.eqb_eq.
  - by apply Nat.eqb_eq.
  - by apply Nat.leb_le.
  - by apply Nat.ltb_lt.
  - split; [by apply Z.ltb_lt|by apply Z.leb_le].
  - intros i Hi. apply seg_check_sound. by apply (forallb_seq _ n).
  - by apply Z.eqb_eq.
  - by apply Z.eqb_eq.
  - intros i Hi.
    match goal with Ht : forallb (fun i => Nat.leb i _ || _) _ = true |- _ =>
      pose proof (forallb_seq _ n Ht i ltac:(lia)) as Hc end.
    simpl in Hc. apply orb_prop in Hc as [Hc|Hc].
    + apply Nat.leb_le in Hc. lia.
    + by apply Z.eqb_eq.
  - intros i j k o o' Hi Hj Hne Hbi Hbj.
    match goal with Ht : forallb (fun i => forallb _ _) _ = true |- _ =>
      pose proof (forallb_seq _ n (forallb_seq _ n Ht i Hi) j Hj) as Hc end.
    simpl in Hc. apply orb_prop in Hc as [Hc|Hc].
    + by apply Nat.eqb_eq in Hc.
    + unfold base_differ in Hc. rewrite Hbi, Hbj in Hc.
      by rewrite Nat.eqb_refl in Hc.
  - by apply Z.eqb_eq.
Qed.

Lemma full31_wf : wf_at 31 full31.
Proof. apply wf_check_sound. vm_compute. reflexivity. Qed.

(** ** Sequences of appends, and [obuf_book] *)

Section Appends.
Variable NDEBUG : bool.
Variable region_admits : region -> Z -> bool.

Lemma run_append_spec n b op :
  wf_at n b -> Z.of_nat (length (op_data op)) <= REQ_MAX ->
  append_post NDEBUG region_admits n b (op_data op) (run_append NDEBUG region_admits op b).
Proof.
  intros W Hop. destruct op as [data|data]; simpl in *.
  - pose proof (obuf_dup_spec NDEBUG region_admits n b data W Hop) as HD.
    destruct (obuf_dup NDEBUG region_admits data b) as [[] b'|e b'| | |];
      simpl in *; try done.
    + destruct HD as (n' & W' & G & Hn). exists n'. split_and!; try done.
      destruct Hn as [[_ ->]|[_ ->]]; [by left|by right].
    + destruct HD as (-> & _ & d & rest & _ & W' & G & Hwhy). split; [done|].
      exists d. done.
  - by apply obuf_alloc_store_spec.
Qed.

Lemma run_appends_spec ops : forall n b,
  wf_at n b -> Forall (fun op => Z.of_nat (length (op_data op)) <= REQ_MAX) ops ->
  match run_appends NDEBUG region_admits ops b with
  | Ret _ b' => exists n', wf_at n' b' /\ grows b (concat (map op_data ops)) b'
  | Throw e b' => e = OutOfMemory /\ exists n' d, wf_at n' b' /\ grows b d b'
  | Abort => NDEBUG = false
  | _ => False
  end.
Proof.
  induction ops as [|op ops IH]; intros n b W Hall.
  - simpl. exists n. split; [done|apply grows_refl].
  - inversion Hall as [|? ? Hop Hall']; subst. clear Hall.
    simpl run_appends. unfold bind.
    pose proof (run_append_spec n b op W Hop) as HA.
    destruct (run_append NDEBUG region_admits op b) as [[] b1|e b1| | |]; simpl in HA; try done.
    + destruct HA as (n1 & W1 & G1 & _).
      specialize (IH n1 b1 W1 Hall'). fold (run_appends NDEBUG region_admits ops).
      destruct (run_appends NDEBUG region_admits ops b1) as [[] b2|e b2| | |]; simpl in *; try done.
      * destruct IH as (n2 & W2 & G2). exists n2. split; [done|].
        by apply (grows_trans _ _ b1).
      * destruct IH as (-> & n2 & d & W2 & G2). split; [done|].
        exists n2, (op_data op ++ d). split; [done|]. by apply (grows_trans _ _ b1).
    + destruct HA as (-> & d & W1 & G1 & _). split; [done|]. eauto.
Qed.

(** Storing at a place the bytes it already holds changes nothing. *)
Lemma obuf_store_same b (k : nat) blk (o cnt : Z) :
  r_blocks (ob_pool b) !! k = Some blk ->
  0 <= o -> 0 <= cnt -> o + cnt <= Z.of_nat (length blk) ->
  obuf_store (Some (k, o)) (take (Z.to_nat cnt) (drop (Z.to_nat o) blk)) b = Ret tt b.
Proof.
  intros Hk Ho Hc Hfit. unfold obuf_store.
  set (d := take (Z.to_nat cnt) (drop (Z.to_nat o) blk)).
  assert (Hd : length d = Z.to_nat cnt).
  { unfold d. rewrite length_take, length_drop. lia. }
  rewrite (memcpy_eq b k o blk d (Z.of_nat (length d)) Hk); try lia.
  f_equal. rewrite Nat2Z.id, take_ge by lia.
  replace (splice (Z.to_nat o) d blk) with blk.
  - rewrite list_insert_id by done. by destruct b as [[m] ? ? ? ? ?].
  - unfold splice. rewrite Hd. unfold d.
    rewrite <- (take_drop (Z.to_nat o) blk) at 1. f_equal.
    rewrite <- (take_drop (Z.to_nat cnt) (drop (Z.to_nat o) blk)) at 1. f_equal.
    by rewrite drop_drop.
Qed.

(** [obuf_alloc] when the bytes fit: the segment grows by the bytes that
    happen to be in its memory. *)
Lemma alloc_tail_spec n b size :
  wf_at n b -> 0 <= size ->
  len_at b (ob_pos b) + size <= cap_at b (ob_pos b) ->
  exists b2 d,
    obuf_alloc_tail NDEBUG size b =
      (if negb NDEBUG && (len_at b (ob_pos b) + size =? cap_at b (ob_pos b))
       then Abort
       else Ret (ptr_add (base_at b (ob_pos b)) (len_at b (ob_pos b))) b2) /\
    wf_at n b2 /\ grows b d b2 /\ Z.of_nat (length d) = size /\
    ob_pool b2 = ob_pool b /\
    mem_read (r_blocks (ob_pool b)) (ptr_add (base_at b (ob_pos b)) (len_at b (ob_pos b)))
             size = Some d.
Proof.
  intros W Hsize Hfit.
  pose proof (wf_pos _ _ W) as Hpn.
  pose proof (wf_len_le_cap n b (ob_pos b) W Hpn) as Hlen.
  destruct (decide (ob_pos b < n)%nat) as [Hp|Hp].
  - destruct (wf_seg _ _ W _ Hp) as [? ? ? ? (k & blk & Hb & Hk & Hl)].
    set (d := take (Z.to_nat size) (drop (Z.to_nat (0 + len_at b (ob_pos b))) blk)).
    assert (Hd : Z.of_nat (length d) = size).
    { unfold d. rewrite length_take, length_drop. lia. }
    destruct (alloc_tail_store NDEBUG n b d W ltac:(lia))
      as (b2 & b3 & Htail & Hstore & W3 & G3 & Hpos3 & Hsz2 & _ & _ & Hpool2).
    rewrite Hd in Htail. rewrite Hb in Hstore. simpl ptr_add in Hstore.
    assert (Hsame : obuf_store (Some (k, 0 + len_at b (ob_pos b))) d b2 = Ret tt b2).
    { apply obuf_store_same; [by rewrite Hpool2|lia..]. }
    rewrite Hsame in Hstore. injection Hstore as <-.
    exists b2, d. split_and!; try done.
    rewrite Hb. simpl ptr_add. by apply mem_read_block'; try lia.
  - assert (ob_pos b = n) as Hpe by lia.
    rewrite Hpe, (wf_sent_cap _ _ W), (wf_sent_len _ _ W) in *.
    assert (size = 0) as -> by lia.
    destruct (alloc_tail_store NDEBUG n b [] W
                ltac:(rewrite Hpe, (wf_sent_cap _ _ W), (wf_sent_len _ _ W); simpl; lia))
      as (b2 & b3 & Htail & Hstore & W3 & G3 & _ & _ & _ & _ & Hpool2).
    simpl in Htail. rewrite Hpe, (wf_sent_cap _ _ W), (wf_sent_len _ _ W) in Htail.
    unfold obuf_store in Hstore. simpl in Hstore. rewrite memcpy_zero in Hstore.
    assert (b3 = b2) as -> by (injection Hstore as <-; by destruct b2 as [[m] ? ? ? ? ?]).
    exists b2, []. done.
Qed.

Lemma obuf_book_spec n b size svp b2 :
  wf_at n b -> 0 <= size <= REQ_MAX ->
  obuf_book NDEBUG region_admits size b = Ret svp b2 ->
  exists n' b1 d, wf_at n' b1 /\ grows b [] b1 /\
    (forall i, (i <= ob_pos b)%nat -> len_at b1 i = len_at b i) /\
    svp = svp_of b1 /\ wf_at n' b2 /\ grows b1 d b2.
Proof.
  intros W Hsize. unfold obuf_book. unfold bind at 1.
  pose proof (obuf_reserve_spec NDEBUG region_admits n b size W Hsize) as HR.
  destruct (obuf_reserve NDEBUG region_admits size b) as [p b1|e b1| | |];
    simpl in HR; try done.
  destruct HR as (n' & W1 & G1 & _ & Hfit & _ & Hkeep).
  pose proof (wf_liov _ _ W1) as Hli. pose proof (wf_lcap _ _ W1) as Hlc.
  pose proof (wf_pos _ _ W1) as Hpn. pose proof (wf_n _ _ W1) as Hn.
  pose proof (wf_len_le_cap n' b1 (ob_pos b1) W1 Hpn) as Hlen.
  mgets. mstep (get_iov_eq b1 (ob_pos b1) ltac:(lia)). mgets. cbv zeta.
  unfold bind at 1. rewrite obuf_alloc_eq.
  mgets. mstep (get_iov_eq b1 (ob_pos b1) ltac:(lia)).
  mstep (get_capacity_eq b1 (ob_pos b1) ltac:(lia)).
  rewrite <- ?len_at_eq.
  assert (Hc63 : cap_at b1 (ob_pos b1) <= 2 ^ 63).
  { destruct (decide (ob_pos b1 < n')%nat) as [Hp|Hp].
    - destruct (wf_seg _ _ W1 _ Hp). pose proof (cap_bound_seg (ob_pos b1) ltac:(lia)). lia.
    - assert (ob_pos b1 = n') as Hpe by lia. rewrite Hpe, (wf_sent_cap _ _ W1). lia. }
  rewrite wrap_small by (unfold REQ_MAX in *; lia).
  replace (len_at b1 (ob_pos b1) + size >? cap_at b1 (ob_pos b1)) with false
    by (symmetry; rewrite Z.gtb_ltb; apply Z.ltb_ge; lia).
  unfold bind at 1. unfold ret at 1. cbv beta iota.
  destruct (alloc_tail_spec n' b1 size W1 ltac:(lia) Hfit) as (b2' & d & Htail & W2 & G2 & _).
  rewrite Htail.
  destruct (negb NDEBUG && _); [done|].
  cbv beta iota. unfold ret. intros [= <- <-].
  exists n', b1, d. done.
Qed.

End Appends.

(** ** What a savepoint records, and appends that fail *)

Section AppendsMore.
Variable NDEBUG : bool.
Variable region_admits : region -> Z -> bool.

(** The segment that the savepoint of [obuf_book] records. *)
Lemma obuf_book_pos n b size svp b2 :
  wf_at n b -> 0 <= size <= REQ_MAX ->
  obuf_book NDEBUG region_admits size b = Ret svp b2 ->
  svp_pos svp = if len_at b (ob_pos b) + size <=? cap_at b (ob_pos b)
                then ob_pos b else slow_slot b.
Proof.
  intros W Hsize Hbook.
  pose proof (wf_liov _ _ W) as Hli. pose proof (wf_lcap _ _ W) as Hlc.
  pose proof (wf_pos _ _ W) as Hpn. pose proof (wf_n _ _ W) as Hn.
  pose proof (wf_len_le_cap n b (ob_pos b) W Hpn) as Hlen.
  assert (Hc63 : cap_at b (ob_pos b) <= 2 ^ 63).
  { destruct (decide (ob_pos b < n)%nat) as [Hp|Hp].
    - destruct (wf_seg _ _ W _ Hp). pose proof (cap_bound_seg (ob_pos b) ltac:(lia)). lia.
    - assert (ob_pos b = n) as Hpe by lia. rewrite Hpe, (wf_sent_cap _ _ W). lia. }
  (* the state after the reserve step *)
  assert (Hres : exists p b1,
            obuf_reserve NDEBUG region_admits size b = Ret p b1 /\
            svp = svp_of b1 /\
            ob_pos b1 = if len_at b (ob_pos b) + size <=? cap_at b (ob_pos b)
                        then ob_pos b else slow_slot b).
  { revert Hbook. unfold obuf_book. unfold bind at 1.
    pose proof (obuf_reserve_spec NDEBUG region_admits n b size W Hsize) as HR.
    assert (Hpos : match obuf_reserve NDEBUG region_admits size b with
                   | Ret _ b1 => ob_pos b1 =
                       if len_at b (ob_pos b) + size <=? cap_at b (ob_pos b)
                       then ob_pos b else slow_slot b
                   | _ => True
                   end).
    { destruct (len_at b (ob_pos b) + size <=? cap_at b (ob_pos b)) eqn:E.
      - apply Z.leb_le in E.
        assert (Heq : exists p, obuf_reserve NDEBUG region_admits size b = Ret p b).
        { eexists. unfold obuf_reserve. mgets. mstep (get_iov_eq b (ob_pos b) ltac:(lia)).
          mstep (get_capacity_eq b (ob_pos b) ltac:(lia)).
          rewrite <- ?len_at_eq.
          rewrite wrap_small by (unfold REQ_MAX in *; lia).
          by replace (len_at b (ob_pos b) + size >? cap_at b (ob_pos b)) with false
            by (symmetry; rewrite Z.gtb_ltb; apply Z.ltb_ge; lia). }
        destruct Heq as (p & ->). done.
      - apply Z.leb_gt in E.
        assert (Heq : obuf_reserve NDEBUG region_admits size b
                      = obuf_reserve_slow NDEBUG region_admits size b).
        { unfold obuf_reserve. mgets. mstep (get_iov_eq b (ob_pos b) ltac:(lia)).
          mstep (get_capacity_eq b (ob_pos b) ltac:(lia)).
          rewrite <- ?len_at_eq.
          rewrite wrap_small by (unfold REQ_MAX in *; lia).
          by replace (len_at b (ob_pos b) + size >? cap_at b (ob_pos b)) with true
            by (symmetry; apply Z.gtb_lt; lia). }
        rewrite Heq.
        pose proof (obuf_reserve_slow_spec NDEBUG region_admits n b size W Hsize) as HS.
        destruct (obuf_reserve_slow NDEBUG region_admits size b) as [p1 b1|e b1| | |];
          simpl in HS; try done.
        by destruct HS as (_ & _ & _ & _ & Hp & _). }
    destruct (obuf_reserve NDEBUG region_admits size b) as [p b1|e b1| | |];
      simpl in HR; try done.
    destruct HR as (n' & W1 & _).
    pose proof (wf_liov _ _ W1) as Hli1. pose proof (wf_pos _ _ W1) as Hpn1.
    pose proof (wf_n _ _ W1) as Hn1.
    mgets. mstep (get_iov_eq b1 (ob_pos b1) ltac:(lia)). mgets. cbv zeta.
    unfold bind at 1.
    destruct (obuf_alloc NDEBUG region_admits size b1) as [q b2'|e b2'| | |]; try done.
    cbv beta iota. unfold ret. intros [= <- <-].
    exists p, b1. split_and!; try done. }
  destruct Hres as (p & b1 & _ & -> & Hpos). exact Hpos.
Qed.

(** An append through [obuf_alloc] that raises has stored nothing. *)
Lemma obuf_alloc_store_throw n b data :
  wf_at n b -> Z.of_nat (length data) <= REQ_MAX ->
  match obuf_alloc_store NDEBUG region_admits data b with
  | Throw _ b' => grows b [] b'
  | _ => True
  end.
Proof.
  intros W Hdata.
  pose proof (wf_liov _ _ W) as Hli. pose proof (wf_lcap _ _ W) as Hlc.
  pose proof (wf_pos _ _ W) as Hpn. pose proof (wf_n _ _ W) as Hn.
  pose proof (wf_len_le_cap n b (ob_pos b) W Hpn) as Hlen.
  unfold obuf_alloc_store. unfold bind at 1. rewrite obuf_alloc_eq.
  set (size := Z.of_nat (length data)) in *.
  mgets. mstep (get_iov_eq b (ob_pos b) ltac:(lia)).
  mstep (get_capacity_eq b (ob_pos b) ltac:(lia)).
  rewrite <- ?len_at_eq.
  assert (Hc63 : cap_at b (ob_pos b) <= 2 ^ 63).
  { destruct (decide (ob_pos b < n)%nat) as [Hp|Hp].
    - destruct (wf_seg _ _ W _ Hp). pose proof (cap_bound_seg (ob_pos b) ltac:(lia)). lia.
    - assert (ob_pos b = n) as Hpe by lia. rewrite Hpe, (wf_sent_cap _ _ W). lia. }
  rewrite wrap_small by (unfold REQ_MAX in *; lia).
  destruct (len_at b (ob_pos b) + size >? cap_at b (ob_pos b)) eqn:E.
  - unfold bind at 1. unfold bind at 1.
    pose proof (obuf_reserve_slow_spec NDEBUG region_admits n b size W ltac:(lia)) as HR.
    destruct (obuf_reserve_slow NDEBUG region_admits size b) as [p1 b1|e b1| | |];
      simpl in HR; try done.
    + destruct HR as (n' & W1 & G1 & Hn' & Hpos1 & Hlen1 & Hcap1 & _ & _ & _).
      unfold ret at 1. cbv beta iota.
      destruct (alloc_tail_store NDEBUG n' b1 data W1 ltac:(fold size; lia))
        as (b2 & b3 & Htail & Hstore & _).
      fold size in Htail. rewrite Htail.
      destruct (negb NDEBUG && (len_at b1 (ob_pos b1) + size =? cap_at b1 (ob_pos b1)));
        [done|].
      cbv beta iota. by rewrite Hstore.
    + by destruct HR as (_ & _ & G1 & _).
  - rewrite Z.gtb_ltb in E. apply Z.ltb_ge in E.
    unfold bind at 1. unfold ret at 1. cbv beta iota.
    destruct (alloc_tail_store NDEBUG n b data W ltac:(fold size; lia))
      as (b2 & b3 & Htail & Hstore & _).
    fold size in Htail. rewrite Htail.
    destruct (negb NDEBUG && (len_at b (ob_pos b) + size =? cap_at b (ob_pos b))); [done|].
    cbv beta iota. by rewrite Hstore.
Qed.

(** Only an append through [obuf_alloc] can run into an assert. *)
Lemma run_append_abort n b op :
  wf_at n b -> Z.of_nat (length (op_data op)) <= REQ_MAX ->
  run_append NDEBUG region_admits op b = Abort ->
  NDEBUG = false /\ exists data, op = AppAlloc data.
Proof.
  intros W Hop. destruct op as [data|data]; simpl in *.
  - pose proof (obuf_dup_spec NDEBUG region_admits n b data W Hop) as HD.
    by destruct (obuf_dup NDEBUG region_admits data b) as [[] b'|e b'| | |].
  - pose proof (obuf_alloc_store_spec NDEBUG region_admits n b data W Hop) as HA.
    destruct (obuf_alloc_store NDEBUG region_admits data b) as [[] b'|e b'| | |];
      try done.
    intros _. split; [done|by exists data].
Qed.

(** An append that raises leaves a part of its bytes behind: the first
    ones. *)
Lemma run_append_throw_prefix n b op :
  wf_at n b -> Z.of_nat (length (op_data op)) <= REQ_MAX ->
  match run_append NDEBUG region_admits op b with
  | Throw _ b' => exists d, d `prefix_of` op_data op /\ grows b d b'
  | _ => True
  end.
Proof.
  intros W Hop. destruct op as [data|data]; simpl in *.
  - pose proof (obuf_dup_spec NDEBUG region_admits n b data W Hop) as HD.
    destruct (obuf_dup NDEBUG region_admits data b) as [[] b'|e b'| | |];
      simpl in *; try done.
    destruct HD as (_ & _ & d & rest & Hd & _ & G & _).
    exists d. split; [by exists rest|done].
  - pose proof (obuf_alloc_store_throw n b data W Hop) as HT.
    destruct (obuf_alloc_store NDEBUG region_admits data b) as [[] b'|e b'| | |]; try done.
    exists []. split; [apply prefix_nil|done].
Qed.

Lemma run_appends_throw_prefix ops : forall n b,
  wf_at n b -> Forall (fun op => Z.of_nat (length (op_data op)) <= REQ_MAX) ops ->
  match run_appends NDEBUG region_admits ops b with
  | Throw _ b' =>
      exists d, d `prefix_of` concat (map op_data ops) /\ grows b d b'
  | _ => True
  end.
Proof.
  induction ops as [|op ops IH]; intros n b W Hall; [done|].
  inversion Hall as [|? ? Hop Hall']; subst. clear Hall.
  simpl run_appends. unfold bind.
  pose proof (run_append_spec NDEBUG region_admits n b op W Hop) as HA.
  pose proof (run_append_throw_prefix n b op W Hop) as HP.
  destruct (run_append NDEBUG region_admits op b) as [[] b1|e b1| | |]; simpl in HA; try done.
  - destruct HA as (n1 & W1 & G1 & _).
    specialize (IH n1 b1 W1 Hall'). fold (run_appends NDEBUG region_admits ops).
    destruct (run_appends NDEBUG region_admits ops b1) as [[] b2|e b2| | |]; try done.
    destruct IH as (d & Hd & G2).
    exists (op_data op ++ d). split.
    + simpl. by apply prefix_app.
    + by apply (grows_trans _ _ b1).
  - destruct HP as (d & Hd & G). exists d. split; [|done].
    simpl. by apply prefix_app_r.
Qed.

End AppendsMore.

(** ** Reserve, store, alloc *)

(** Storing bytes in the reserved room after the used part of the current
    segment leaves the buffer as it is, but for the memory behind it. *)
Lemma obuf_store_reserved n b data :
  wf_at n b -> data <> [] ->
  len_at b (ob_pos b) + Z.of_nat (length data) <= cap_at b (ob_pos b) ->
  exists b1,
    obuf_store (ptr_add (base_at b (ob_pos b)) (len_at b (ob_pos b))) data b = Ret tt b1 /\
    wf_at n b1 /\ grows b [] b1 /\
    ob_pos b1 = ob_pos b /\ ob_size b1 = ob_size b /\
    ob_iov b1 = ob_iov b /\ ob_capacity b1 = ob_capacity b /\
    mem_read (r_blocks (ob_pool b1)) (ptr_add (base_at b (ob_pos b)) (len_at b (ob_pos b)))
             (Z.of_nat (length data)) = Some data.
Proof.
  intros W Hne Hfit.
  pose proof (wf_pos _ _ W) as Hpn. pose proof (wf_n _ _ W) as Hn.
  pose proof (wf_len_le_cap n b (ob_pos b) W Hpn) as Hlen.
  assert (Hdl : 0 < Z.of_nat (length data)) by (destruct data; [done|simpl; lia]).
  assert (Hp : (ob_pos b < n)%nat).
  { destruct (decide (ob_pos b < n)%nat); [done|].
    assert (ob_pos b = n) as Hpe by lia.
    rewrite Hpe, (wf_sent_cap _ _ W), (wf_sent_len _ _ W) in Hfit. lia. }
  destruct (wf_seg _ _ W _ Hp) as [? ? ? ? (k & blk & Hb & Hk & Hl)].
  set (p := ob_pos b) in *. set (l := len_at b p) in *.
  rewrite Hb. simpl ptr_add. unfold obuf_store.
  rewrite (memcpy_eq b k (0 + l) blk data _ Hk) by lia.
  rewrite Nat2Z.id, take_ge by lia.
  set (b1 := with_pool _ b). exists b1.
  assert (Hlk : r_blocks (ob_pool b1) !! k = Some (splice (Z.to_nat (0 + l)) data blk)).
  { unfold b1. simpl. apply list_lookup_insert_eq. by apply lookup_lt_Some in Hk. }
  assert (Hother : forall k' blk', k' <> k -> r_blocks (ob_pool b) !! k' = Some blk' ->
             r_blocks (ob_pool b1) !! k' = Some blk').
  { intros k' blk' Hne' Hk'. unfold b1. simpl. by rewrite list_lookup_insert_ne. }
  assert (W1 : wf_at n b1).
  { apply (wf_at_update n b); try done; try apply W.
    - intros i Hi. change (len_at b1 i) with (len_at b i).
      destruct (wf_seg _ _ W i Hi). lia.
    - intros k' blk' Hk'. destruct (decide (k' = k)) as [->|Hne'].
      + rewrite Hlk. eexists. split; [done|]. rewrite Hk in Hk'. injection Hk' as <-.
        apply splice_length. lia.
      + exists blk'. split; [|done]. by apply Hother.
    - change (ob_size b1) with (ob_size b). rewrite (wf_size _ _ W). by apply sum_len_ext. }
  assert (Hseg : forall i, (i <= p)%nat -> seg_bytes b1 i = seg_bytes b i).
  { intros i Hi. destruct (decide (i = p)) as [->|Hne'].
    - rewrite (seg_bytes_ok b p k blk) by (try done; fold l; lia).
      rewrite (seg_bytes_ok b1 p k _ Hb Hlk).
      + change (len_at b1 p) with l. apply splice_take_below; lia.
      + change (len_at b1 p) with l. rewrite splice_length; lia.
    - apply seg_bytes_frame; try done.
      intros k' o' Hb'. unfold b1. simpl. rewrite list_lookup_insert_ne; [done|].
      intros <-. by apply (wf_distinct _ _ W i p k o' 0 ltac:(lia) Hp Hne'). }
  split_and!; try done.
  - split; try done.
    + rewrite app_nil_r, !obuf_content_eq. change (ob_pos b1) with p. fold p.
      rewrite (Hseg p) by done. f_equal.
      apply content_upto_ext. intros i Hi. apply Hseg. lia.
    + simpl. lia.
    + intros i Hi. rewrite (Hseg i Hi). apply seg_bytes_take_self.
  - rewrite (mem_read_block' _ _ _ _ _ Hlk) by (rewrite ?splice_length; lia).
    f_equal. unfold splice.
    rewrite drop_app_length' by (rewrite length_take; lia).
    rewrite take_app_length' by lia. done.
Qed.

Section ReserveStoreAlloc.
Variable NDEBUG : bool.
Variable region_admits : region -> Z -> bool.

Lemma reserve_store_alloc_spec n b data :
  wf_at n b -> data <> [] -> Z.of_nat (length data) <= REQ_MAX ->
  match reserve_store_alloc NDEBUG region_admits data b with
  | Ret p b' =>
      exists n' b1, wf_at n' b' /\ grows b data b' /\
        obuf_reserve NDEBUG region_admits (Z.of_nat (length data)) b = Ret p b1 /\
        mem_read (r_blocks (ob_pool b')) p (Z.of_nat (length data)) = Some data /\
        (NDEBUG = false -> ~ exact_fit b1 (Z.of_nat (length data)))
  | Throw e b' =>
      e = OutOfMemory /\ wf_at n b' /\ grows b [] b' /\
      obuf_reserve NDEBUG region_admits (Z.of_nat (length data)) b = Throw OutOfMemory b'
  | Abort =>
      NDEBUG = false /\
      ((slow_slot b < n)%nat /\ 0 < cap_at b (slow_slot b) < Z.of_nat (length data) \/
       exists p b1, obuf_reserve NDEBUG region_admits (Z.of_nat (length data)) b = Ret p b1 /\
                    exact_fit b1 (Z.of_nat (length data)))
  | _ => False
  end.
Proof.
  intros W Hne Hdata. unfold reserve_store_alloc.
  set (size := Z.of_nat (length data)) in *.
  assert (Hsz : 0 <= size) by (unfold size; lia).
  unfold bind at 1.
  pose proof (obuf_reserve_spec NDEBUG region_admits n b size W ltac:(lia)) as HR.
  destruct (obuf_reserve NDEBUG region_admits size b) as [p b1|e b1| | |] eqn:ER;
    simpl in HR; try done.
  - destruct HR as (n1 & W1 & G1 & _ & Hfit & -> & _).
    destruct (obuf_store_reserved n1 b1 data W1 Hne Hfit)
      as (b2 & Hst & W2 & G2 & Hpos2 & Hsize2 & Hiov2 & Hcap2 & Hrd).
    unfold bind at 1. rewrite Hst. cbv beta iota.
    pose proof (wf_liov _ _ W2) as Hli. pose proof (wf_lcap _ _ W2) as Hlc.
    pose proof (wf_pos _ _ W2) as Hpn. pose proof (wf_n _ _ W2) as Hn.
    pose proof (wf_len_le_cap n1 b2 (ob_pos b2) W2 Hpn) as Hlen.
    assert (Hl21 : len_at b2 (ob_pos b2) = len_at b1 (ob_pos b1)).
    { unfold len_at, iov_at. by rewrite Hiov2, Hpos2. }
    assert (Hc21 : cap_at b2 (ob_pos b2) = cap_at b1 (ob_pos b1)).
    { unfold cap_at. by rewrite Hcap2, Hpos2. }
    assert (Hb21 : base_at b2 (ob_pos b2) = base_at b1 (ob_pos b1)).
    { unfold base_at, iov_at. by rewrite Hiov2, Hpos2. }
    rewrite obuf_alloc_eq.
    mgets. mstep (get_iov_eq b2 (ob_pos b2) ltac:(lia)).
    mstep (get_capacity_eq b2 (ob_pos b2) ltac:(lia)).
    rewrite <- ?len_at_eq.
    assert (Hc63 : cap_at b2 (ob_pos b2) <= 2 ^ 63).
    { destruct (decide (ob_pos b2 < n1)%nat) as [Hp|Hp].
      - destruct (wf_seg _ _ W2 _ Hp). pose proof (cap_bound_seg (ob_pos b2) ltac:(lia)). lia.
      - assert (ob_pos b2 = n1) as Hpe by lia. rewrite Hpe, (wf_sent_cap _ _ W2). lia. }
    rewrite wrap_small by (unfold REQ_MAX in *; lia).
    replace (len_at b2 (ob_pos b2) + size >? cap_at b2 (ob_pos b2)) with false
      by (symmetry; rewrite Z.gtb_ltb; apply Z.ltb_ge; lia).
    unfold bind at 1. unfold ret at 1. cbv beta iota.
    destruct (alloc_tail_spec NDEBUG n1 b2 size W2 Hsz ltac:(lia))
      as (b3 & d & Htail & W3 & G3 & _ & Hpool3 & Hrd3).
    rewrite Htail. rewrite Hl21, Hc21, Hb21 in *.
    fold size in Hrd. rewrite Hrd in Hrd3. injection Hrd3 as <-.
    destruct (negb NDEBUG && (len_at b1 (ob_pos b1) + size =? cap_at b1 (ob_pos b1))) eqn:Eab.
    + apply andb_prop in Eab as [Hnd Hex]. apply Z.eqb_eq in Hex.
      split; [by destruct NDEBUG|]. right. eauto.
    + exists n1, b1. split_and!; try done.
      * rewrite <- (app_nil_l data). apply (grows_trans _ _ b1); [done|].
        rewrite <- (app_nil_l data). by apply (grows_trans _ _ b2).
      * by rewrite Hpool3.
      * intros ->. simpl in Eab. unfold exact_fit. by apply Z.eqb_neq in Eab.
  - destruct HR as (-> & W1 & G1 & _). done.
  - destruct HR as (-> & Hlt & Hc). split; [done|]. by left.
Qed.

End ReserveStoreAlloc.

(** ** The input buffer *)

Lemma ibuf_used_bounds b : ibuf_wf b -> 0 <= ibuf_used b <= ib_capacity b.
Proof.
  intros [Hb Hp He Hc|k blk p e Hb Hp He Hpe Hec Hcm Hk Hl]; unfold ibuf_used.
  - rewrite He, Hp, Hc. simpl. lia.
  - rewrite He, Hp. simpl. rewrite decide_True by done. simpl. lia.
Qed.

Lemma ibuf_free_bounds b :
  ibuf_wf b -> 0 <= ibuf_free b /\ ibuf_free b + ibuf_used b <= ib_capacity b.
Proof.
  intros [Hb Hp He Hc|k blk p e Hb Hp He Hpe Hec Hcm Hk Hl]; unfold ibuf_free, ibuf_used.
  - rewrite Hb, He, Hp, Hc. simpl. lia.
  - rewrite Hb, He, Hp. simpl. rewrite !decide_True by done. simpl. lia.
Qed.

Lemma ibuf_cap_bound b : ibuf_wf b -> 0 <= ib_capacity b <= SIZE_MAX.
Proof.
  intros [Hb Hp He Hc|k blk p e Hb Hp He Hpe Hec Hcm Hk Hl].
  - rewrite Hc. unfold SIZE_MAX. lia.
  - lia.
Qed.

Section IbufLemmas.
Variable NDEBUG : bool.
Variable iobuf_readahead : Z.
Variable slab_supply : slab_cache -> Z -> option Z.

Lemma ibuf_size_eq b : ibuf_wf b -> ibuf_size NDEBUG b = Ret (ibuf_used b) b.
Proof.
  intros W. pose proof (ibuf_used_bounds b W) as Hu. pose proof (ibuf_cap_bound b W) as Hc.
  unfold ibuf_size, ibuf_used in *.
  destruct W as [Hb Hp He Hc0|k blk p e Hb Hp He Hpe Hec Hcm Hk Hl].
  - rewrite He, Hp. simpl. unfold bind. rewrite assert_holds; [done|done].
  - rewrite He, Hp in *. simpl in *. rewrite decide_True in * by done. simpl in *.
    unfold bind. rewrite assert_holds.
    + unfold ret. f_equal. apply wrap_small. unfold SIZE_MAX in *. lia.
    + unfold ret. f_equal. apply Z.geb_le. lia.
Qed.

Lemma ibuf_unused_eq b : ibuf_wf b -> ibuf_unused b = Ret (ibuf_free b) b.
Proof.
  intros W. pose proof (ibuf_free_bounds b W) as Hu. pose proof (ibuf_cap_bound b W) as Hc.
  pose proof (ibuf_used_bounds b W) as Hu'.
  unfold ibuf_unused, ibuf_free in *.
  destruct W as [Hb Hp He Hc0|k blk p e Hb Hp He Hpe Hec Hcm Hk Hl].
  - rewrite Hb, He, Hc0. simpl. done.
  - rewrite Hb, He in *. simpl in *. rewrite decide_True in * by done. simpl in *.
    f_equal. apply wrap_small. unfold SIZE_MAX in *. lia.
Qed.

(** The buffer after the de-fragmenting [memmove] and the two
    assignments that end [ibuf_reserve]. *)
Lemma ibuf_defrag b size :
  ibuf_wf b -> 0 <= size <= SIZE_MAX -> ibuf_free b < size ->
  wrap (size + ibuf_used b) <= ib_capacity b ->
  exists b', ibuf_reserve NDEBUG iobuf_readahead slab_supply size b = Ret tt b' /\
    ibuf_wf b' /\
    ib_buf b' = ib_buf b /\ ib_capacity b' = ib_capacity b /\
    length (sc_slabs (ib_slabc b')) = length (sc_slabs (ib_slabc b)) /\
    ib_pos b' = ib_buf b' /\
    ibuf_used b' = ibuf_used b /\
    ibuf_data b' = ibuf_data b.
Proof.
  intros W Hsize Hfree Hcap.
  pose proof (ibuf_used_bounds b W) as Hu. pose proof (ibuf_cap_bound b W) as Hc.
  unfold ibuf_reserve.
  mstep (ibuf_unused_eq b W).
  replace (size <=? ibuf_free b) with false by (symmetry; apply Z.leb_gt; lia).
  mstep (ibuf_size_eq b W). mgets.
  replace (wrap (size + ibuf_used b) <=? ib_capacity b) with true
    by (symmetry; apply Z.leb_le; lia).
  unfold bind at 1. unfold bind at 1. mgets. mgets.
  destruct W as [Hb Hp He Hc0|k blk p e Hb Hp He Hpe Hec Hcm Hk Hl].
  - (* no slab: nothing to move *)
    assert (Hu0 : ibuf_used b = 0) by (unfold ibuf_used; rewrite He, Hp; done).
    rewrite Hu0, Hb, Hp. unfold ibuf_move. simpl.
    unfold modify, bind. simpl.
    eexists. split; [done|]. simpl.
    split_and!; try done.
    + apply ibuf_wf_null; simpl; rewrite ?Hb; done.
    + unfold ibuf_used. simpl. by rewrite Hb.
    + unfold ibuf_data. simpl. rewrite He, Hp, Hb. simpl. done.
  - assert (Hue : ibuf_used b = e - p).
    { unfold ibuf_used. rewrite He, Hp. simpl. by rewrite decide_True. }
    rewrite Hue in *. rewrite Hb, Hp.
    unfold ibuf_move.
    rewrite (mem_read_block' _ _ _ _ _ Hk) by lia.
    set (bytes := take (Z.to_nat (e - p)) (drop (Z.to_nat p) blk)).
    assert (Hbl : length bytes = Z.to_nat (e - p)).
    { unfold bytes. rewrite length_take, length_drop. lia. }
    rewrite (mem_write_block _ _ _ _ _ Hk) by lia.
    cbv beta iota. unfold modify, bind. simpl.
    eexists. split; [done|]. simpl.
    assert (Hk' : <[k:=splice (Z.to_nat 0) bytes blk]> (sc_slabs (ib_slabc b)) !! k
                  = Some (splice 0 bytes blk)).
    { apply list_lookup_insert_eq. by apply lookup_lt_Some in Hk. }
    split_and!; try done.
    + eapply (ibuf_wf_slab _ k _ 0 (0 + (e - p))); simpl; rewrite ?Hb; try done; try lia.
      rewrite splice_length; lia.
    + by rewrite length_insert.
    + unfold ibuf_used. simpl. rewrite Hb. simpl. rewrite decide_True by done. simpl. lia.
    + unfold ibuf_data. simpl. rewrite Hb, He, Hp. simpl. rewrite !decide_True by done.
      rewrite (mem_read_block' _ _ _ _ _ Hk) by lia.
      rewrite (mem_read_block' _ _ _ _ _ Hk') by (rewrite ?splice_length; lia).
      f_equal. fold bytes. unfold splice. simpl.
      replace (0 + (e - p) - 0) with (e - p) by lia.
      change (Z.to_nat 0) with O. rewrite drop_0.
      rewrite take_app_length' by lia. done.
Qed.

End IbufLemmas.

(** * The properties of the output buffer *)

(** C7, as the code runs it. With growth factor 128, appending 100 bytes
    leaves size 100 in segment 0 (capacity 128); appending 50 more bytes
    fills segment 0 to 128 with 28 of them and spills the remaining 22
    into a newly materialized segment 1 of capacity 256, for a final size
    of 150 and an iovec count of 2; rolling back to the savepoint taken at
    size 100 restores size 100 and iovec count 1. *)
Theorem scenario_128_100_50 :
  (exists b1, Scenario.s1 = Ret tt b1 /\
     ob_size b1 = 100 /\ len_at b1 0 = 100 /\ cap_at b1 0 = 128 /\
     ob_pos b1 = 0%nat /\ iovcnt b1 = 1%nat) /\
  (exists b2, Scenario.s2 = Ret tt b2 /\
     len_at b2 0 = 128 /\ len_at b2 0 - 100 = 28 /\ len_at b2 1 = 22 /\
     cap_at b2 1 = 256 /\ ob_size b2 = 150 /\ iovcnt b2 = 2%nat /\
     obuf_content b2 = Scenario.bytes 100 x61 ++ Scenario.bytes 50 x62) /\
  (exists b3, Scenario2.s3 = Ret tt b3 /\
     ob_size b3 = 100 /\ iovcnt b3 = 1%nat /\
     obuf_content b3 = Scenario.bytes 100 x61).
Proof.
  split_and!; eexists; (split; [vm_compute; reflexivity|]); vm_compute; done.
Qed.

(** C7 as the spec words it does not hold: of the 50 bytes of the
    second append, 28 and not 30 go into segment 0, and 22 and not 20
    into segment 1. *)
Lemma scenario_not_30_20 :
  exists b2, Scenario.s2 = Ret tt b2 /\
    len_at b2 0 - 100 = 28 /\ len_at b2 1 = 22 /\
    len_at b2 0 - 100 <> 30 /\ len_at b2 1 <> 20.
Proof.
  eexists. split; [vm_compute; reflexivity|].
  split_and!; vm_compute; congruence.
Qed.

Section ObufProperties.
Variable NDEBUG : bool.
Variable region_admits : region -> Z -> bool.

(** C2. Round trip of [obuf_dup]. On a freshly created buffer, appending
    the chunks of any partition of a byte stream in order either returns,
    and then the segments in order (the first [iov_len] bytes of each)
    spell the stream and [obuf_size] is its length, or raises OutOfMemory;
    the latter only after at least 32 appends or when the region
    allocator refused a segment. Nothing else happens: no assertion
    fails and no loop runs forever. *)
Theorem obuf_dup_roundtrip raw pool af (stream : list byte) (chunks : list (list byte)) :
  length (ob_capacity raw) = IOBUF_IOV_MAX ->
  length (ob_iov raw) = IOBUF_IOV_MAX ->
  0 < af <= REQ_MAX ->
  Forall (fun c => Z.of_nat (length c) <= REQ_MAX) chunks ->
  concat chunks = stream ->
  match (obuf_create pool af ;;; obuf_dup_all NDEBUG region_admits chunks) raw with
  | Ret _ b =>
      obuf_content b = stream /\ ob_size b = Z.of_nat (length stream)
  | Throw e _ =>
      e = OutOfMemory /\
      ((IOBUF_IOV_MAX <= length chunks)%nat \/ exists r c, region_admits r c = false)
  | _ => False
  end.
Proof.
  intros Hlc Hli Haf Hall Hcat.
  destruct (obuf_create_spec raw pool af Hlc Hli Haf)
    as (b0 & Heq & W0 & Hs0 & _ & Hc0 & _).
  unfold bind. rewrite Heq.
  pose proof (obuf_dup_all_spec NDEBUG region_admits chunks 0 b0 W0 Hall) as HD.
  destruct (obuf_dup_all NDEBUG region_admits chunks b0) as [[] b|e b| | |];
    simpl in HD; try done.
  - destruct HD as (n' & W & G & _). split.
    + by rewrite (g_content _ _ _ G), Hc0, Hcat.
    + rewrite (g_size _ _ _ G), Hs0, Hcat. lia.
  - destruct HD as (-> & n' & d & _ & _ & _ & Hn' & Hwhy). split; [done|].
    destruct Hwhy as [Hmax|Hr]; [left; lia|by right].
Qed.

(** C4. The segment cap. When an append through [obuf_dup] needs a new
    segment while all the slots the code can use for data are taken
    (slots 0 to 30: the new segment and the end marker kept after it
    would not fit into the 32 slots), [obuf_dup] raises OutOfMemory. The
    buffer it leaves is well formed; it holds everything it held before
    the call, followed by the part of the data that still fitted; and the
    savepoint taken before the call rolls it back to the size and the
    contents it had. *)
Theorem obuf_dup_segment_cap n b (data : list byte) :
  wf_at n b ->
  Z.of_nat (length data) <= REQ_MAX ->
  S n = IOBUF_IOV_MAX ->
  room b n < Z.of_nat (length data) ->
  exists b', obuf_dup NDEBUG region_admits data b = Throw OutOfMemory b' /\
    wf_at n b' /\
    (exists d, d `prefix_of` data /\ grows b d b') /\
    (exists b'', obuf_rollback_to_svp (svp_of b) b' = Ret tt b'' /\
       wf_at n b'' /\ ob_size b'' = ob_size b /\ ob_pos b'' = ob_pos b /\
       obuf_content b'' = obuf_content b).
Proof.
  intros W Hdata Hn Hroom.
  pose proof (obuf_dup_spec NDEBUG region_admits n b data W Hdata) as HD.
  destruct (obuf_dup NDEBUG region_admits data b) as [[] b'|e b'| | |];
    simpl in HD; try done.
  - destruct HD as (n' & W' & _ & [[Hfit _]|[_ ->]]); [lia|].
    pose proof (wf_n _ _ W'). lia.
  - destruct HD as (-> & _ & d & rest & Hd & W' & G & _).
    exists b'. split_and!; try done.
    + exists d. split; [|done]. rewrite Hd. by apply prefix_app_r.
    + destruct (rollback_restores n b d n b' W W' G)
        as (b'' & Heq & W'' & Hpos & Hsize & _ & Hcont).
      eauto 10.
Qed.

(** C9. The effective cap is 31 segments. In a well-formed buffer the
    segments that hold data are the slots below [obuf_iovcnt], and there
    are at most 31 of them; this still holds after every call of
    [obuf_dup] and [obuf_reserve_slow] that returns. A call that needs
    slot 31 for data raises OutOfMemory, which is what
    [obuf_init_pos(buf, 32)] does. *)
Theorem obuf_effective_cap n b (data : list byte) (size : Z) :
  wf_at n b ->
  Z.of_nat (length data) <= REQ_MAX ->
  0 < size <= REQ_MAX ->
  (n < IOBUF_IOV_MAX)%nat /\ (iovcnt b < IOBUF_IOV_MAX)%nat /\
  (forall b', obuf_dup NDEBUG region_admits data b = Ret tt b' ->
     obuf_wf b' /\ (iovcnt b' < IOBUF_IOV_MAX)%nat) /\
  (forall p b', obuf_reserve_slow NDEBUG region_admits size b = Ret p b' ->
     obuf_wf b' /\ (iovcnt b' < IOBUF_IOV_MAX)%nat) /\
  (S n = IOBUF_IOV_MAX -> room b n < Z.of_nat (length data) ->
     exists b', obuf_dup NDEBUG region_admits data b = Throw OutOfMemory b') /\
  (S (slow_slot b) = IOBUF_IOV_MAX ->
     exists b', obuf_reserve_slow NDEBUG region_admits size b = Throw OutOfMemory b') /\
  obuf_init_pos IOBUF_IOV_MAX b = Throw OutOfMemory b.
Proof.
  intros W Hdata Hsize.
  assert (Hcnt : forall m s, wf_at m s -> (iovcnt s < IOBUF_IOV_MAX)%nat).
  { intros m s Ws. pose proof (wf_n _ _ Ws). pose proof (wf_pos _ _ Ws).
    unfold iovcnt. destruct (len_at s (ob_pos s) >? 0) eqn:E; [|lia].
    rewrite Z.gtb_ltb in E. apply Z.ltb_lt in E.
    destruct (decide (ob_pos s = m)) as [Hp|Hp]; [|lia].
    rewrite Hp, (wf_sent_len _ _ Ws) in E. lia. }
  pose proof (obuf_dup_spec NDEBUG region_admits n b data W Hdata) as HD.
  pose proof (obuf_reserve_slow_spec NDEBUG region_admits n b size W ltac:(lia)) as HR.
  split_and!.
  - apply (wf_n _ _ W).
  - by apply (Hcnt n).
  - intros b' Heq. rewrite Heq in HD. simpl in HD.
    destruct HD as (n' & W' & _). split; [by exists n'|by apply (Hcnt n')].
  - intros p b' Heq. rewrite Heq in HR. simpl in HR.
    destruct HR as (n' & W' & _). split; [by exists n'|by apply (Hcnt n')].
  - intros Hn Hroom.
    destruct (obuf_dup NDEBUG region_admits data b) as [[] b'|e b'| | |];
      simpl in HD; try done.
    + destruct HD as (n' & W' & _ & [[Hfit _]|[_ ->]]); [lia|].
      pose proof (wf_n _ _ W'). lia.
    + destruct HD as (-> & _). eauto.
  - intros Hslot.
    assert (Hsn : slow_slot b = n).
    { pose proof (wf_n _ _ W). pose proof (wf_pos _ _ W).
      unfold slow_slot in *. destruct (len_at b (ob_pos b) >? 0) eqn:E; [|lia].
      rewrite Z.gtb_ltb in E. apply Z.ltb_lt in E.
      destruct (decide (ob_pos b = n)) as [Hp|Hp]; [|lia].
      rewrite Hp, (wf_sent_len _ _ W) in E. lia. }
    destruct (obuf_reserve_slow NDEBUG region_admits size b) as [p b'|e b'| | |];
      simpl in HR; try done.
    + destruct HR as (n' & W' & _ & Hn' & Hpos' & _ & Hcap' & _).
      pose proof (wf_n _ _ W'). pose proof (wf_pos _ _ W').
      assert (n' = n) as -> by lia.
      rewrite Hpos', Hsn, (wf_sent_cap _ _ W') in Hcap'. lia.
    + destruct HR as (-> & _). eauto.
    + destruct HR as (_ & Hlt & _). lia.
  - by apply obuf_init_pos_max.
Qed.

End ObufProperties.

(** The round trip on the two chunks of the scenario: the appends
    return, and the segments spell the 100 bytes followed by the 50. *)
Lemma obuf_dup_roundtrip_witness :
  exists b,
    (obuf_create (Region []) 128 ;;;
     obuf_dup_all false Scenario.admits_all
       [Scenario.bytes 100 x61; Scenario.bytes 50 x62]) Scenario.raw = Ret tt b /\
    obuf_content b = Scenario.bytes 100 x61 ++ Scenario.bytes 50 x62 /\
    ob_size b = 150.
Proof.
  assert (H := obuf_dup_roundtrip false Scenario.admits_all Scenario.raw (Region []) 128
                 (Scenario.bytes 100 x61 ++ Scenario.bytes 50 x62)
                 [Scenario.bytes 100 x61; Scenario.bytes 50 x62]
                 eq_refl eq_refl).
  destruct ((obuf_create (Region []) 128 ;;;
             obuf_dup_all false Scenario.admits_all
               [Scenario.bytes 100 x61; Scenario.bytes 50 x62]) Scenario.raw)
    as [[] b|e b| | |] eqn:E; try (vm_compute in E; discriminate).
  exists b. split; [reflexivity|]. apply H.
  - unfold REQ_MAX. lia.
  - repeat constructor; vm_compute; discriminate.
  - reflexivity.
Defined.

Section SavepointLaw.
Variable NDEBUG : bool.
Variable region_admits : region -> Z -> bool.

(** C1, as the code has it. After any appends A, take a savepoint with
    [obuf_create_svp] or [obuf_book], append B through [obuf_dup] and
    [obuf_alloc], and roll back: the buffer is well formed, its size is
    the size after A, every segment up to the one that was current after
    A holds the bytes and the length it had after A, and so [writev]
    would send what it would have sent after A. The current segment is
    the one recorded in the savepoint: the one after A for
    [obuf_create_svp]; for [obuf_book] the one after A when the booked
    bytes fit into it or it is empty, and the next one when they do not
    fit and it holds data. One more append of C, through [obuf_dup] or
    through [obuf_alloc], either returns with the contents after A
    followed by C and the size after A plus the length of C, which is
    what the same append gives without B when it returns; or raises out
    of memory; or, through [obuf_alloc] with asserts compiled in, stops
    at an assert. *)
Theorem obuf_savepoint_rollback (c : capture) n sA svp s1 (B : list append_op) sB :
  wf_at n sA ->
  match c with ByCreateSvp => True | ByBook size => 0 <= size <= REQ_MAX end ->
  Forall (fun op => Z.of_nat (length (op_data op)) <= REQ_MAX) B ->
  capture_svp NDEBUG region_admits c sA = Ret svp s1 ->
  run_appends NDEBUG region_admits B s1 = Ret tt sB ->
  exists sR, obuf_rollback_to_svp svp sB = Ret tt sR /\
    obuf_wf sR /\
    ob_size sR = ob_size sA /\
    ob_pos sR = svp_pos svp /\
    (c = ByCreateSvp -> ob_pos sR = ob_pos sA) /\
    (forall size, c = ByBook size ->
       ob_pos sR =
         if (len_at sA (ob_pos sA) + size <=? cap_at sA (ob_pos sA))
            || (len_at sA (ob_pos sA) =? 0)
         then ob_pos sA else S (ob_pos sA)) /\
    (forall i, (i <= ob_pos sA)%nat ->
       len_at sR i = len_at sA i /\ seg_bytes sR i = seg_bytes sA i) /\
    obuf_content sR = obuf_content sA /\
    (forall C : append_op, Z.of_nat (length (op_data C)) <= REQ_MAX ->
       match run_append NDEBUG region_admits C sR with
       | Ret _ s' =>
           obuf_wf s' /\
           obuf_content s' = obuf_content sA ++ op_data C /\
           ob_size s' = ob_size sA + Z.of_nat (length (op_data C)) /\
           (forall s'', run_append NDEBUG region_admits C sA = Ret tt s'' ->
              obuf_content s'' = obuf_content s' /\ ob_size s'' = ob_size s')
       | Throw e _ => e = OutOfMemory
       | Abort => NDEBUG = false /\ exists data, C = AppAlloc data
       | _ => False
       end).
Proof.
  intros W Hc HB Hcap Hrun.
  (* the state the savepoint describes *)
  assert (Hsv : exists n0 s0 d0 n1, wf_at n0 s0 /\ grows sA [] s0 /\
            (forall i, (i <= ob_pos sA)%nat -> len_at s0 i = len_at sA i) /\
            svp = svp_of s0 /\ wf_at n1 s1 /\ grows s0 d0 s1 /\
            (c = ByCreateSvp -> s0 = sA)).
  { destruct c as [|size]; simpl in Hcap.
    - rewrite obuf_create_svp_eq in Hcap
        by (rewrite (wf_liov _ _ W); pose proof (wf_pos _ _ W); pose proof (wf_n _ _ W); lia).
      injection Hcap as <- <-. exists n, sA, [], n.
      split_and!; try done; apply grows_refl.
    - destruct (obuf_book_spec NDEBUG region_admits n sA size svp s1 W Hc Hcap)
        as (n' & b1 & d & W1 & G1 & Hkeep & Hsvp & W2 & G2).
      exists n', b1, d, n'. done. }
  destruct Hsv as (n0 & s0 & d0 & n1 & W0 & G0 & Hkeep & Hsvp & W1 & G1 & Hsame).
  pose proof (run_appends_spec NDEBUG region_admits B n1 s1 W1 HB) as HR.
  rewrite Hrun in HR. destruct HR as (nB & WB & GB).
  destruct (rollback_restores n0 s0 _ nB sB W0 WB (grows_trans _ _ _ _ _ G1 GB))
    as (sR & Heq & WR & Hpos & Hsize & Hseg & Hcont).
  rewrite <- Hsvp in Heq.
  assert (Hpsvp : ob_pos sR = svp_pos svp) by (by rewrite Hpos, Hsvp).
  assert (HcontA : obuf_content sR = obuf_content sA).
  { by rewrite Hcont, (g_content _ _ _ G0), app_nil_r. }
  assert (HsizeA : ob_size sR = ob_size sA).
  { rewrite Hsize, (g_size _ _ _ G0). simpl. lia. }
  exists sR.
  split; [exact Heq|]. split; [by exists nB|]. split; [exact HsizeA|].
  split; [exact Hpsvp|].
  split; [intros E; by rewrite Hpos, (Hsame E)|].
  split; [|split; [|split; [exact HcontA|]]].
  - (* where [obuf_book] leaves the buffer *)
    intros size ->. simpl in Hcap, Hc.
    rewrite Hpsvp, (obuf_book_pos NDEBUG region_admits n sA size svp s1 W Hc Hcap).
    pose proof (wf_len_le_cap n sA (ob_pos sA) W (wf_pos _ _ W)) as Hlen.
    unfold slow_slot.
    destruct (len_at sA (ob_pos sA) + size <=? cap_at sA (ob_pos sA)); [done|].
    simpl. destruct (len_at sA (ob_pos sA) =? 0) eqn:E0.
    + apply Z.eqb_eq in E0. by rewrite E0.
    + apply Z.eqb_neq in E0.
      by replace (len_at sA (ob_pos sA) >? 0) with true by (symmetry; apply Z.gtb_lt; lia).
  - intros i Hi. pose proof (g_pos _ _ _ G0) as Hp0.
    destruct (Hseg i ltac:(lia)) as [Hl Hb]. rewrite Hl, Hb, (Hkeep i Hi).
    split; [done|].
    rewrite <- (g_bytes _ _ _ G0 i Hi), <- (Hkeep i Hi). symmetry.
    apply seg_bytes_take_self.
  - (* one more append *)
    intros C HC.
    pose proof (run_append_spec NDEBUG region_admits nB sR C WR HC) as H1.
    destruct (run_append NDEBUG region_admits C sR) as [[] s'|e s'| | |] eqn:E1;
      simpl in H1; try done.
    + destruct H1 as (n' & W' & G' & _).
      split_and!.
      * by exists n'.
      * by rewrite (g_content _ _ _ G'), HcontA.
      * by rewrite (g_size _ _ _ G'), HsizeA.
      * intros s'' E2.
        pose proof (run_append_spec NDEBUG region_admits n sA C W HC) as H2.
        rewrite E2 in H2. simpl in H2. destruct H2 as (n'' & _ & G'' & _).
        rewrite (g_content _ _ _ G''), (g_size _ _ _ G'').
        by rewrite (g_content _ _ _ G'), (g_size _ _ _ G'), HcontA, HsizeA.
    + by destruct H1.
    + apply (run_append_abort NDEBUG region_admits nB sR C WR HC E1).
Qed.

End SavepointLaw.

(** C1 as stated does not hold for [obuf_book]: when the booked bytes do
    not fit into a current segment that holds data, the savepoint records
    the next segment, and a rollback leaves the buffer there and not at
    the current segment of the state after A. Here A is the append of 100
    bytes, which leaves the buffer at segment 0, and the rollback right
    after [obuf_book(buf, 50)] leaves it at segment 1. *)
Lemma obuf_book_rollback_moves_pos :
  exists svp s1 sR,
    obuf_book false Scenario.admits_all 50 SavepointExample.sA = Ret svp s1 /\
    obuf_rollback_to_svp svp s1 = Ret tt sR /\
    ob_pos SavepointExample.sA = 0%nat /\ ob_pos sR = 1%nat /\
    ob_pos sR <> ob_pos SavepointExample.sA.
Proof.
  exists SavepointExample.svp, SavepointExample.s_booked.
  eexists. split; [vm_compute; reflexivity|].
  split; [vm_compute; reflexivity|].
  split_and!; vm_compute; congruence.
Qed.

Section Assertions.
Variable region_admits : region -> Z -> bool.

Lemma obuf_reserve_fits NDEBUG n b size :
  wf_at n b -> 0 <= size <= REQ_MAX ->
  len_at b (ob_pos b) + size <= cap_at b (ob_pos b) ->
  obuf_reserve NDEBUG region_admits size b =
  Ret (ptr_add (base_at b (ob_pos b)) (len_at b (ob_pos b))) b.
Proof.
  intros W Hsize Hfit.
  pose proof (wf_liov _ _ W) as Hli. pose proof (wf_lcap _ _ W) as Hlc.
  pose proof (wf_pos _ _ W) as Hpn. pose proof (wf_n _ _ W) as Hn.
  pose proof (wf_len_le_cap n b (ob_pos b) W Hpn) as Hlen.
  unfold obuf_reserve.
  mgets. mstep (get_iov_eq b (ob_pos b) ltac:(lia)).
  mstep (get_capacity_eq b (ob_pos b) ltac:(lia)).
  rewrite <- ?len_at_eq, <- ?base_at_eq.
  assert (Hc63 : cap_at b (ob_pos b) <= 2 ^ 63).
  { destruct (decide (ob_pos b < n)%nat) as [Hp|Hp].
    - destruct (wf_seg _ _ W _ Hp). pose proof (cap_bound_seg (ob_pos b) ltac:(lia)). lia.
    - assert (ob_pos b = n) as Hpe by lia. rewrite Hpe, (wf_sent_cap _ _ W). lia. }
  rewrite wrap_small by (unfold REQ_MAX in *; lia).
  replace (len_at b (ob_pos b) + size >? cap_at b (ob_pos b)) with false; [done|].
  symmetry. rewrite Z.gtb_ltb. apply Z.ltb_ge. lia.
Qed.

(** C3, where the code departs from it. With asserts compiled in,
    reserving [n] bytes, storing them and calling [obuf_alloc(n)] aborts
    when the [n] bytes fill the current segment to its last byte:
    [obuf_alloc] asserts [iov_len < capacity], where [obuf_reserve] and
    the asserts of [obuf_reserve_slow] and [obuf_dup] allow
    [iov_len == capacity]. *)
Theorem obuf_alloc_exact_fit_aborts n b (data : list byte) :
  wf_at n b -> data <> [] -> Z.of_nat (length data) <= REQ_MAX ->
  exact_fit b (Z.of_nat (length data)) ->
  reserve_store_alloc false region_admits data b = Abort.
Proof.
  intros W Hne Hdata Hfit.
  pose proof (reserve_store_alloc_spec false region_admits n b data W Hne Hdata) as HS.
  pose proof (obuf_reserve_fits false n b (Z.of_nat (length data)) W ltac:(lia)
                ltac:(unfold exact_fit in Hfit; lia)) as HR.
  destruct (reserve_store_alloc false region_admits data b) as [p b'|e b'| | |];
    try done.
  - destruct HS as (n' & b1 & _ & _ & HR' & _ & Hnot).
    rewrite HR in HR'. injection HR' as _ <-. by destruct (Hnot eq_refl).
  - destruct HS as (_ & _ & _ & HR'). by rewrite HR in HR'.
Qed.

(** With asserts compiled out the contract of C3 holds, exact fit
    included: the call returns (or the allocator is out of memory), the
    size grows by [n], what the buffer held is still there, followed by
    the [n] bytes, and these are at the pointer that was returned. *)
Lemma reserve_store_alloc_release n b (data : list byte) :
  wf_at n b -> data <> [] -> Z.of_nat (length data) <= REQ_MAX ->
  match reserve_store_alloc true region_admits data b with
  | Ret p b' =>
      obuf_wf b' /\ ob_size b' = ob_size b + Z.of_nat (length data) /\
      obuf_content b' = obuf_content b ++ data /\
      mem_read (r_blocks (ob_pool b')) p (Z.of_nat (length data)) = Some data
  | Throw e b' => e = OutOfMemory /\ obuf_wf b' /\ obuf_content b' = obuf_content b
  | _ => False
  end.
Proof.
  intros W Hne Hdata.
  pose proof (reserve_store_alloc_spec true region_admits n b data W Hne Hdata) as HS.
  destruct (reserve_store_alloc true region_admits data b) as [p b'|e b'| | |]; try done.
  - destruct HS as (n' & b1 & W' & G & _ & Hrd & _).
    split_and!; [by exists n'|apply (g_size _ _ _ G)|apply (g_content _ _ _ G)|done].
  - destruct HS as (-> & W' & G & _). split_and!; [done|by exists n|].
    by rewrite (g_content _ _ _ G), app_nil_r.
  - by destruct HS.
Qed.

(** C6, where the code departs from it. With asserts compiled in,
    [obuf_reserve_slow] aborts when the current segment holds data and
    the next one is allocated but too small: the call of
    [obuf_alloc_pos] under "Simply realloc." runs into
    [assert(buf->capacity[pos] == 0)]. *)
Theorem obuf_reserve_slow_realloc_aborts n b size :
  wf_at n b -> 0 < len_at b (ob_pos b) -> (S (ob_pos b) < n)%nat ->
  cap_at b (S (ob_pos b)) < size <= REQ_MAX ->
  obuf_reserve_slow false region_admits size b = Abort.
Proof.
  intros W Hlen Hnext Hsize.
  destruct (wf_seg _ _ W _ Hnext) as [Hc0 _ _ _ _].
  pose proof (obuf_reserve_slow_spec false region_admits n b size W ltac:(lia)) as HR.
  assert (Hslot : slow_slot b = S (ob_pos b)).
  { unfold slow_slot. replace (len_at b (ob_pos b) >? 0) with true; [done|].
    symmetry. rewrite Z.gtb_ltb. by apply Z.ltb_lt. }
  destruct (obuf_reserve_slow false region_admits size b) as [p b'|e b'| | |];
    simpl in HR; try done.
  - destruct HR as (n' & _ & _ & _ & _ & _ & _ & _ & _ & Hpath).
    rewrite Hslot in Hpath. destruct Hpath as [?|[?|?]]; try done; lia.
  - destruct HR as (_ & _ & _ & _ & _ & Hpath).
    rewrite Hslot in Hpath. destruct Hpath as [?|?]; try done; lia.
Qed.

(** With asserts compiled out the call does what C6 says: it gives the
    next slot a fresh block of at least [size] bytes and returns its
    address, unless the allocator is out of memory. *)
Lemma obuf_reserve_slow_realloc_release n b size :
  wf_at n b -> 0 < len_at b (ob_pos b) -> (S (ob_pos b) < n)%nat ->
  cap_at b (S (ob_pos b)) < size <= REQ_MAX ->
  match obuf_reserve_slow true region_admits size b with
  | Ret p b' =>
      obuf_wf b' /\ ob_pos b' = S (ob_pos b) /\ size <= cap_at b' (ob_pos b') /\
      exists k blk, p = Some (k, 0) /\ r_blocks (ob_pool b') !! k = Some blk /\
                    Z.of_nat (length blk) = cap_at b' (ob_pos b')
  | Throw e b' => e = OutOfMemory /\ exists r c, region_admits r c = false
  | _ => False
  end.
Proof.
  intros W Hlen Hnext Hsize.
  destruct (wf_seg _ _ W _ Hnext) as [Hc0 _ _ _ _].
  pose proof (obuf_reserve_slow_spec true region_admits n b size W ltac:(lia)) as HR.
  assert (Hslot : slow_slot b = S (ob_pos b)).
  { unfold slow_slot. replace (len_at b (ob_pos b) >? 0) with true; [done|].
    symmetry. rewrite Z.gtb_ltb. by apply Z.ltb_lt. }
  destruct (obuf_reserve_slow true region_admits size b) as [p b'|e b'| | |];
    simpl in HR; try done.
  - destruct HR as (n' & W' & _ & _ & Hpos' & Hlen' & Hcap' & -> & _).
    rewrite Hslot in Hpos'.
    assert (Hp' : (ob_pos b' < n')%nat).
    { pose proof (wf_pos _ _ W'). destruct (decide (ob_pos b' < n')%nat); [done|].
      assert (ob_pos b' = n') as Hpe by lia. rewrite Hpe, (wf_sent_cap _ _ W') in Hcap'. lia. }
    destruct (wf_seg _ _ W' _ Hp') as [_ _ _ _ (k & blk & Hb & Hk & Hl)].
    split_and!; [by exists n'|done|done|].
    exists k, blk. rewrite Hb. done.
  - destruct HR as (-> & _ & _ & _ & [[Hs _]|Hr] & _); [lia|done].
  - by destruct HR.
Qed.

End Assertions.

Section IbufProperties.
Variable NDEBUG : bool.
Variable iobuf_readahead : Z.
Variable slab_supply : slab_cache -> Z -> option Z.

Lemma ibuf_reserve_enough b size :
  ibuf_wf b -> size <= ibuf_free b ->
  ibuf_reserve NDEBUG iobuf_readahead slab_supply size b = Ret tt b.
Proof.
  intros W Hfree. unfold ibuf_reserve. mstep (ibuf_unused_eq b W).
  by replace (size <=? ibuf_free b) with true by (symmetry; apply Z.leb_le; lia).
Qed.

(** C5. Input defragmentation. When the unconsumed bytes and [n] more
    fit into the capacity, [ibuf_reserve(n)] returns without asking the
    slab cache for anything: [buf] and [capacity] are what they were and
    no slab was handed out. Whenever it takes the de-fragmenting path
    (the room after [end] is too small and the code's test
    [size + current_size <= capacity] holds), it leaves [pos == buf],
    [ibuf_size] unchanged and the unconsumed bytes [pos, end) what they
    were. *)
Theorem ibuf_reserve_defragments b n :
  ibuf_wf b -> 0 <= n <= SIZE_MAX ->
  (ibuf_used b + n <= ib_capacity b ->
     exists b', ibuf_reserve NDEBUG iobuf_readahead slab_supply n b = Ret tt b' /\
       ib_buf b' = ib_buf b /\ ib_capacity b' = ib_capacity b /\
       length (sc_slabs (ib_slabc b')) = length (sc_slabs (ib_slabc b)) /\
       ibuf_used b' = ibuf_used b /\ ibuf_data b' = ibuf_data b) /\
  (ibuf_free b < n -> wrap (n + ibuf_used b) <= ib_capacity b ->
     exists b', ibuf_reserve NDEBUG iobuf_readahead slab_supply n b = Ret tt b' /\
       ib_pos b' = ib_buf b' /\ ib_buf b' = ib_buf b /\
       ibuf_size NDEBUG b' = Ret (ibuf_used b) b' /\
       ibuf_size NDEBUG b = Ret (ibuf_used b) b /\
       ibuf_data b' = ibuf_data b).
Proof.
  intros W Hn.
  pose proof (ibuf_used_bounds b W) as Hu. pose proof (ibuf_cap_bound b W) as Hc.
  assert (Hdefrag : ibuf_free b < n -> wrap (n + ibuf_used b) <= ib_capacity b ->
     exists b', ibuf_reserve NDEBUG iobuf_readahead slab_supply n b = Ret tt b' /\
       ibuf_wf b' /\ ib_buf b' = ib_buf b /\ ib_capacity b' = ib_capacity b /\
       length (sc_slabs (ib_slabc b')) = length (sc_slabs (ib_slabc b)) /\
       ib_pos b' = ib_buf b' /\ ibuf_used b' = ibuf_used b /\ ibuf_data b' = ibuf_data b).
  { intros Hfree Hcap. by apply ibuf_defrag. }
  split.
  - intros Hfit. destruct (decide (n <= ibuf_free b)) as [Hfree|Hfree].
    + exists b. split; [by apply ibuf_reserve_enough|done].
    + destruct Hdefrag as (b' & Heq & _ & ? & ? & ? & _ & ? & ?); [lia| |by exists b'].
      rewrite wrap_small; unfold SIZE_MAX in *; lia.
  - intros Hfree Hcap.
    destruct (Hdefrag Hfree Hcap) as (b' & Heq & W' & ? & _ & _ & ? & Hu' & ?).
    exists b'. split_and!; try done.
    + rewrite <- Hu'. by apply ibuf_size_eq.
    + by apply ibuf_size_eq.
Qed.

Lemma no_throw_ret {S A} (a : A) : no_throw (@ret S A a).
Proof. by intros s e s'. Qed.

Lemma no_throw_gets {S A} (f : S -> A) : no_throw (gets f).
Proof. by intros s e s'. Qed.

Lemma no_throw_modify {S} (f : S -> S) : no_throw (modify f).
Proof. by intros s e s'. Qed.

Lemma no_throw_bind {S A B} (m : M S A) (k : A -> M S B) :
  no_throw m -> (forall a, no_throw (k a)) -> no_throw (bind m k).
Proof.
  intros Hm Hk s e s'. unfold bind. destruct (m s) as [a s1|e1 s1| | |] eqn:E; try done.
  - apply Hk.
  - by destruct (Hm _ _ _ E).
Qed.

Lemma no_throw_ibuf_move dst src n : no_throw (ibuf_move dst src n).
Proof.
  intros s e s'. unfold ibuf_move.
  destruct (mem_read _ _ _); [|done]. by destruct (mem_write _ _ _).
Qed.

(** What is raised before a part that raises nothing is what the whole
    raises. *)
Lemma throw_through_bind {S A B} (m : M S A) (k : A -> M S B) s e s' (P : Prop) :
  (forall a, no_throw (k a)) ->
  (m s = Throw e s' -> P) ->
  bind m k s = Throw e s' -> P.
Proof.
  intros Hk Hm. unfold bind. destruct (m s) as [a s1|e1 s1| | |] eqn:E; try done.
  - intros H. by destruct (Hk _ _ _ _ H).
  - intros [= <- <-]. by apply Hm.
Qed.

(** C10. Failure atomicity of [ibuf_reserve]. Whenever [ibuf_reserve]
    raises, it raises OutOfMemory and the buffer is exactly the one it
    was called on: [slabc], [buf], [pos], [end], [capacity] and the
    memory behind them. And it does raise when the buffer has to grow
    and the slab cache has no slab for the new capacity. *)
Theorem ibuf_reserve_failure_atomic b n :
  (forall e b', ibuf_reserve NDEBUG iobuf_readahead slab_supply n b = Throw e b' ->
     e = OutOfMemory /\ b' = b) /\
  (forall c, ibuf_wf b -> ibuf_free b < n -> ib_capacity b < wrap (n + ibuf_used b) ->
     ibuf_new_capacity iobuf_readahead b n = Some c -> slab_supply (ib_slabc b) c = None ->
     ibuf_reserve NDEBUG iobuf_readahead slab_supply n b = Throw OutOfMemory b).
Proof.
  split.
  - intros e b'. unfold ibuf_reserve.
    unfold bind at 1.
    destruct (ibuf_unused b) as [a s|? ?| | |] eqn:E1; try done.
    2:{ unfold ibuf_unused in E1. by destruct (ptr_diff _ _). }
    assert (s = b) as ->.
    { unfold ibuf_unused in E1. destruct (ptr_diff _ _); [|done]. by injection E1. }
    destruct (n <=? a); [done|].
    unfold bind at 1.
    destruct (ibuf_size NDEBUG b) as [a0 s|? ?| | |] eqn:E2; try done.
    2:{ unfold ibuf_size in E2. destruct (ptr_diff _ _); [|done].
        unfold bind, assert_ in E2. destruct NDEBUG; [done|].
        unfold bind, ret in E2. by destruct (_ >=? 0). }
    assert (s = b) as ->.
    { unfold ibuf_size in E2. destruct (ptr_diff _ _); [|done].
      unfold bind, assert_ in E2. destruct NDEBUG; [by injection E2|].
      unfold bind, ret in E2. destruct (_ >=? 0); [by injection E2|done]. }
    mgets.
    apply throw_through_bind.
    { intros a1. apply no_throw_bind; [apply no_throw_modify|intros; apply no_throw_modify]. }
    destruct (wrap (n + a0) <=? ib_capacity b).
    + intros Hthrow. exfalso. revert Hthrow.
      apply no_throw_bind; [apply no_throw_gets|intros buf].
      apply no_throw_bind; [apply no_throw_gets|intros pos].
      apply no_throw_ibuf_move.
    + destruct (grow_ibuf 64 _ _) as [c|]; [|done].
      unfold bind at 1. unfold slab_get.
      destruct (slab_supply (ib_slabc b) c) as [cap|].
      * intros Hthrow. exfalso. revert Hthrow.
        apply no_throw_bind; [apply no_throw_gets|intros pos].
        apply no_throw_bind; [apply no_throw_ibuf_move|intros _].
        apply no_throw_bind; [apply no_throw_modify|intros _].
        apply no_throw_bind; [apply no_throw_gets|intros buf].
        apply no_throw_bind; [|intros _; apply no_throw_modify].
        destruct (decide (buf = NULL)); apply no_throw_ret.
      * unfold tnt_raise. by intros [= <- <-].
  - intros c W Hfree Hcap Hnew Hsup. unfold ibuf_reserve.
    mstep (ibuf_unused_eq b W).
    replace (n <=? ibuf_free b) with false by (symmetry; apply Z.leb_gt; lia).
    mstep (ibuf_size_eq NDEBUG b W). mgets.
    replace (wrap (n + ibuf_used b) <=? ib_capacity b) with false
      by (symmetry; apply Z.leb_gt; lia).
    unfold ibuf_new_capacity in Hnew. unfold bind at 1. rewrite Hnew.
    unfold bind at 1. unfold slab_get. rewrite Hsup. done.
Qed.

End IbufProperties.

(** * The properties of the input/output pair *)

Section IobufProperties.
Variable NDEBUG : bool.

Lemma iobuf_is_idle_eq io :
  ibuf_wf (io_in io) ->
  iobuf_is_idle NDEBUG io =
  Ret ((ibuf_used (io_in io) =? 0) && (ob_size (io_out io) =? 0) && (io_pins io =? 0)) io.
Proof.
  intros W. unfold iobuf_is_idle. unfold bind at 1. unfold on_in at 1.
  rewrite (ibuf_size_eq NDEBUG _ W). destruct io as [i o p]. simpl.
  destruct (ibuf_used i =? 0); [|done].
  unfold bind at 1. unfold on_out, obuf_size, gets. simpl.
  destruct (ob_size o =? 0); [|done]. done.
Qed.

(** C8. Idle and pinned. [iobuf_is_idle] returns true exactly when the
    input buffer has no unconsumed bytes, the output buffer has size 0
    and the pin count is 0. After [iobuf_pin] the unit is not idle,
    whatever its buffers hold (the pin count counts the pins taken and
    not yet released: it is not negative). After [iobuf_unpin] a unit
    with empty buffers and pin count 1 is idle. *)
Theorem iobuf_idle_iff_empty_unpinned io :
  ibuf_wf (io_in io) ->
  (exists r, iobuf_is_idle NDEBUG io = Ret r io /\
     (r = true <->
      ibuf_used (io_in io) = 0 /\ ob_size (io_out io) = 0 /\ io_pins io = 0)) /\
  (0 <= io_pins io <= INT_MAX ->
     exists io', iobuf_pin io = Ret tt io' /\
       io_in io' = io_in io /\ io_out io' = io_out io /\
       iobuf_is_idle NDEBUG io' = Ret false io') /\
  (ibuf_used (io_in io) = 0 -> ob_size (io_out io) = 0 -> io_pins io = 1 ->
     exists io', iobuf_unpin io = Ret tt io' /\
       iobuf_is_idle NDEBUG io' = Ret true io').
Proof.
  intros W. split_and!.
  - eexists. split; [by apply iobuf_is_idle_eq|].
    rewrite !andb_true_iff, !Z.eqb_eq. tauto.
  - intros Hp. eexists. split; [done|]. split_and!; try done.
    rewrite iobuf_is_idle_eq by done. simpl. f_equal.
    apply andb_false_intro2. apply Z.eqb_neq.
    unfold wrap_int, INT_MAX in *.
    destruct (decide (io_pins io = 2 ^ 31 - 1)) as [->|Hne]; [done|].
    rewrite Z.mod_small; lia.
  - intros Hi Ho Hp. eexists. split; [done|].
    rewrite iobuf_is_idle_eq by done. simpl. rewrite Hi, Ho, Hp. done.
Qed.

End IobufProperties.

(** * Further properties of the buffers *)

(** ** Size, segment count and reset *)

Lemma content_upto_length n b m :
  wf_at n b -> (m <= n)%nat -> Z.of_nat (length (content_upto b m)) = sum_len b m.
Proof.
  intros W. induction m as [|m IH]; intros Hm; [done|].
  rewrite content_upto_S, length_app, Nat2Z.inj_add, IH by lia. simpl.
  rewrite (seg_bytes_length b m); [done|]. apply (wf_seg _ _ W). lia.
Qed.

Lemma iovcnt_le n b : wf_at n b -> (iovcnt b <= n)%nat.
Proof.
  intros W. pose proof (wf_pos _ _ W) as Hp. unfold iovcnt.
  destruct (len_at b (ob_pos b) >? 0) eqn:E; [|done].
  rewrite Z.gtb_ltb in E. apply Z.ltb_lt in E.
  destruct (decide (ob_pos b = n)) as [Hpe|]; [|lia].
  rewrite Hpe, (wf_sent_len _ _ W) in E. lia.
Qed.

Lemma iovcnt_tail n b i : wf_at n b -> (iovcnt b <= i <= n)%nat -> len_at b i = 0.
Proof.
  intros W Hi. pose proof (wf_pos _ _ W) as Hp.
  pose proof (wf_len_le_cap n b (ob_pos b) W Hp) as Hl. unfold iovcnt in Hi.
  destruct (decide (i = n)) as [->|Hne]; [apply (wf_sent_len _ _ W)|].
  destruct (len_at b (ob_pos b) >? 0) eqn:E.
  - apply (wf_tail _ _ W). lia.
  - rewrite Z.gtb_ltb in E. apply Z.ltb_ge in E.
    destruct (decide (i = ob_pos b)) as [->|]; [lia|].
    apply (wf_tail _ _ W). lia.
Qed.

Lemma sum_len_from n b m :
  wf_at n b -> (iovcnt b <= m <= n)%nat -> sum_len b m = sum_len b (iovcnt b).
Proof.
  intros W. induction m as [|m IH]; intros Hm.
  - by replace (iovcnt b) with O by lia.
  - destruct (decide (iovcnt b = S m)) as [->|Hne]; [done|].
    simpl. rewrite IH by lia. rewrite (iovcnt_tail n b m W) by lia. lia.
Qed.

(** X1. On a well-formed buffer [obuf_size] is the number of bytes
    [writev] would send and [obuf_iovcnt] the number of segments that
    hold them; this number does not exceed the number of allocated
    segments, the lengths of these segments add up to the size, and
    every segment from there on is empty. *)
Theorem obuf_size_counts_content n b :
  wf_at n b ->
  obuf_size b = Ret (Z.of_nat (length (obuf_content b))) b /\
  obuf_iovcnt b = Ret (iovcnt b) b /\
  (iovcnt b <= n)%nat /\
  ob_size b = sum_len b (iovcnt b) /\
  (forall i, (iovcnt b <= i <= n)%nat -> len_at b i = 0).
Proof.
  intros W. pose proof (iovcnt_le n b W) as Hc.
  assert (Hs : ob_size b = sum_len b (iovcnt b)).
  { rewrite (wf_size _ _ W). apply (sum_len_from n); [done|lia]. }
  split_and!; try done.
  - unfold obuf_size, gets. f_equal. rewrite Hs.
    symmetry. by apply (content_upto_length n).
  - apply obuf_iovcnt_eq. rewrite (wf_liov _ _ W).
    pose proof (wf_pos _ _ W). pose proof (wf_n _ _ W). lia.
  - intros i Hi. by apply (iovcnt_tail n).
Qed.

(** [obuf_reset] *)
Lemma sum_len_zero b n : (forall i, (i < n)%nat -> len_at b i = 0) -> sum_len b n = 0.
Proof.
  induction n as [|n IH]; intros H; [done|]. simpl.
  rewrite IH by (intros; apply H; lia). rewrite H by lia. done.
Qed.

Lemma sum_cap_ext' b b' i n :
  (forall j, cap_at b' j = cap_at b j) -> sum_cap b' i n = sum_cap b i n.
Proof. intros H. apply sum_cap_ext. intros. apply H. Qed.

Lemma obuf_reset_spec n b :
  wf_at n b ->
  exists b', obuf_reset b = Ret tt b' /\ wf_at n b' /\
    ob_size b' = 0 /\ ob_pos b' = 0%nat /\ iovcnt b' = 0%nat /\ obuf_content b' = [] /\
    ob_pool b' = ob_pool b /\ ob_capacity b' = ob_capacity b /\
    ob_alloc_factor b' = ob_alloc_factor b /\
    (forall i, base_at b' i = base_at b i) /\
    (forall i, (i <= n)%nat -> len_at b' i = 0) /\
    room b' n = sum_cap b 0 n.
Proof.
  intros W.
  pose proof (wf_liov _ _ W) as Hli. pose proof (wf_pos _ _ W) as Hpn.
  pose proof (wf_n _ _ W) as Hn. pose proof (iovcnt_le n b W) as Hcnt.
  unfold obuf_reset. mstep (obuf_iovcnt_eq b ltac:(lia)).
  destruct (zero_iov_lens_spec (iovcnt b) 0 b ltac:(lia)) as (b1 & Heq & Z1).
  simpl in Heq. mstep Heq. mmodify. unfold modify.
  set (b' := with_size 0 (with_pos 0 b1)).
  destruct Z1 as [Zpool Zsize Zpos Zaf Zcap Zliov Ziov].
  assert (Hlen : forall i, (i <= n)%nat -> len_at b' i = 0).
  { intros i Hi. unfold b'. rewrite len_at_eq, iov_at_with_size, iov_at_with_pos, Ziov.
    destruct (decide (0 <= i < 0 + iovcnt b)%nat); [done|].
    rewrite <- len_at_eq. apply (iovcnt_tail n); [done|lia]. }
  assert (Hbase : forall i, base_at b' i = base_at b i).
  { intros i. unfold b'. rewrite (base_at_eq _ i), iov_at_with_size, iov_at_with_pos, Ziov.
    by destruct (decide (0 <= i < 0 + iovcnt b)%nat). }
  assert (Hcap : forall i, cap_at b' i = cap_at b i).
  { intros i. unfold b', cap_at. simpl. by rewrite Zcap. }
  assert (W' : wf_at n b').
  { apply (wf_at_update n b); try done.
    - unfold b'. simpl. rewrite Zcap. apply (wf_lcap _ _ W).
    - unfold b'. simpl. by rewrite Zliov.
    - simpl. lia.
    - intros i Hi. rewrite Hlen by lia. destruct (wf_seg _ _ W i Hi). lia.
    - by apply Hlen.
    - intros i Hi. apply Hlen. lia.
    - intros k blk Hk. exists blk. unfold b'. simpl. by rewrite Zpool.
    - unfold b'. simpl. symmetry. apply sum_len_zero. intros i Hi. apply Hlen. lia. }
  assert (Hic : iovcnt b' = 0%nat).
  { unfold iovcnt. change (ob_pos b') with 0%nat. by rewrite Hlen by lia. }
  exists b'. split_and!; try done.
  - unfold obuf_content. by rewrite Hic.
  - unfold room. change (ob_pos b') with 0%nat. rewrite Hlen by lia.
    rewrite (sum_cap_ext' b b') by done. lia.
Qed.

(** X2. [obuf_reset] empties a well-formed buffer and gives no memory
    back: size, position, segment count and contents are zero, the
    region, the capacities, the growth factor and the base pointers are
    what they were, and the whole capacity of the allocated segments is
    free room again. *)
Theorem obuf_reset_keeps_memory n b :
  wf_at n b ->
  exists b', obuf_reset b = Ret tt b' /\ wf_at n b' /\
    obuf_size b' = Ret 0 b' /\ obuf_iovcnt b' = Ret 0%nat b' /\
    ob_pos b' = 0%nat /\ obuf_content b' = [] /\
    ob_pool b' = ob_pool b /\ ob_capacity b' = ob_capacity b /\
    ob_alloc_factor b' = ob_alloc_factor b /\
    (forall i, base_at b' i = base_at b i) /\
    (forall i, (i <= n)%nat -> len_at b' i = 0) /\
    room b' n = sum_cap b 0 n.
Proof.
  intros W.
  destruct (obuf_reset_spec n b W)
    as (b' & Hr & W' & Hs & Hp & Hc & Hcont & Hpool & Hcap & Haf & Hbase & Hlen & Hroom).
  exists b'. split_and!; try done.
  - unfold obuf_size, gets. by rewrite Hs.
  - rewrite obuf_iovcnt_eq, Hc; [done|].
    rewrite (wf_liov _ _ W'), Hp. unfold IOBUF_IOV_MAX. lia.
Qed.

(** ** The input buffer *)

Lemma grow_ibuf_spec fuel : forall c need,
  0 < c < 2 ^ 64 -> need <= 2 ^ 63 -> 2 ^ 63 <= c * 2 ^ Z.of_nat fuel ->
  exists c', grow_ibuf fuel c need = Some c' /\
             need <= c' /\ c <= c' < 2 ^ 64 /\ (c' = c \/ c' < 2 * need).
Proof.
  induction fuel as [|fuel IH]; intros c need Hc Hneed Hf.
  - simpl in *. replace (c <? need) with false by (symmetry; apply Z.ltb_ge; lia).
    exists c. split_and!; try done; lia.
  - simpl. destruct (c <? need) eqn:E.
    + apply Z.ltb_lt in E. rewrite wrap_small by lia.
      destruct (IH (c * 2) need) as (c' & Hg & H1 & H2 & H3); try lia.
      { rewrite Nat2Z.inj_succ, Z.pow_succ_r in Hf by lia. lia. }
      exists c'. split_and!; try done; try lia.
    + apply Z.ltb_ge in E. exists c. split_and!; try done; lia.
Qed.

(** A buffer whose input starts at [buf]. *)
Lemma ibuf_pos_rebased b :
  ibuf_wf b -> ib_pos b = ib_buf b -> ibuf_pos b = Ret 0 b.
Proof.
  intros W Hpos. unfold ibuf_pos. rewrite Hpos.
  destruct W as [Hb Hp He Hc0|k blk p e Hb Hp He Hpe Hec Hcm Hk Hl]; rewrite Hb; simpl.
  - done.
  - rewrite decide_True by done. by rewrite Z.sub_diag.
Qed.

Section IbufMore.
Variable NDEBUG : bool.
Variable iobuf_readahead : Z.
Variable slab_supply : slab_cache -> Z -> option Z.

(** The path of [ibuf_reserve] that gets a bigger slab. *)
Lemma ibuf_grow b size c cap :
  ibuf_wf b -> 0 <= size -> ibuf_free b < size ->
  size + ibuf_used b <= 2 ^ 63 -> ib_capacity b < size + ibuf_used b ->
  grow_ibuf 64 (Z.max (wrap (ib_capacity b * 2)) (wrap iobuf_readahead))
            (size + ibuf_used b) = Some c ->
  slab_supply (ib_slabc b) c = Some cap -> size + ibuf_used b <= cap <= SIZE_MAX ->
  exists b', ibuf_reserve NDEBUG iobuf_readahead slab_supply size b = Ret tt b' /\
    ibuf_wf b' /\ ib_capacity b' = cap /\
    ib_buf b' = Some (length (sc_slabs (ib_slabc b)), 0) /\
    ib_pos b' = ib_buf b' /\
    ibuf_used b' = ibuf_used b /\ ibuf_free b' = cap - ibuf_used b /\
    ibuf_data b' = ibuf_data b.
Proof.
  intros W Hsize Hfree Hno Hcap Hgrow Hsup Hcapb.
  pose proof (ibuf_used_bounds b W) as Hu. pose proof (ibuf_cap_bound b W) as Hc.
  unfold ibuf_reserve.
  mstep (ibuf_unused_eq b W).
  replace (size <=? ibuf_free b) with false by (symmetry; apply Z.leb_gt; lia).
  mstep (ibuf_size_eq NDEBUG b W). mgets.
  rewrite (Z.add_comm (ibuf_used b) size).
  rewrite (wrap_small (size + ibuf_used b)) by lia.
  replace (size + ibuf_used b <=? ib_capacity b) with false
    by (symmetry; apply Z.leb_gt; lia).
  rewrite Hgrow. unfold bind at 1. unfold bind at 1. unfold slab_get. rewrite Hsup.
  cbv beta iota. mgets. simpl ib_pos.
  set (m := sc_slabs (ib_slabc b)).
  set (zeros := replicate (Z.to_nat cap) x00).
  assert (Hz : (m ++ [zeros]) !! length m = Some zeros).
  { rewrite lookup_app_r by lia. by rewrite Nat.sub_diag. }
  assert (Hzl : Z.of_nat (length zeros) = cap).
  { unfold zeros. rewrite length_replicate. lia. }
  destruct W as [Hb Hp He Hc0|k blk p e Hb Hp He Hpe Hec Hcm Hk Hl].
  - assert (Hu0 : ibuf_used b = 0) by (unfold ibuf_used; rewrite He, Hp; done).
    rewrite Hu0, Hp. unfold ibuf_move. simpl.
    unfold modify, bind, gets. simpl. rewrite Hb. simpl.
    eexists. split; [done|]. simpl.
    split_and!; try done.
    + eapply (ibuf_wf_slab _ (length m) zeros 0 (0 + 0)); simpl; try done; try lia.
    + unfold ibuf_used. simpl. rewrite decide_True by done. simpl. lia.
    + unfold ibuf_free. simpl. rewrite decide_True by done. simpl. lia.
    + unfold ibuf_data. simpl. rewrite He, Hp. simpl. rewrite decide_True by done. done.
  - assert (Hue : ibuf_used b = e - p).
    { unfold ibuf_used. rewrite He, Hp. simpl. by rewrite decide_True. }
    rewrite Hue in *. rewrite Hp.
    unfold ibuf_move. unfold bind at 1. cbv beta. simpl sc_slabs.
    assert (Hk1 : (m ++ [zeros]) !! k = Some blk) by (by apply lookup_app_l_Some).
    rewrite (mem_read_block' _ _ _ _ _ Hk1) by lia.
    set (bytes := take (Z.to_nat (e - p)) (drop (Z.to_nat p) blk)).
    assert (Hbl : length bytes = Z.to_nat (e - p)).
    { unfold bytes. rewrite length_take, length_drop. lia. }
    rewrite (mem_write_block _ _ _ _ _ Hz) by lia.
    cbv beta iota. unfold modify, bind, gets. simpl. rewrite Hb.
    rewrite decide_False by done. unfold slab_put, ret. simpl.
    eexists. split; [done|]. simpl.
    assert (Hk' : <[length m:=splice (Z.to_nat 0) bytes zeros]> (m ++ [zeros]) !! length m
                  = Some (splice 0 bytes zeros)).
    { apply list_lookup_insert_eq. rewrite length_app. simpl. lia. }
    split_and!; try done.
    + eapply (ibuf_wf_slab _ (length m) _ 0 (0 + (e - p))); simpl; try done; try lia.
      rewrite splice_length; lia.
    + unfold ibuf_used. simpl. rewrite decide_True by done. simpl. lia.
    + unfold ibuf_free. simpl. rewrite decide_True by done. simpl. lia.
    + unfold ibuf_data. simpl. rewrite He, Hp. simpl. rewrite !decide_True by done.
      fold m. rewrite (mem_read_block' _ _ _ _ _ Hk) by lia.
      rewrite (mem_read_block' _ _ _ _ _ Hk') by (rewrite ?splice_length; lia).
      f_equal. fold bytes. unfold splice. simpl.
      replace (0 + (e - p) - 0) with (e - p) by lia.
      change (Z.to_nat 0) with O. rewrite drop_0.
      rewrite take_app_length' by lia. done.
Qed.

(** X11. The contract of [ibuf_reserve] on a well-formed buffer, for a
    slab cache that hands out slabs of at least the size asked for: when
    it returns there are [n] free bytes after [end], the unconsumed
    bytes are the same, and the capacity is the old one or at least
    twice the old one and at least the readahead. With enough room
    after [end] it changes nothing; otherwise the input starts at [buf]
    afterwards, so [ibuf_pos] is 0. When it raises, it raises out of
    memory, nothing has changed and the capacity was too small. No
    other outcome is possible. *)
Theorem ibuf_reserve_ensures b n :
  ibuf_wf b -> 0 <= n -> n + ibuf_used b <= 2 ^ 63 ->
  0 < iobuf_readahead < 2 ^ 31 -> slab_honest slab_supply ->
  match ibuf_reserve NDEBUG iobuf_readahead slab_supply n b with
  | Ret _ b' =>
      ibuf_wf b' /\ n <= ibuf_free b' /\
      ibuf_used b' = ibuf_used b /\ ibuf_data b' = ibuf_data b /\
      (ib_capacity b' = ib_capacity b \/
       2 * ib_capacity b <= ib_capacity b' /\ iobuf_readahead <= ib_capacity b') /\
      (n <= ibuf_free b -> b' = b) /\
      (ibuf_free b < n -> ibuf_pos b' = Ret 0 b')
  | Throw e b' => e = OutOfMemory /\ b' = b /\ ib_capacity b < n + ibuf_used b
  | _ => False
  end.
Proof.
  intros W Hn Hno Hra Hhon.
  pose proof (ibuf_used_bounds b W) as Hu. pose proof (ibuf_cap_bound b W) as Hc.
  pose proof (ibuf_free_bounds b W) as Hf.
  destruct (decide (n <= ibuf_free b)) as [Hfit|Hfit].
  { assert (Heq : ibuf_reserve NDEBUG iobuf_readahead slab_supply n b = Ret tt b).
    { unfold ibuf_reserve. mstep (ibuf_unused_eq b W).
      by replace (n <=? ibuf_free b) with true by (symmetry; apply Z.leb_le; lia). }
    rewrite Heq. split_and!; try done; [by left|lia]. }
  destruct (decide (n + ibuf_used b <= ib_capacity b)) as [Hcap|Hcap].
  { destruct (ibuf_defrag NDEBUG iobuf_readahead slab_supply b n W)
      as (b' & Heq & W' & Hbuf & Hcap' & _ & Hpos & Hused & Hdata).
    - unfold SIZE_MAX. lia.
    - lia.
    - rewrite wrap_small; lia.
    - rewrite Heq.
      assert (Hfree' : ibuf_free b' = ib_capacity b' - ibuf_used b'); [|
        split_and!; try done; try lia; try (by left); intros _; by apply ibuf_pos_rebased].
      pose proof (ibuf_free_bounds b' W').
      destruct W' as [Hb' Hp' He' Hc0'|k blk p e Hb' Hp' He' Hpe Hec Hcm Hk Hl].
      + unfold ibuf_free, ibuf_used. rewrite Hb', He', Hp', Hc0'. done.
      + rewrite Hb' in Hpos. rewrite Hp' in Hpos. injection Hpos as ->.
        unfold ibuf_free, ibuf_used. rewrite Hb', He', Hp'. simpl.
        rewrite !decide_True by done. simpl. lia. }
  set (start := Z.max (wrap (ib_capacity b * 2)) (wrap iobuf_readahead)).
  assert (Hstart : 0 < start < 2 ^ 64 /\ 2 * ib_capacity b <= start /\ iobuf_readahead <= start).
  { unfold start. rewrite !wrap_small by lia. lia. }
  destruct (grow_ibuf_spec 64 start (n + ibuf_used b)) as (c & Hg & Hc1 & Hc2 & _);
    [lia|lia|change (Z.of_nat 64) with 64; lia|].
  destruct (slab_supply (ib_slabc b) c) as [cap|] eqn:Hsup.
  - pose proof (Hhon _ _ _ Hsup) as Hcapb.
    destruct (ibuf_grow b n c cap W) as (b' & Heq & W' & Hcap' & _ & Hpos & Hused & Hfree & Hdata);
      try done; try lia.
    rewrite Heq. split_and!; try done; try lia.
    intros _. by apply ibuf_pos_rebased.
  - assert (Heq : ibuf_reserve NDEBUG iobuf_readahead slab_supply n b = Throw OutOfMemory b).
    { unfold ibuf_reserve. mstep (ibuf_unused_eq b W).
      replace (n <=? ibuf_free b) with false by (symmetry; apply Z.leb_gt; lia).
      mstep (ibuf_size_eq NDEBUG b W). mgets.
      rewrite (Z.add_comm (ibuf_used b) n).
      rewrite (wrap_small (n + ibuf_used b)) by lia.
      replace (n + ibuf_used b <=? ib_capacity b) with false
        by (symmetry; apply Z.leb_gt; lia).
      fold start. rewrite Hg. unfold bind at 1. unfold bind at 1. unfold slab_get.
      rewrite Hsup. done. }
    rewrite Heq. split_and!; try done. lia.
Qed.

(** X12. The four measures of a well-formed input buffer return, and
    split the capacity: consumed bytes before [pos], [ibuf_size]
    unconsumed ones and [ibuf_unused] free ones after [end]. What is
    read between [pos] and [end] has [ibuf_size] bytes. *)
Theorem ibuf_measures b :
  ibuf_wf b ->
  exists p s u,
    ibuf_pos b = Ret p b /\ ibuf_size NDEBUG b = Ret s b /\
    ibuf_unused b = Ret u b /\ ibuf_capacity b = Ret (ib_capacity b) b /\
    0 <= p /\ 0 <= s /\ 0 <= u /\ p + s + u = ib_capacity b /\
    (forall data, ibuf_data b = Some data -> Z.of_nat (length data) = s).
Proof.
  intros W. exists (default 0 (ptr_diff (ib_pos b) (ib_buf b))), (ibuf_used b), (ibuf_free b).
  pose proof (ibuf_size_eq NDEBUG b W) as Hs. pose proof (ibuf_unused_eq b W) as Hu.
  destruct W as [Hb Hp He Hc0|k blk p e Hb Hp He Hpe Hec Hcm Hk Hl].
  - split_and!; try done.
    + unfold ibuf_pos. rewrite Hp, Hb. done.
    + rewrite Hp, Hb. done.
    + unfold ibuf_used. rewrite He, Hp. done.
    + unfold ibuf_free. rewrite Hb, He, Hc0. done.
    + unfold ibuf_used, ibuf_free. rewrite Hb, Hp, He, Hc0. done.
    + unfold ibuf_data, ibuf_used. rewrite He, Hp. simpl. by intros data [= <-].
  - split_and!; try done.
    + unfold ibuf_pos. rewrite Hp, Hb. simpl. rewrite decide_True by done.
      simpl. f_equal. apply wrap_small. unfold SIZE_MAX in *. lia.
    + rewrite Hp, Hb. simpl. rewrite decide_True by done. simpl. lia.
    + unfold ibuf_used. rewrite He, Hp. simpl. rewrite decide_True by done. simpl. lia.
    + unfold ibuf_free. rewrite Hb, He. simpl. rewrite decide_True by done. simpl. lia.
    + unfold ibuf_used, ibuf_free. rewrite Hb, Hp, He. simpl.
      rewrite !decide_True by done. simpl. lia.
    + unfold ibuf_data, ibuf_used. rewrite He, Hp. simpl. rewrite decide_True by done.
      simpl. rewrite (mem_read_block' _ _ _ _ _ Hk) by lia.
      intros data [= <-]. rewrite length_take, length_drop. lia.
Qed.

End IbufMore.

(** ** Units and their cache *)

Lemma ibuf_reset_wf b :
  ibuf_wf b ->
  exists b', ibuf_reset b = Ret tt b' /\ ibuf_wf b' /\
    ibuf_used b' = 0 /\ ibuf_free b' = ib_capacity b /\
    ib_capacity b' = ib_capacity b /\ ib_buf b' = ib_buf b /\ ib_slabc b' = ib_slabc b /\
    ibuf_data b' = Some [].
Proof.
  intros W. eexists. split; [done|]. simpl.
  destruct W as [Hb Hp He Hc0|k blk p e Hb Hp He Hpe Hec Hcm Hk Hl].
  - split_and!; try done.
    + apply ibuf_wf_null; simpl; by rewrite ?Hb.
    + unfold ibuf_used. simpl. by rewrite Hb.
    + unfold ibuf_free. simpl. by rewrite Hb, Hc0.
    + unfold ibuf_data. simpl. by rewrite Hb.
  - split_and!; try done.
    + apply (ibuf_wf_slab _ k blk 0 0); simpl; rewrite ?Hb; try done; lia.
    + unfold ibuf_used. simpl. rewrite Hb. simpl. rewrite decide_True by done. simpl. lia.
    + unfold ibuf_free. simpl. rewrite Hb. simpl. rewrite decide_True by done. simpl. lia.
    + unfold ibuf_data. simpl. rewrite Hb. simpl. rewrite decide_True by done. simpl.
      by rewrite Z.sub_diag.
Qed.

Section IobufMore.
Variable NDEBUG : bool.

(** X13. [iobuf_reset] always empties the output buffer, keeping its
    memory and the pins, and touches the input buffer only when all
    input is consumed: then the whole capacity is free again, otherwise
    the input buffer is as it was. With no input and no pins the unit
    is idle afterwards. *)
Theorem iobuf_reset_empties_output io n :
  ibuf_wf (io_in io) -> wf_at n (io_out io) ->
  exists io', iobuf_reset NDEBUG io = Ret tt io' /\
    io_pins io' = io_pins io /\
    wf_at n (io_out io') /\ ob_size (io_out io') = 0 /\ obuf_content (io_out io') = [] /\
    ob_pool (io_out io') = ob_pool (io_out io) /\
    ibuf_wf (io_in io') /\ ibuf_data (io_in io') = ibuf_data (io_in io) /\
    ib_capacity (io_in io') = ib_capacity (io_in io) /\
    (ibuf_used (io_in io) = 0 -> ibuf_free (io_in io') = ib_capacity (io_in io)) /\
    (ibuf_used (io_in io) <> 0 -> io_in io' = io_in io) /\
    (ibuf_used (io_in io) = 0 -> io_pins io = 0 -> iobuf_is_idle NDEBUG io' = Ret true io').
Proof.
  intros Wi Wo. destruct io as [i o p]. simpl in *.
  destruct (obuf_reset_spec n o Wo)
    as (o' & Ho & Wo' & Hs & _ & _ & Hc & Hpool & _).
  unfold iobuf_reset. unfold bind at 1. unfold on_in at 1. cbn [io_in io_out io_pins].
  rewrite (ibuf_size_eq NDEBUG i Wi). cbv beta iota.
  destruct (ibuf_used i =? 0) eqn:E.
  - apply Z.eqb_eq in E.
    destruct (ibuf_reset_wf i Wi) as (i' & Hi & Wi' & Hu' & Hf' & Hc' & _ & _ & Hd').
    unfold bind at 1. unfold on_in. cbn [io_in io_out io_pins]. rewrite Hi. cbv beta iota.
    unfold on_out. cbn [io_in io_out io_pins]. rewrite Ho.
    eexists. split; [done|]. simpl. split_and!; try done.
    + rewrite Hd'. unfold ibuf_data, ibuf_used in *.
      destruct (ptr_diff (ib_end i) (ib_pos i)) as [d|] eqn:Ed; simpl in E.
      * subst d. done.
      * destruct Wi as [Hb Hp He Hc0|k blk q e Hb Hp He Hpe Hec Hcm Hk Hl];
          rewrite He, Hp in Ed; simpl in Ed; [done|]. by rewrite decide_True in Ed.
    + intros _ Hp0. simpl in Hp0. subst p.
      rewrite (iobuf_is_idle_eq NDEBUG) by done. simpl. by rewrite Hu', Hs.
  - apply Z.eqb_neq in E.
    unfold bind at 1. unfold ret at 1. cbv beta iota.
    unfold on_out. cbn [io_in io_out io_pins]. rewrite Ho.
    eexists. split; [done|]. simpl. split_and!; try done.
Qed.

End IobufMore.

Section CacheProps.
Variable NDEBUG : bool.
Variable iobuf_readahead : Z.
Variable region_used : region -> Z.
Variable mempool_alloc : option iobuf.
Variable cord_slabc : slab_cache.

Lemma ceiling_nonneg : 0 <= wrap (iobuf_max_pool_size iobuf_readahead).
Proof. unfold wrap. apply Z.mod_pos_bound. lia. Qed.

Lemma ceiling_eq :
  0 < iobuf_readahead -> 18 * iobuf_readahead < 2 ^ 31 ->
  wrap (iobuf_max_pool_size iobuf_readahead) = 18 * iobuf_readahead.
Proof.
  intros H0 H1. unfold iobuf_max_pool_size, wrap_int.
  rewrite Z.mod_small by lia.
  replace (18 * iobuf_readahead + 2 ^ 31 - 2 ^ 31) with (18 * iobuf_readahead) by lia.
  apply wrap_small. lia.
Qed.

Lemma iobuf_trim_spec io n :
  0 < iobuf_readahead < 2 ^ 31 -> region_used (Region []) = 0 ->
  ibuf_wf (io_in io) -> wf_at n (io_out io) -> (NDEBUG = false -> io_pins io = 0) ->
  exists io', iobuf_trim NDEBUG iobuf_readahead region_used io = Ret tt io' /\
    io_pins io' = io_pins io /\
    ibuf_wf (io_in io') /\ ibuf_used (io_in io') = 0 /\
    obuf_wf (io_out io') /\ ob_size (io_out io') = 0 /\ obuf_content (io_out io') = [] /\
    ib_capacity (io_in io') <= wrap (iobuf_max_pool_size iobuf_readahead) /\
    region_used (ob_pool (io_out io')) <= wrap (iobuf_max_pool_size iobuf_readahead) /\
    (ib_capacity (io_in io) < wrap (iobuf_max_pool_size iobuf_readahead) ->
       ib_capacity (io_in io') = ib_capacity (io_in io) /\ ib_buf (io_in io') = ib_buf (io_in io)) /\
    (wrap (iobuf_max_pool_size iobuf_readahead) <= ib_capacity (io_in io) ->
       io_in io' = ibuf_create (ib_slabc (io_in io))) /\
    (region_used (ob_pool (io_out io)) < wrap (iobuf_max_pool_size iobuf_readahead) ->
       ob_pool (io_out io') = ob_pool (io_out io) /\
       ob_capacity (io_out io') = ob_capacity (io_out io) /\ wf_at n (io_out io')) /\
    (wrap (iobuf_max_pool_size iobuf_readahead) <= region_used (ob_pool (io_out io)) ->
       ob_pool (io_out io') = Region [] /\ wf_at 0 (io_out io') /\
       ob_alloc_factor (io_out io') = iobuf_readahead).
Proof.
  intros Hra Hru Wi Wo Hpins. destruct io as [i o p]. cbn [io_in io_out io_pins] in *.
  pose proof ceiling_nonneg as Hc0.
  set (ceiling := wrap (iobuf_max_pool_size iobuf_readahead)) in *.
  unfold iobuf_trim. fold ceiling.
  assert (Hassert : assert_ NDEBUG (q <- gets io_pins ;; ret (q =? 0)) (Iobuf i o p)
                    = Ret tt (Iobuf i o p)).
  { destruct NDEBUG; [done|]. apply assert_holds.
    unfold bind, gets, ret. cbn [io_pins]. by rewrite Hpins. }
  mstep Hassert.
  unfold bind at 1. unfold on_in at 1, ibuf_capacity, gets at 1. cbn [io_in io_out io_pins].
  (* the input buffer *)
  assert (Hin : exists i',
    (if ib_capacity i <? ceiling then on_in ibuf_reset
     else on_in ibuf_destroy ;;;
          modify (fun io => Iobuf (ibuf_create (ib_slabc (io_in io))) (io_out io) (io_pins io)))
      (Iobuf i o p) = Ret tt (Iobuf i' o p) /\
    ibuf_wf i' /\ ibuf_used i' = 0 /\ ib_capacity i' <= ceiling /\
    (ib_capacity i < ceiling -> ib_capacity i' = ib_capacity i /\ ib_buf i' = ib_buf i) /\
    (ceiling <= ib_capacity i -> i' = ibuf_create (ib_slabc i))).
  { destruct (ib_capacity i <? ceiling) eqn:E.
    - apply Z.ltb_lt in E.
      destruct (ibuf_reset_wf i Wi) as (i' & Hi & Wi' & Hu' & _ & Hc' & Hb' & _).
      exists i'. unfold on_in. cbn [io_in io_out io_pins]. rewrite Hi.
      split_and!; try done; lia.
    - apply Z.ltb_ge in E. exists (ibuf_create (ib_slabc i)).
      split_and!; try done; try lia.
      + unfold bind, on_in, ibuf_destroy, gets, modify. cbn [io_in io_out io_pins].
        unfold bind. by destruct (decide (ib_buf i = NULL)).
      + by apply ibuf_wf_null. }
  destruct Hin as (i' & Hin & Wi' & Hu' & Hcap' & Hkeep & Hdrop).
  mstep Hin. mgets. cbn [io_in io_out io_pins].
  (* the output buffer *)
  destruct (region_used (ob_pool o) <? ceiling) eqn:E.
  - apply Z.ltb_lt in E.
    destruct (obuf_reset_spec n o Wo)
      as (o' & Ho & Wo' & Hs & _ & _ & Hc & Hpool & Hcaps & _).
    unfold on_out. cbn [io_in io_out io_pins]. rewrite Ho.
    eexists. split; [done|]. cbn [io_in io_out io_pins].
    split_and!; try done; try lia.
    + by exists n.
    + rewrite Hpool. lia.
  - apply Z.ltb_ge in E.
    unfold bind at 1. unfold on_out at 1, modify at 1. cbn [io_in io_out io_pins].
    mgets. cbn [io_in io_out io_pins]. simpl ob_pool.
    destruct (obuf_create_spec (with_pool (region_free (ob_pool o)) o) (region_free (ob_pool o))
                (wrap iobuf_readahead))
      as (o' & Ho & Wo' & Hs & _ & Hc & Hpool & Haf).
    { simpl. apply (wf_lcap _ _ Wo). }
    { simpl. apply (wf_liov _ _ Wo). }
    { rewrite wrap_small by lia. unfold REQ_MAX. lia. }
    unfold on_out. cbn [io_in io_out io_pins]. rewrite Ho.
    eexists. split; [done|]. cbn [io_in io_out io_pins].
    split_and!; try done; try lia.
    + by exists 0%nat.
    + rewrite Hpool. unfold region_free. lia.
    + intros _. split_and!; try done. rewrite Haf. apply wrap_small. lia.
Qed.

(** X14. A unit without pins that is put back with [iobuf_delete] is
    the one the next [iobuf_new] hands out, idle and with both buffers
    empty and within the ceiling of 18 readaheads. Below the ceiling the
    input slab and the output memory are kept for reuse; at or above it
    the input buffer is a new one without memory and the region is
    empty. *)
Theorem iobuf_delete_then_new io cache n :
  0 < iobuf_readahead -> 18 * iobuf_readahead < 2 ^ 31 ->
  region_used (Region []) = 0 ->
  ibuf_wf (io_in io) -> wf_at n (io_out io) -> io_pins io = 0 ->
  exists io',
    iobuf_delete NDEBUG iobuf_readahead region_used io cache = Ret tt (io' :: cache) /\
    iobuf_new NDEBUG iobuf_readahead region_used mempool_alloc cord_slabc (io' :: cache)
      = Ret io' cache /\
    iobuf_is_idle NDEBUG io' = Ret true io' /\
    ibuf_wf (io_in io') /\ obuf_wf (io_out io') /\ obuf_content (io_out io') = [] /\
    ib_capacity (io_in io') <= 18 * iobuf_readahead /\
    region_used (ob_pool (io_out io')) <= 18 * iobuf_readahead /\
    (ib_capacity (io_in io) < 18 * iobuf_readahead ->
       ib_capacity (io_in io') = ib_capacity (io_in io) /\ ib_buf (io_in io') = ib_buf (io_in io)) /\
    (18 * iobuf_readahead <= ib_capacity (io_in io) ->
       io_in io' = ibuf_create (ib_slabc (io_in io))) /\
    (region_used (ob_pool (io_out io)) < 18 * iobuf_readahead ->
       ob_pool (io_out io') = ob_pool (io_out io) /\
       ob_capacity (io_out io') = ob_capacity (io_out io)) /\
    (18 * iobuf_readahead <= region_used (ob_pool (io_out io)) ->
       ob_pool (io_out io') = Region [] /\ ob_alloc_factor (io_out io') = iobuf_readahead).
Proof.
  intros Hr0 Hr18 Hru Wi Wo Hpins.
  assert (Hra : 0 < iobuf_readahead < 2 ^ 31) by lia.
  destruct (iobuf_trim_spec io n Hra Hru Wi Wo ltac:(done))
    as (io' & Heq & Hp' & Wi' & Hu' & Wo' & Hs' & Hc' & Hcap' & Hused' & H1 & H2 & H3 & H4).
  rewrite (ceiling_eq Hr0 Hr18) in *.
  exists io'. split_and!; try done.
  - unfold iobuf_delete. by rewrite Heq.
  - unfold iobuf_new, iobuf_new_checks. rewrite (ceiling_eq Hr0 Hr18).
    unfold bind at 1. rewrite assert_holds.
    2:{ unfold ret. f_equal. by apply Z.leb_le. }
    unfold bind at 1. rewrite assert_holds; [done|].
    unfold ret. f_equal. by apply Z.leb_le.
  - rewrite (iobuf_is_idle_eq NDEBUG) by done. rewrite Hu', Hs', Hp', Hpins. done.
  - intros H. by destruct (H3 H) as (? & ? & _).
  - intros H. by destruct (H4 H) as (? & _ & ?).
Qed.

(** X15. With an empty cache [iobuf_new] sets up the memory it gets
    from the pool, whatever that held: the unit is idle, has no pins,
    an input buffer without memory and an empty output buffer that has
    allocated nothing and grows from the readahead. *)
Theorem iobuf_new_fresh raw :
  0 < iobuf_readahead -> 18 * iobuf_readahead < 2 ^ 31 ->
  region_used (Region []) = 0 ->
  mempool_alloc = Some raw ->
  length (ob_capacity (io_out raw)) = IOBUF_IOV_MAX ->
  length (ob_iov (io_out raw)) = IOBUF_IOV_MAX ->
  exists io,
    iobuf_new NDEBUG iobuf_readahead region_used mempool_alloc cord_slabc [] = Ret io [] /\
    iobuf_is_idle NDEBUG io = Ret true io /\
    io_in io = ibuf_create cord_slabc /\ ib_capacity (io_in io) = 0 /\
    wf_at 0 (io_out io) /\ ob_pool (io_out io) = Region [] /\
    ob_alloc_factor (io_out io) = iobuf_readahead /\ io_pins io = 0.
Proof.
  intros Hr0 Hr18 Hru Hmem Hlc Hli. pose proof ceiling_nonneg as Hc0.
  assert (Hra : 0 < iobuf_readahead < 2 ^ 31) by lia.
  destruct (obuf_create_spec (io_out raw) region_create (wrap iobuf_readahead) Hlc Hli)
    as (o & Ho & Wo & Hs & _ & Hc & Hpool & Haf).
  { rewrite wrap_small by lia. unfold REQ_MAX. lia. }
  unfold iobuf_new. rewrite Hmem, Ho. unfold iobuf_new_checks. cbn [io_in io_out io_pins].
  unfold bind at 1. rewrite assert_holds.
  2:{ unfold ret. f_equal. apply Z.leb_le. rewrite Hpool. unfold region_create. lia. }
  unfold bind at 1. rewrite assert_holds.
  2:{ unfold ret. f_equal. apply Z.leb_le. simpl. lia. }
  eexists. split; [done|]. cbn [io_in io_out io_pins].
  split_and!; try done.
  - rewrite (iobuf_is_idle_eq NDEBUG) by (by apply ibuf_wf_null).
    cbn [io_in io_out io_pins]. by rewrite Hs.
  - rewrite Haf. apply wrap_small. lia.
Qed.

End CacheProps.

(** ** Nested savepoints *)

Lemma preserves_ret {X A} (f : obuf -> X) (a : A) : preserves f (ret a).
Proof. by intros b. Qed.

Lemma preserves_gets {X A} (f : obuf -> X) (g : obuf -> A) : preserves f (gets g).
Proof. by intros b. Qed.

Lemma preserves_modify {X} (f : obuf -> X) (g : obuf -> obuf) :
  (forall b, f (g b) = f b) -> preserves f (modify g).
Proof. intros H b. apply H. Qed.

Lemma preserves_bind {X A B} (f : obuf -> X) (m : M obuf A) (k : A -> M obuf B) :
  preserves f m -> (forall a, preserves f (k a)) -> preserves f (bind m k).
Proof.
  intros Hm Hk b. unfold bind. specialize (Hm b).
  destruct (m b) as [a b1|e b1| | |]; try done.
  specialize (Hk a b1). destruct (k a b1); try done; congruence.
Qed.

Lemma preserves_get_iov {X} (f : obuf -> X) i : preserves f (get_iov i).
Proof. intros b. unfold get_iov. by destruct (ob_iov b !! i). Qed.

Lemma preserves_get_capacity {X} (f : obuf -> X) i : preserves f (get_capacity i).
Proof. intros b. unfold get_capacity. by destruct (ob_capacity b !! i). Qed.

Lemma preserves_set_iov_len {X} (f : obuf -> X) i n :
  (forall v b, f (with_iov v b) = f b) -> preserves f (set_iov_len i n).
Proof. intros H b. unfold set_iov_len. destruct (ob_iov b !! i); [apply H|done]. Qed.

Lemma preserves_zero_iov_lens {X} (f : obuf -> X) from to :
  (forall v b, f (with_iov v b) = f b) -> preserves f (zero_iov_lens from to).
Proof.
  intros H. unfold zero_iov_lens. generalize (to - from)%nat as k. intros k. revert from.
  induction k as [|k IH]; intros from; simpl.
  - apply preserves_ret.
  - apply preserves_bind; [by apply preserves_set_iov_len|intros _; apply IH].
Qed.

Lemma obuf_rollback_keeps_af svp : preserves ob_alloc_factor (obuf_rollback_to_svp svp).
Proof.
  unfold obuf_rollback_to_svp, obuf_iovcnt.
  repeat first
    [ apply preserves_bind; [|intros ?]
    | apply preserves_gets | apply preserves_ret | apply preserves_get_iov
    | apply preserves_modify; done
    | apply preserves_set_iov_len; done
    | apply preserves_zero_iov_lens; done ].
Qed.

(** ** Savepoints nest *)

Lemma rollback_grows n0 s0 d1 n1 s1 d2 n2 s2 sR :
  wf_at n0 s0 -> wf_at n1 s1 -> wf_at n2 s2 ->
  grows s0 d1 s1 -> grows s1 d2 s2 ->
  obuf_rollback_to_svp (svp_of s1) s2 = Ret tt sR ->
  wf_at n2 sR /\ grows s0 d1 sR /\ obuf_content sR = obuf_content s1 /\
  ob_size sR = ob_size s1 /\ ob_pos sR = ob_pos s1.
Proof.
  intros W0 W1 W2 G1 G2 Heq.
  destruct (rollback_restores n1 s1 d2 n2 s2 W1 W2 G2)
    as (sR' & Heq' & WR & Hpos & Hsize & Hseg & Hcont).
  rewrite Heq in Heq'. injection Heq' as <-.
  pose proof (obuf_rollback_keeps_af (svp_of s1) s2) as Haf. rewrite Heq in Haf.
  pose proof (g_pos _ _ _ G1) as Hp01.
  split_and!; try done. split.
  - lia.
  - rewrite Haf, (g_af _ _ _ G2). apply (g_af _ _ _ G1).
  - rewrite Hcont. apply (g_content _ _ _ G1).
  - rewrite Hsize. apply (g_size _ _ _ G1).
  - intros i Hi. rewrite (proj1 (Hseg i ltac:(lia))). by apply (g_len_below _ _ _ G1).
  - rewrite (proj1 (Hseg (ob_pos s0) ltac:(lia))). apply (g_len_cur _ _ _ G1).
  - intros i Hi. rewrite (proj2 (Hseg i ltac:(lia))). by apply (g_bytes _ _ _ G1).
Qed.

Section Nest.
Variable NDEBUG : bool.
Variable region_admits : region -> Z -> bool.

(** X9. Savepoints nest. With a savepoint taken before a first run of
    appends and one taken before a second run, rolling back to the inner
    one restores the state between the runs, rolling back to the outer
    one after that restores the initial size, position and contents, and
    rolling back to the outer one directly gives the same buffer
    contents, segment by segment. *)
Theorem obuf_savepoints_nest n s0 (B1 B2 : list append_op) s1 s2 :
  wf_at n s0 ->
  Forall (fun op => Z.of_nat (length (op_data op)) <= REQ_MAX) B1 ->
  Forall (fun op => Z.of_nat (length (op_data op)) <= REQ_MAX) B2 ->
  run_appends NDEBUG region_admits B1 s0 = Ret tt s1 ->
  run_appends NDEBUG region_admits B2 s1 = Ret tt s2 ->
  exists svp0 svp1 sR1 sR0 sD,
    obuf_create_svp s0 = Ret svp0 s0 /\ obuf_create_svp s1 = Ret svp1 s1 /\
    obuf_rollback_to_svp svp1 s2 = Ret tt sR1 /\
    obuf_content sR1 = obuf_content s1 /\ ob_size sR1 = ob_size s1 /\
    obuf_rollback_to_svp svp0 sR1 = Ret tt sR0 /\
    obuf_wf sR0 /\ obuf_content sR0 = obuf_content s0 /\
    ob_size sR0 = ob_size s0 /\ ob_pos sR0 = ob_pos s0 /\
    obuf_rollback_to_svp svp0 s2 = Ret tt sD /\
    obuf_content sD = obuf_content sR0 /\ ob_size sD = ob_size sR0 /\
    ob_pos sD = ob_pos sR0 /\
    (forall i, (i <= ob_pos s0)%nat ->
       len_at sD i = len_at sR0 i /\ seg_bytes sD i = seg_bytes sR0 i).
Proof.
  intros W0 HB1 HB2 H1 H2.
  pose proof (run_appends_spec NDEBUG region_admits B1 n s0 W0 HB1) as R1.
  rewrite H1 in R1. destruct R1 as (n1 & W1 & G1).
  pose proof (run_appends_spec NDEBUG region_admits B2 n1 s1 W1 HB2) as R2.
  rewrite H2 in R2. destruct R2 as (n2 & W2 & G2).
  destruct (rollback_restores n1 s1 _ n2 s2 W1 W2 G2)
    as (sR1 & Heq1 & WR1 & Hpos1 & Hsize1 & Hseg1 & Hcont1).
  destruct (rollback_grows n s0 _ n1 s1 _ n2 s2 sR1 W0 W1 W2 G1 G2 Heq1)
    as (_ & GR1 & _).
  destruct (rollback_restores n s0 _ n2 sR1 W0 WR1 GR1)
    as (sR0 & Heq0 & WR0 & Hpos0 & Hsize0 & Hseg0 & Hcont0).
  destruct (rollback_restores n s0 _ n2 s2 W0 W2 (grows_trans _ _ _ _ _ G1 G2))
    as (sD & HeqD & WD & HposD & HsizeD & HsegD & HcontD).
  exists (svp_of s0), (svp_of s1), sR1, sR0, sD.
  assert (Hsvp : forall m s, wf_at m s -> obuf_create_svp s = Ret (svp_of s) s).
  { intros m s W. apply obuf_create_svp_eq. rewrite (wf_liov _ _ W).
    pose proof (wf_pos _ _ W). pose proof (wf_n _ _ W). lia. }
  split_and!; try done; try congruence.
  - by apply (Hsvp n).
  - by apply (Hsvp n1).
  - by exists n2.
  - intros i Hi. destruct (HsegD i Hi) as [-> ->]. by destruct (Hseg0 i Hi) as [-> ->].
Qed.

End Nest.

(** ** Data that stays in place *)

Lemma settled_refl b : settled b b.
Proof. split; try done; lia. Qed.

Lemma settled_trans b b' b'' : settled b b' -> settled b' b'' -> settled b b''.
Proof.
  intros [P1 L1 B1 C1] [P2 L2 B2 C2]. split.
  - lia.
  - intros i Hi. specialize (L1 i Hi). specialize (L2 i ltac:(lia)). lia.
  - intros i Hi Hl. rewrite B2, B1; try done; try lia. specialize (L1 i Hi). lia.
  - intros i Hi Hl. rewrite C2, C1; try done; try lia. specialize (L1 i Hi). lia.
Qed.

Lemma layout_kept_refl b : layout_kept b b.
Proof. done. Qed.

Lemma layout_kept_trans b b' b'' : layout_kept b b' -> layout_kept b' b'' -> layout_kept b b''.
Proof.
  intros (P1 & C1 & B1 & N1) (P2 & C2 & B2 & N2).
  split_and!; [congruence|congruence|intros i; by rewrite B2, B1|congruence].
Qed.

Lemma keeps_layout_ret {A} (a : A) : keeps_layout (ret a).
Proof. by intros b. Qed.

Lemma keeps_layout_gets {A} (g : obuf -> A) : keeps_layout (gets g).
Proof. by intros b. Qed.

Lemma keeps_layout_bind {A B} (m : M obuf A) (k : A -> M obuf B) :
  keeps_layout m -> (forall a, keeps_layout (k a)) -> keeps_layout (bind m k).
Proof.
  intros Hm Hk b. unfold bind. specialize (Hm b).
  destruct (m b) as [a b1|e b1| | |]; try done.
  specialize (Hk a b1). destruct (k a b1); try done; by apply (layout_kept_trans _ b1).
Qed.

Lemma keeps_layout_with_size f : keeps_layout (modify (fun b => with_size (f b) b)).
Proof. by intros b. Qed.

Lemma keeps_layout_get_iov i : keeps_layout (get_iov i).
Proof. intros b. unfold get_iov. by destruct (ob_iov b !! i). Qed.

Lemma keeps_layout_get_capacity i : keeps_layout (get_capacity i).
Proof. intros b. unfold get_capacity. by destruct (ob_capacity b !! i). Qed.

Lemma keeps_layout_assert {nd} (e : M obuf bool) : keeps_layout e -> keeps_layout (assert_ nd e).
Proof.
  intros He. unfold assert_. destruct nd; [apply keeps_layout_ret|].
  apply keeps_layout_bind; [done|]. intros [|]; [apply keeps_layout_ret|by intros b].
Qed.

Lemma keeps_layout_set_iov_len i n : keeps_layout (set_iov_len i n).
Proof.
  intros b. unfold set_iov_len. destruct (ob_iov b !! i) as [v|] eqn:E; [|done].
  split_and!; try done. intros j. unfold base_at, iov_at. simpl.
  destruct (decide (i = j)) as [->|Hne].
  - rewrite list_lookup_insert_eq by (by apply lookup_lt_Some in E). by rewrite E.
  - by rewrite list_lookup_insert_ne.
Qed.

Lemma mem_write_length m p data m' : mem_write m p data = Some m' -> length m' = length m.
Proof.
  unfold mem_write. destruct data as [|x data]; [by intros [= <-]|].
  destruct p as [[k o]|]; [|done]. destruct (m !! k); [|done].
  destruct (_ && _); [|done]. intros [= <-]. by rewrite length_insert.
Qed.

Lemma keeps_layout_memcpy p data n : keeps_layout (memcpy p data n).
Proof.
  intros b. unfold memcpy. destruct (_ || _); [done|].
  destruct (mem_write _ _ _) as [m'|] eqn:E; [|done].
  split_and!; try done. unfold blocks. simpl. by apply mem_write_length in E.
Qed.

Ltac layout :=
  repeat first
    [ apply keeps_layout_bind; [|intros ?]
    | apply keeps_layout_ret | apply keeps_layout_gets
    | apply keeps_layout_get_iov | apply keeps_layout_get_capacity
    | apply keeps_layout_set_iov_len | apply keeps_layout_memcpy
    | apply keeps_layout_with_size
    | apply keeps_layout_assert ].

(** From what the older lemmas give. *)
Lemma settled_of_grows b d b' :
  grows b d b' ->
  (forall i, (i <= ob_pos b)%nat -> 0 < len_at b i ->
     base_at b' i = base_at b i /\ cap_at b' i = cap_at b i) ->
  settled b b'.
Proof.
  intros G H. split.
  - apply (g_pos _ _ _ G).
  - intros i Hi. destruct (decide (i = ob_pos b)) as [->|Hne].
    + apply (g_len_cur _ _ _ G).
    + rewrite (g_len_below _ _ _ G); [done|lia].
  - intros i Hi Hl. by destruct (H i Hi Hl).
  - intros i Hi Hl. by destruct (H i Hi Hl).
Qed.

Lemma settled_of_layout b d b' : grows b d b' -> layout_kept b b' -> settled b b'.
Proof.
  intros G (_ & Hc & Hb & _). apply (settled_of_grows b d); [done|].
  intros i _ _. split; [apply Hb|]. unfold cap_at. by rewrite Hc.
Qed.

Lemma settled_slot_update n b b' q c v :
  wf_at n b -> slot_update b b' q c v ->
  ((q <= ob_pos b)%nat -> len_at b q <= 0 /\ 0 <= iov_len v) ->
  settled b b'.
Proof.
  intros W U Hq. split.
  - rewrite (su_pos _ _ _ _ _ U). lia.
  - intros i Hi. rewrite (slot_update_len _ _ _ _ _ _ U).
    destruct (decide (q = i)) as [->|]; [|lia]. destruct (Hq Hi). lia.
  - intros i Hi Hl. rewrite (slot_update_base _ _ _ _ _ _ U).
    destruct (decide (q = i)) as [->|]; [|done]. destruct (Hq Hi). lia.
  - intros i Hi Hl. rewrite (su_cap _ _ _ _ _ U).
    destruct (decide (q = i)) as [->|]; [|done]. destruct (Hq Hi). lia.
Qed.

(** The append block with the continuation split off. *)
Lemma append_block_split {A} (m1 m2 : M obuf unit) (g : obuf -> Z) (f : Z -> obuf -> obuf)
    (K : M obuf A) b :
  (m1 ;;; m2 ;;; sz <- gets g ;; modify (f sz) ;;; K) b =
  ((m1 ;;; m2 ;;; sz <- gets g ;; modify (f sz) ;;; ret tt) ;;; K) b.
Proof.
  unfold bind, gets, modify, ret.
  destruct (m1 b) as [[] b1| | | |]; try done. by destruct (m2 b1) as [[] b2| | | |].
Qed.

Lemma append_step_settled {A} n b data cnt (k : M obuf A) :
  wf_at n b ->
  0 <= cnt <= Z.of_nat (length data) ->
  len_at b (ob_pos b) + cnt <= cap_at b (ob_pos b) ->
  exists b',
    (memcpy (ptr_add (base_at b (ob_pos b)) (len_at b (ob_pos b))) data cnt ;;;
     set_iov_len (ob_pos b) (wrap (len_at b (ob_pos b) + cnt)) ;;;
     sz <- gets ob_size ;;
     modify (with_size (wrap (sz + cnt))) ;;;
     k) b = k b' /\
    wf_at n b' /\
    grows b (take (Z.to_nat cnt) data) b' /\
    ob_pos b' = ob_pos b /\
    (forall i, cap_at b' i = cap_at b i) /\
    len_at b' (ob_pos b) = len_at b (ob_pos b) + cnt /\
    settled b b' /\ blocks b' = blocks b.
Proof.
  intros W Hcnt Hfit.
  destruct (append_step n b data cnt (ret tt) W Hcnt Hfit)
    as (b' & Heq & W' & G & Hpos & Hcap & Hlen).
  change (ret tt b') with (@Ret obuf unit tt b') in Heq.
  exists b'. split_and!; try done.
  - rewrite (append_block_split _ _ ob_size (fun sz => with_size (wrap (sz + cnt))) k b).
    unfold bind at 1. by rewrite Heq.
  - apply (settled_of_layout _ _ _ G).
    assert (HL : keeps_layout
      (memcpy (ptr_add (base_at b (ob_pos b)) (len_at b (ob_pos b))) data cnt ;;;
       set_iov_len (ob_pos b) (wrap (len_at b (ob_pos b) + cnt)) ;;;
       sz <- gets ob_size ;; modify (with_size (wrap (sz + cnt))) ;;; ret tt)).
    { layout. }
    specialize (HL b). by rewrite Heq in HL.
  - assert (HL : keeps_layout
      (memcpy (ptr_add (base_at b (ob_pos b)) (len_at b (ob_pos b))) data cnt ;;;
       set_iov_len (ob_pos b) (wrap (len_at b (ob_pos b) + cnt)) ;;;
       sz <- gets ob_size ;; modify (with_size (wrap (sz + cnt))) ;;; ret tt)).
    { layout. }
    specialize (HL b). rewrite Heq in HL. by destruct HL as (_ & _ & _ & ?).
Qed.

Section Materialize.
Variable NDEBUG : bool.
Variable region_admits : region -> Z -> bool.

Lemma materialize_settled n b size :
  wf_at n b -> ob_pos b = n -> 0 <= size <= REQ_MAX ->
  match (obuf_init_pos (n + 1) ;;; obuf_alloc_pos NDEBUG region_admits n size) b with
  | Ret _ b' => settled b b' /\ blocks b' = S (blocks b)
  | Throw _ b' => settled b b' /\ blocks b' = blocks b
  | _ => True
  end.
Proof.
  intros W Hp Hsize.
  pose proof (wf_liov _ _ W) as Hli. pose proof (wf_lcap _ _ W) as Hlc.
  pose proof (wf_n _ _ W) as Hn. rewrite Nat.add_1_r.
  destruct (decide (S n = IOBUF_IOV_MAX)) as [Hmax|Hmax].
  { unfold bind. rewrite obuf_init_pos_max by lia. split; [apply settled_refl|done]. }
  assert (Hn1 : (S n < IOBUF_IOV_MAX)%nat) by lia.
  destruct (obuf_init_pos_spec b (S n) Hn1 Hlc Hli) as (b1 & Heq & U1 & Hpool1).
  mstep Heq.
  assert (W1 : wf_at n b1) by (by apply (wf_at_init n b)).
  assert (S1 : settled b b1).
  { apply (settled_slot_update n b b1 (S n) 0 (Iovec NULL 0)); try done. lia. }
  assert (N1 : blocks b1 = blocks b) by (unfold blocks; by rewrite Hpool1).
  pose proof (cap_bound_seg n Hn1) as Hb63.
  assert (Hb33 : 2 ^ 33 <= cap_bound n).
  { unfold cap_bound. apply Z.pow_le_mono_r; lia. }
  assert (Hstart : 0 < alloc_start b1 n <= cap_bound n).
  { unfold alloc_start. destruct n as [|n'].
    - rewrite (su_af _ _ _ _ _ U1). pose proof (wf_af _ _ W). unfold REQ_MAX in *. lia.
    - rewrite (su_cap _ _ _ _ _ U1), decide_False by lia.
      destruct (wf_seg _ _ W n' ltac:(lia)).
      rewrite cap_bound_S in *. rewrite wrap_small; lia. }
  destruct (grow_capacity_64 (alloc_start b1 n) size (cap_bound n)) as (c & Hg & Hc1 & Hc2 & _);
    [done|unfold REQ_MAX in *; lia|done|].
  assert (Hlen1 : len_at b1 n = 0).
  { rewrite (slot_update_len _ _ _ _ _ _ U1), decide_False by lia. apply (wf_sent_len _ _ W). }
  assert (Hcap1 : cap_at b1 n = 0).
  { rewrite (su_cap _ _ _ _ _ U1), decide_False by lia. apply (wf_sent_cap _ _ W). }
  rewrite (obuf_alloc_pos_spec NDEBUG region_admits b1 n size c); try done;
    try apply W1; [|by rewrite (su_pos _ _ _ _ _ U1)].
  destruct (region_admits (ob_pool b1) c) eqn:E; [|done].
  destruct (alloc_state_update b1 n c) as [U2 Hpool2]; try done; try apply W1.
  split.
  - apply (settled_trans _ b1); [done|].
    apply (settled_slot_update n b1 _ n c _ W1 U2). intros _. simpl. lia.
  - unfold blocks in *. rewrite Hpool2, length_app. simpl. lia.
Qed.

End Materialize.

Section DupSettled.
Variable NDEBUG : bool.
Variable region_admits : region -> Z -> bool.

Lemma dup_loop_settled fuel : forall n b data,
  wf_at n b -> Z.of_nat (length data) <= REQ_MAX ->
  (n - ob_pos b < fuel)%nat ->
  dup_settled n b (obuf_dup_loop NDEBUG region_admits fuel data b).
Proof.
  induction fuel as [|fuel IH]; intros n b data W Hdata Hfuel; [lia|].
  pose proof (wf_liov _ _ W) as Hli. pose proof (wf_lcap _ _ W) as Hlc.
  pose proof (wf_pos _ _ W) as Hpn. pose proof (wf_n _ _ W) as Hn.
  rewrite obuf_dup_loop_eq. cbv zeta.
  mgets. mstep (get_iov_eq b (ob_pos b) ltac:(lia)).
  mstep (get_capacity_eq b (ob_pos b) ltac:(lia)).
  rewrite <- ?len_at_eq, <- ?base_at_eq.
  set (p := ob_pos b) in *. set (size := Z.of_nat (length data)) in *.
  assert (Hseg : 0 <= len_at b p <= cap_at b p /\ cap_at b p <= 2 ^ 63 /\
                 ((p < n)%nat -> 0 < cap_at b p) /\ (p = n -> cap_at b p = 0)).
  { destruct (decide (p < n)%nat) as [Hp|Hp].
    - destruct (wf_seg _ _ W p Hp). pose proof (cap_bound_seg p ltac:(lia)).
      split_and!; try lia.
    - assert (p = n) as -> by lia.
      rewrite (wf_sent_cap _ _ W), (wf_sent_len _ _ W). split_and!; try lia. }
  destruct Hseg as (Hlen & Hcap63 & Hcappos & Hcap0).
  assert (Hsize : 0 <= size <= 2 ^ 32) by (unfold REQ_MAX in Hdata; lia).
  rewrite (wrap_small (len_at b p + size)) by lia.
  destruct (len_at b p + size >? cap_at b p) eqn:Econd.
  2:{ simpl. split; [apply settled_refl|]. exists n. split_and!; try done. lia. }
  rewrite Z.gtb_ltb in Econd. apply Z.ltb_lt in Econd.
  destruct (len_at b p <? cap_at b p) eqn:Elt.
  - (* fill the current segment *)
    apply Z.ltb_lt in Elt.
    assert (Hp : (p < n)%nat).
    { destruct (decide (p < n)%nat); [done|]. rewrite Hcap0 in Elt by lia. lia. }
    set (fill := cap_at b p - len_at b p).
    rewrite (wrap_small fill) by (unfold fill; lia).
    unfold bind at 1. rewrite assert_holds.
    2:{ unfold ret. f_equal. apply Z.ltb_lt. unfold fill. lia. }
    destruct (append_step_settled n b data fill
      (assert_ NDEBUG (v <- get_iov p ;; ret (cap_at b p =? iov_len v)) ;;;
       modify (with_pos (p + 1)) ;;;
       assert_ NDEBUG (q <- gets ob_pos ;; ret (bool_decide (q < IOBUF_IOV_MAX)%nat)) ;;;
       obuf_dup_loop NDEBUG region_admits fuel (drop (Z.to_nat fill) data)) W)
      as (b1 & Heq & W1 & G1 & Hpos1 & Hcap1 & Hlen1 & S1 & N1).
    { unfold fill. fold size. lia. }
    { fold p. unfold fill. lia. }
    fold p in Heq, Hlen1, Hpos1. rewrite Heq. clear Heq.
    rewrite <- Hpos1, <- (Hcap1 (ob_pos b1)).
    rewrite (dup_next_eq NDEBUG n b1); [|done|lia|rewrite Hpos1, Hlen1, Hcap1; unfold fill; lia].
    set (b2 := with_pos (ob_pos b1 + 1) b1).
    assert (W2 : wf_at n b2) by (apply advance_wf; [done|lia]).
    assert (S2 : settled b1 b2).
    { split; try done; simpl; lia. }
    assert (N2 : blocks b2 = blocks b1) by done.
    set (data' := drop (Z.to_nat fill) data).
    assert (Hd' : Z.of_nat (length data') = size - fill).
    { unfold data'. rewrite length_drop. unfold fill in *. lia. }
    specialize (IH n b2 data' W2 ltac:(unfold REQ_MAX in *; lia) ltac:(simpl; lia)).
    destruct (obuf_dup_loop NDEBUG region_admits fuel data' b2) as [rest b'|e b'| | |];
      simpl in *; try done.
    + destruct IH as (S' & n' & W' & Hn' & N').
      split; [by apply (settled_trans _ b1), (settled_trans _ b2)|].
      exists n'. split_and!; try done. congruence.
    + destruct IH as (S' & W' & N').
      split_and!; try done; [by apply (settled_trans _ b1), (settled_trans _ b2)|congruence].
  - apply Z.ltb_ge in Elt.
    destruct (cap_at b p =? 0) eqn:E0.
    + (* the end marker: a new segment *)
      apply Z.eqb_eq in E0.
      assert (Hp : p = n).
      { destruct (decide (p < n)%nat) as [Hp|]; [|lia]. specialize (Hcappos Hp). lia. }
      rewrite <- bind_assoc. rewrite Hp.
      pose proof (materialize_spec NDEBUG region_admits n b size W Hp Hsize) as HM.
      pose proof (materialize_settled NDEBUG region_admits n b size W Hp Hsize) as HS.
      unfold bind at 1. fold size.
      destruct ((obuf_init_pos (n + 1);;; obuf_alloc_pos NDEBUG region_admits n size) b)
        as [[] b'|e b'| | |]; try done.
      * inversion HM as [ | |b'' Hlt W' G' Hpos' Hlen' Hcap' Ho]; subst.
        simpl. destruct HS as [S' N']. split; [done|].
        exists (S (ob_pos b)). split_and!; try done; lia.
      * simpl. destruct HS as [S' N']. split_and!; try done.
        inversion HM; subst; done.
    + (* a full segment: move on *)
      apply Z.eqb_neq in E0.
      assert (Hp : (p < n)%nat).
      { destruct (decide (p < n)%nat); [done|]. rewrite Hcap0 in E0 by lia. lia. }
      rewrite (dup_next_eq NDEBUG n b); [|done|done|fold p; lia].
      fold p.
      set (b2 := with_pos (p + 1) b).
      assert (W2 : wf_at n b2) by (apply advance_wf; [done|lia]).
      assert (S2 : settled b b2).
      { split; try done; simpl; lia. }
      specialize (IH n b2 data W2 Hdata ltac:(simpl; lia)).
      destruct (obuf_dup_loop NDEBUG region_admits fuel data b2) as [rest b'|e b'| | |];
        simpl in *; try done.
      * destruct IH as (S' & n' & W' & Hn' & N').
        split; [by apply (settled_trans _ b2)|]. exists n'. done.
      * destruct IH as (S' & W' & N').
        split_and!; try done. by apply (settled_trans _ b2).
Qed.

Lemma obuf_dup_settled n b data :
  wf_at n b -> Z.of_nat (length data) <= REQ_MAX ->
  dup_settled n b (obuf_dup NDEBUG region_admits data b).
Proof.
  intros W Hdata. unfold obuf_dup. unfold bind at 1.
  pose proof (dup_loop_spec NDEBUG region_admits IOBUF_IOV_MAX n b data W Hdata
                ltac:(pose proof (wf_n _ _ W); lia)) as HL.
  pose proof (dup_loop_settled IOBUF_IOV_MAX n b data W Hdata
                ltac:(pose proof (wf_n _ _ W); lia)) as HS.
  destruct (obuf_dup_loop NDEBUG region_admits IOBUF_IOV_MAX data b)
    as [rest b1|e b1| | |]; simpl in HL, HS; try done.
  destruct HL as (n' & d & Hd & W1 & G1 & Hfit & Hroom).
  destruct HS as (S1 & n1 & W1' & Hn1 & N1).
  pose proof (wf_liov _ _ W1) as Hli. pose proof (wf_pos _ _ W1) as Hpn.
  pose proof (wf_n _ _ W1) as Hn. cbv zeta.
  mgets. mstep (get_iov_eq b1 (ob_pos b1) ltac:(lia)).
  rewrite <- ?len_at_eq, <- ?base_at_eq.
  destruct (append_step_settled n1 b1 rest (Z.of_nat (length rest))
     (assert_ NDEBUG (p <- gets ob_pos ;; v <- get_iov p ;; c <- get_capacity p ;;
                      ret (iov_len v <=? c))) W1')
    as (b2 & Heq & W2 & G2 & Hpos2 & Hcap2 & Hlen2 & S2 & N2); [lia|done|].
  rewrite Heq. rewrite assert_holds.
  - simpl. split; [by apply (settled_trans _ b1)|].
    exists n1. split_and!; try done. congruence.
  - mgets. rewrite Hpos2.
    mstep (get_iov_eq b2 (ob_pos b1) ltac:(rewrite (wf_liov _ _ W2); lia)).
    mstep (get_capacity_eq b2 (ob_pos b1) ltac:(rewrite (wf_lcap _ _ W2); lia)).
    unfold ret. f_equal. apply Z.leb_le. rewrite <- len_at_eq.
    apply (wf_len_le_cap n1); [done|pose proof (wf_pos _ _ W1'); lia].
Qed.

End DupSettled.

Lemma readonly_ret {A} (a : A) : readonly (ret a).
Proof. by intros b. Qed.

Lemma readonly_gets {A} (g : obuf -> A) : readonly (gets g).
Proof. by intros b. Qed.

Lemma readonly_get_iov i : readonly (get_iov i).
Proof. intros b. unfold get_iov. by destruct (ob_iov b !! i). Qed.

Lemma readonly_get_capacity i : readonly (get_capacity i).
Proof. intros b. unfold get_capacity. by destruct (ob_capacity b !! i). Qed.

Lemma readonly_bind {A B} (m : M obuf A) (k : A -> M obuf B) :
  readonly m -> (forall a, readonly (k a)) -> readonly (bind m k).
Proof.
  intros Hm Hk b. unfold bind. specialize (Hm b).
  destruct (m b) as [a b1|e b1| | |]; try done. subst b1. apply Hk.
Qed.

Lemma readonly_assert {nd} (e : M obuf bool) : readonly e -> readonly (assert_ nd e).
Proof.
  intros He. unfold assert_. destruct nd; [apply readonly_ret|].
  apply readonly_bind; [done|]. intros [|]; [apply readonly_ret|by intros b].
Qed.

Ltac readonly :=
  repeat first
    [ apply readonly_bind; [|intros ?]
    | apply readonly_ret | apply readonly_gets
    | apply readonly_get_iov | apply readonly_get_capacity
    | apply readonly_assert ].

(** After a computation, one that only reads. *)
Lemma then_readonly {A B} (R : obuf -> obuf -> Prop) (m : M obuf A) (k : A -> M obuf B) b :
  match m b with
  | Ret _ b' | Throw _ b' => R b b'
  | _ => True
  end ->
  (forall a, readonly (k a)) ->
  match bind m k b with
  | Ret _ b' | Throw _ b' => R b b'
  | _ => True
  end.
Proof.
  intros Hm Hk. unfold bind. destruct (m b) as [a b1|e b1| | |]; try done.
  specialize (Hk a b1). destruct (k a b1); try done; by subst.
Qed.

Section ReserveSettled.
Variable NDEBUG : bool.
Variable region_admits : region -> Z -> bool.

Lemma obuf_reserve_slow_settled n b size :
  wf_at n b -> 0 <= size <= REQ_MAX ->
  match obuf_reserve_slow NDEBUG region_admits size b with
  | Ret _ b' | Throw _ b' => settled b b'
  | _ => True
  end.
Proof.
  intros W Hsize.
  pose proof (wf_liov _ _ W) as Hli. pose proof (wf_lcap _ _ W) as Hlc.
  pose proof (wf_pos _ _ W) as Hpn. pose proof (wf_n _ _ W) as Hn.
  unfold obuf_reserve_slow.
  mgets. mstep (get_iov_eq b (ob_pos b) ltac:(lia)).
  mstep (get_capacity_eq b (ob_pos b) ltac:(lia)).
  rewrite <- ?len_at_eq.
  set (b1 := if len_at b (ob_pos b) >? 0 then with_pos (ob_pos b + 1) b else b).
  assert (Hfirst :
    (if len_at b (ob_pos b) >? 0
     then modify (with_pos (ob_pos b + 1)) ;;;
          assert_ NDEBUG (p <- gets ob_pos ;; ret (bool_decide (p < IOBUF_IOV_MAX)%nat)) ;;;
          iov <- get_iov (ob_pos b + 1) ;;
          capacity <- get_capacity (ob_pos b + 1) ;;
          ret (iov, capacity)
     else ret (iov_at b (ob_pos b), cap_at b (ob_pos b))) b
    = Ret (iov_at b1 (ob_pos b1), cap_at b1 (ob_pos b1)) b1 /\
    wf_at n b1 /\ settled b b1 /\ len_at b1 (ob_pos b1) = 0).
  { unfold b1. destruct (len_at b (ob_pos b) >? 0) eqn:E.
    - rewrite Z.gtb_ltb in E. apply Z.ltb_lt in E.
      assert (Hp : (ob_pos b < n)%nat).
      { destruct (decide (ob_pos b < n)%nat); [done|].
        assert (ob_pos b = n) as Hpe by lia. rewrite Hpe, (wf_sent_len _ _ W) in E. lia. }
      split_and!.
      + mmodify. unfold bind at 1. rewrite assert_holds.
        2:{ unfold bind, gets, ret. simpl. f_equal. apply bool_decide_eq_true. lia. }
        mstep (get_iov_eq (with_pos (ob_pos b + 1) b) (ob_pos b + 1) ltac:(simpl; lia)).
        mstep (get_capacity_eq (with_pos (ob_pos b + 1) b) (ob_pos b + 1) ltac:(simpl; lia)).
        done.
      + by apply advance_wf.
      + split; try done; simpl; lia.
      + simpl ob_pos. rewrite Nat.add_1_r. change (len_at (with_pos _ b)) with (len_at b).
        by apply (wf_next_len n).
    - rewrite Z.gtb_ltb in E. apply Z.ltb_ge in E.
      split_and!; [done|done|apply settled_refl|].
      pose proof (wf_len_le_cap n b (ob_pos b) W Hpn). lia. }
  destruct Hfirst as (Heq & W1 & S1 & Hlen1).
  mstep Heq. clear Heq. cbv zeta. simpl fst. simpl snd.
  rewrite <- ?len_at_eq.
  unfold bind at 1. rewrite assert_holds.
  2:{ unfold ret. f_equal. apply Z.eqb_eq. done. }
  mgets.
  set (p := ob_pos b1) in *.
  assert (Hp32 : (p < IOBUF_IOV_MAX)%nat) by (pose proof (wf_pos _ _ W1); unfold p; lia).
  assert (Hstep :
    match (if cap_at b1 p =? 0
           then obuf_init_pos (p + 1) ;;; obuf_alloc_pos NDEBUG region_admits p size
           else if size >? cap_at b1 p
                then obuf_alloc_pos NDEBUG region_admits p size
                else ret tt) b1 with
    | Ret _ b' | Throw _ b' => settled b b'
    | _ => True
    end).
  { destruct (cap_at b1 p =? 0) eqn:E0.
    - apply Z.eqb_eq in E0.
      assert (Hpn1 : p = n).
      { destruct (decide (p < n)%nat) as [Hlt|];
          [|pose proof (wf_pos _ _ W1); unfold p in *; lia].
        destruct (wf_seg _ _ W1 p Hlt). lia. }
      rewrite Hpn1.
      pose proof (materialize_settled NDEBUG region_admits n b1 size W1
                    ltac:(by rewrite <- Hpn1) Hsize) as HS.
      destruct ((obuf_init_pos (n + 1);;; obuf_alloc_pos NDEBUG region_admits n size) b1)
        as [[] b'|e b'| | |]; try done; destruct HS as [HS _]; by apply (settled_trans _ b1).
    - apply Z.eqb_neq in E0.
      assert (Hlt : (p < n)%nat).
      { destruct (decide (p < n)%nat) as [Hlt|]; [done|].
        assert (p = n) as Hpe by (pose proof (wf_pos _ _ W1); unfold p in *; lia).
        rewrite Hpe, (wf_sent_cap _ _ W1) in E0. done. }
      destruct (size >? cap_at b1 p) eqn:Egt; [|done].
      destruct NDEBUG eqn:End.
      + pose proof (alloc_start_bound n b1 p W1 ltac:(lia) ltac:(lia)) as Hstart.
        pose proof (cap_bound_seg p ltac:(lia)) as Hb63.
        assert (Hb33 : 2 ^ 33 <= cap_bound p).
        { unfold cap_bound. apply Z.pow_le_mono_r; lia. }
        destruct (grow_capacity_64 (alloc_start b1 p) size (cap_bound p))
          as (c & Hg & Hc1 & Hc2 & _); [done|unfold REQ_MAX in *; lia|done|].
        rewrite (obuf_alloc_pos_spec true region_admits b1 p size c); try done;
          try apply W1.
        destruct (region_admits (ob_pool b1) c) eqn:E; [|done].
        destruct (alloc_state_update b1 p c) as [U2 _]; try done; try apply W1.
        apply (settled_trans _ b1); [done|].
        apply (settled_slot_update n b1 _ p c _ W1 U2). intros _. fold p. simpl. lia.
      + rewrite obuf_alloc_pos_abort; try done. rewrite (wf_lcap _ _ W1). lia. }
  apply (then_readonly (fun _ b' => settled b b') _ _ b1 Hstep).
  intros _. readonly.
Qed.

Lemma obuf_reserve_settled n b size :
  wf_at n b -> 0 <= size <= REQ_MAX ->
  match obuf_reserve NDEBUG region_admits size b with
  | Ret _ b' | Throw _ b' => settled b b'
  | _ => True
  end.
Proof.
  intros W Hsize.
  pose proof (wf_liov _ _ W) as Hli. pose proof (wf_lcap _ _ W) as Hlc.
  pose proof (wf_pos _ _ W) as Hpn. pose proof (wf_n _ _ W) as Hn.
  unfold obuf_reserve.
  mgets. mstep (get_iov_eq b (ob_pos b) ltac:(lia)).
  mstep (get_capacity_eq b (ob_pos b) ltac:(lia)).
  destruct (_ >? _).
  - by apply (obuf_reserve_slow_settled n).
  - apply settled_refl.
Qed.

End ReserveSettled.

Lemma memcpy_arrays p data cnt b b' :
  memcpy p data cnt b = Ret tt b' ->
  ob_iov b' = ob_iov b /\ ob_capacity b' = ob_capacity b /\ ob_pos b' = ob_pos b /\
  ob_size b' = ob_size b /\ ob_alloc_factor b' = ob_alloc_factor b.
Proof.
  unfold memcpy. destruct (_ || _); [done|].
  destruct (mem_write _ _ _); [|done]. by intros [= <-].
Qed.

Lemma settled_of_arrays b b' :
  ob_iov b' = ob_iov b -> ob_capacity b' = ob_capacity b -> ob_pos b' = ob_pos b ->
  settled b b'.
Proof.
  intros Hi Hc Hp. split; unfold len_at, base_at, cap_at, iov_at; rewrite ?Hi, ?Hc, ?Hp; done.
Qed.

Section AllocSettled.
Variable NDEBUG : bool.
Variable region_admits : region -> Z -> bool.

Lemma keeps_layout_alloc_tail size : keeps_layout (obuf_alloc_tail NDEBUG size).
Proof. unfold obuf_alloc_tail. layout. Qed.

(** [obuf_alloc] when the bytes fit into the current segment. *)
Lemma alloc_tail_settled n b size :
  wf_at n b -> 0 <= size ->
  len_at b (ob_pos b) + size <= cap_at b (ob_pos b) ->
  match obuf_alloc_tail NDEBUG size b with
  | Ret p b' =>
      p = ptr_add (base_at b (ob_pos b)) (len_at b (ob_pos b)) /\
      wf_at n b' /\ settled b b' /\ layout_kept b b' /\
      len_at b' (ob_pos b) = len_at b (ob_pos b) + size /\
      exists d, grows b d b' /\ Z.of_nat (length d) = size
  | Throw _ _ => False
  | _ => True
  end.
Proof.
  intros W Hsize Hfit.
  destruct (alloc_tail_spec NDEBUG n b size W Hsize Hfit)
    as (b2 & d & Htail & W2 & G2 & Hd & Hpool & _).
  destruct (alloc_tail_store NDEBUG n b d W ltac:(rewrite Hd; done))
    as (b2' & b3 & Htail' & Hstore & _ & _ & Hpos3 & _ & _ & Hlen3 & _).
  rewrite Hd in Htail', Hlen3.
  pose proof (keeps_layout_alloc_tail size b) as HL.
  rewrite Htail in *.
  destruct (negb NDEBUG && _); [done|].
  injection Htail' as <-.
  split_and!; try done.
  - by apply (settled_of_layout _ d).
  - unfold obuf_store in Hstore. apply memcpy_arrays in Hstore as (Hi & _).
    rewrite <- Hlen3. unfold len_at, iov_at. by rewrite Hi.
  - by exists d.
Qed.

Lemma obuf_alloc_settled n b size :
  wf_at n b -> 0 <= size <= REQ_MAX ->
  match obuf_alloc NDEBUG region_admits size b with
  | Ret _ b' | Throw _ b' => settled b b'
  | _ => True
  end.
Proof.
  intros W Hsize.
  pose proof (wf_liov _ _ W) as Hli. pose proof (wf_lcap _ _ W) as Hlc.
  pose proof (wf_pos _ _ W) as Hpn. pose proof (wf_n _ _ W) as Hn.
  pose proof (wf_len_le_cap n b (ob_pos b) W Hpn) as Hlen.
  rewrite obuf_alloc_eq.
  mgets. mstep (get_iov_eq b (ob_pos b) ltac:(lia)).
  mstep (get_capacity_eq b (ob_pos b) ltac:(lia)).
  rewrite <- ?len_at_eq.
  assert (Hc63 : cap_at b (ob_pos b) <= 2 ^ 63).
  { destruct (decide (ob_pos b < n)%nat) as [Hp|Hp].
    - destruct (wf_seg _ _ W _ Hp). pose proof (cap_bound_seg (ob_pos b) ltac:(lia)). lia.
    - assert (ob_pos b = n) as Hpe by lia. rewrite Hpe, (wf_sent_cap _ _ W). lia. }
  rewrite wrap_small by (unfold REQ_MAX in *; lia).
  destruct (len_at b (ob_pos b) + size >? cap_at b (ob_pos b)) eqn:E.
  - unfold bind at 1. unfold bind at 1.
    pose proof (obuf_reserve_slow_spec NDEBUG region_admits n b size W Hsize) as HR.
    pose proof (obuf_reserve_slow_settled NDEBUG region_admits n b size W Hsize) as HS.
    destruct (obuf_reserve_slow NDEBUG region_admits size b) as [p1 b1|e b1| | |];
      simpl in HR; try done.
    destruct HR as (n' & W1 & G1 & Hn' & Hpos1 & Hlen1 & Hcap1 & _).
    unfold ret at 1. cbv beta iota.
    pose proof (alloc_tail_settled n' b1 size W1 ltac:(lia) ltac:(lia)) as HT.
    destruct (obuf_alloc_tail NDEBUG size b1) as [p2 b2|e b2| | |]; try done.
    destruct HT as (_ & _ & S2 & _). by apply (settled_trans _ b1).
  - rewrite Z.gtb_ltb in E. apply Z.ltb_ge in E.
    unfold bind at 1. unfold ret at 1. cbv beta iota.
    pose proof (alloc_tail_settled n b size W ltac:(lia) ltac:(lia)) as HT.
    destruct (obuf_alloc_tail NDEBUG size b) as [p2 b2|e b2| | |]; try done.
    by destruct HT as (_ & _ & S2 & _).
Qed.

Lemma obuf_alloc_store_settled n b data :
  wf_at n b -> Z.of_nat (length data) <= REQ_MAX ->
  match obuf_alloc_store NDEBUG region_admits data b with
  | Ret _ b' | Throw _ b' => settled b b'
  | _ => True
  end.
Proof.
  intros W Hdata. unfold obuf_alloc_store. unfold bind.
  pose proof (obuf_alloc_settled n b (Z.of_nat (length data)) W ltac:(lia)) as HA.
  destruct (obuf_alloc NDEBUG region_admits (Z.of_nat (length data)) b)
    as [p b1|e b1| | |]; try done.
  unfold obuf_store.
  destruct (memcpy p data (Z.of_nat (length data)) b1) as [[] b2|e b2| | |] eqn:E; try done.
  - apply memcpy_arrays in E as (Hi & Hc & Hp & _).
    apply (settled_trans _ b1); [done|]. by apply settled_of_arrays.
  - unfold memcpy in E. destruct (_ || _); [done|]. by destruct (mem_write _ _ _).
Qed.

Lemma run_append_settled n b op :
  wf_at n b -> Z.of_nat (length (op_data op)) <= REQ_MAX ->
  match run_append NDEBUG region_admits op b with
  | Ret _ b' | Throw _ b' => settled b b'
  | _ => True
  end.
Proof.
  intros W Hop. destruct op as [data|data]; simpl in *.
  - pose proof (obuf_dup_settled NDEBUG region_admits n b data W Hop) as HD.
    destruct (obuf_dup NDEBUG region_admits data b); try done; by destruct HD.
  - by apply (obuf_alloc_store_settled n).
Qed.

Lemma run_appends_settled ops : forall n b,
  wf_at n b -> Forall (fun op => Z.of_nat (length (op_data op)) <= REQ_MAX) ops ->
  match run_appends NDEBUG region_admits ops b with
  | Ret _ b' | Throw _ b' => settled b b'
  | _ => True
  end.
Proof.
  induction ops as [|op ops IH]; intros n b W Hall.
  - apply settled_refl.
  - inversion Hall as [|? ? Hop Hall']; subst.
    simpl run_appends. unfold bind.
    pose proof (run_append_spec NDEBUG region_admits n b op W Hop) as HA.
    pose proof (run_append_settled n b op W Hop) as HS.
    destruct (run_append NDEBUG region_admits op b) as [[] b1|e b1| | |]; try done.
    simpl in HA. destruct HA as (n1 & W1 & _).
    specialize (IH n1 b1 W1 Hall'). fold (run_appends NDEBUG region_admits ops).
    destruct (run_appends NDEBUG region_admits ops b1) as [[] b2|e b2| | |]; try done;
      by apply (settled_trans _ b1).
Qed.

(** [obuf_book]: the state at the savepoint and the state returned. *)
Lemma obuf_book_settled n b size svp b2 :
  wf_at n b -> 0 <= size <= REQ_MAX ->
  obuf_book NDEBUG region_admits size b = Ret svp b2 ->
  exists n' b1,
    wf_at n' b1 /\ grows b [] b1 /\ settled b b1 /\ svp = svp_of b1 /\
    wf_at n' b2 /\ settled b1 b2 /\ layout_kept b1 b2 /\
    len_at b1 (ob_pos b1) + size <= cap_at b1 (ob_pos b1) /\
    len_at b2 (ob_pos b1) = len_at b1 (ob_pos b1) + size /\
    (exists d, grows b1 d b2 /\ Z.of_nat (length d) = size) /\
    obuf_svp_to_ptr svp b2 = Ret (ptr_add (base_at b1 (ob_pos b1)) (len_at b1 (ob_pos b1))) b2.
Proof.
  intros W Hsize. unfold obuf_book. unfold bind at 1.
  pose proof (obuf_reserve_spec NDEBUG region_admits n b size W Hsize) as HR.
  pose proof (obuf_reserve_settled NDEBUG region_admits n b size W Hsize) as HS.
  destruct (obuf_reserve NDEBUG region_admits size b) as [p b1|e b1| | |];
    simpl in HR; try done.
  destruct HR as (n' & W1 & G1 & _ & Hfit & _ & Hkeep).
  pose proof (wf_liov _ _ W1) as Hli. pose proof (wf_lcap _ _ W1) as Hlc.
  pose proof (wf_pos _ _ W1) as Hpn. pose proof (wf_n _ _ W1) as Hn.
  pose proof (wf_len_le_cap n' b1 (ob_pos b1) W1 Hpn) as Hlen.
  mgets. mstep (get_iov_eq b1 (ob_pos b1) ltac:(lia)). mgets. cbv zeta.
  unfold bind at 1. rewrite obuf_alloc_eq.
  mgets. mstep (get_iov_eq b1 (ob_pos b1) ltac:(lia)).
  mstep (get_capacity_eq b1 (ob_pos b1) ltac:(lia)).
  rewrite <- ?len_at_eq.
  assert (Hc63 : cap_at b1 (ob_pos b1) <= 2 ^ 63).
  { destruct (decide (ob_pos b1 < n')%nat) as [Hp|Hp].
    - destruct (wf_seg _ _ W1 _ Hp). pose proof (cap_bound_seg (ob_pos b1) ltac:(lia)). lia.
    - assert (ob_pos b1 = n') as Hpe by lia. rewrite Hpe, (wf_sent_cap _ _ W1). lia. }
  rewrite wrap_small by (unfold REQ_MAX in *; lia).
  replace (len_at b1 (ob_pos b1) + size >? cap_at b1 (ob_pos b1)) with false
    by (symmetry; rewrite Z.gtb_ltb; apply Z.ltb_ge; lia).
  unfold bind at 1. unfold ret at 1. cbv beta iota.
  pose proof (alloc_tail_settled n' b1 size W1 ltac:(lia) Hfit) as HT.
  destruct (obuf_alloc_tail NDEBUG size b1) as [p2 b2'|e b2'| | |]; try done.
  destruct HT as (_ & W2 & S2 & L2 & Hlen2 & Hd).
  cbv beta iota. unfold ret. intros [= <- <-].
  exists n', b1. split_and!; try done.
  unfold obuf_svp_to_ptr. simpl.
  mstep (get_iov_eq b2' (ob_pos b1) ltac:(rewrite (wf_liov _ _ W2); lia)).
  unfold ret. f_equal. rewrite <- base_at_eq. f_equal.
  by destruct L2 as (_ & _ & -> & _).
Qed.

End AllocSettled.

Lemma take_splice (o len : nat) (data blk : list byte) :
  (o + length data <= len)%nat -> (len <= length blk)%nat ->
  take len (splice o data blk) =
  take o (take len blk) ++ data ++ drop (o + length data) (take len blk).
Proof.
  intros H1 H2. unfold splice.
  rewrite take_take, Nat.min_l by lia.
  rewrite take_app_ge by (rewrite length_take; lia).
  rewrite length_take, Nat.min_l by lia. f_equal.
  rewrite take_app_ge by lia. f_equal.
  rewrite take_drop_commute. f_equal. f_equal. lia.
Qed.

Lemma concat_map_patch (f g : nat -> list byte) (cnt q : nat) :
  (q < cnt)%nat -> (forall i, (i < cnt)%nat -> i <> q -> g i = f i) ->
  concat (map g (seq 0 cnt)) =
  concat (map f (seq 0 q)) ++ g q ++ concat (map f (seq (S q) (cnt - S q))).
Proof.
  intros Hq H.
  replace cnt with (q + S (cnt - S q))%nat at 1 by lia.
  rewrite seq_app, map_app, concat_app. simpl. f_equal; [|f_equal].
  - f_equal. apply map_ext_in. intros i Hi. apply in_seq in Hi. apply H; lia.
  - f_equal. apply map_ext_in. intros i Hi. apply in_seq in Hi. apply H; lia.
Qed.

Section Addresses.
Variable NDEBUG : bool.
Variable region_admits : region -> Z -> bool.

Lemma settled_bytes n b n' b' d i :
  wf_at n b -> wf_at n' b' -> grows b d b' -> settled b b' ->
  (i <= ob_pos b)%nat -> 0 < len_at b i ->
  base_at b' i = base_at b i /\ cap_at b' i = cap_at b i /\
  len_at b i <= len_at b' i /\
  mem_read (r_blocks (ob_pool b)) (base_at b i) (len_at b i) = Some (seg_bytes b i) /\
  mem_read (r_blocks (ob_pool b')) (base_at b i) (len_at b i) = Some (seg_bytes b i).
Proof.
  intros W W' G S Hi Hl.
  pose proof (st_base _ _ S i Hi Hl) as Hb. pose proof (st_cap _ _ S i Hi Hl) as Hc.
  pose proof (st_len _ _ S i Hi) as Hle. pose proof (st_pos _ _ S) as Hp.
  pose proof (wf_pos _ _ W) as Hpn. pose proof (wf_pos _ _ W') as Hpn'.
  assert (Hin : (i < n)%nat).
  { destruct (decide (i = n)) as [->|]; [|lia]. rewrite (wf_sent_len _ _ W) in Hl. lia. }
  assert (Hin' : (i < n')%nat).
  { destruct (decide (i = n')) as [->|]; [|lia]. rewrite (wf_sent_len _ _ W') in Hle. lia. }
  destruct (wf_seg _ _ W i Hin) as [? ? ? ? (k & blk & Hbk & Hk & Hlb)].
  destruct (wf_seg _ _ W' i Hin') as [? ? ? ? (k' & blk' & Hbk' & Hk' & Hlb')].
  rewrite Hb, Hbk in Hbk'. injection Hbk' as <-.
  split_and!; try done.
  - rewrite Hbk, (mem_read_block _ _ _ _ Hk) by lia.
    by rewrite (seg_bytes_ok b i k blk) by (try done; lia).
  - rewrite Hbk, (mem_read_block _ _ _ _ Hk') by lia. f_equal.
    rewrite <- (g_bytes _ _ _ G i Hi).
    rewrite (seg_bytes_ok b' i k blk') by (try done; try congruence; lia).
    rewrite take_take. f_equal. lia.
Qed.

(** X7. Appends never move data. Whatever a run of appends through
    [obuf_dup] and [obuf_alloc] comes to, return or out of memory, a
    segment that held data keeps its base pointer and its capacity, holds
    at least as many bytes, and the bytes it held are still read at the
    same address. *)
Theorem obuf_appends_keep_addresses n b (ops : list append_op) :
  wf_at n b ->
  Forall (fun op => Z.of_nat (length (op_data op)) <= REQ_MAX) ops ->
  match run_appends NDEBUG region_admits ops b with
  | Ret _ b' | Throw _ b' =>
      forall i, (i <= ob_pos b)%nat -> 0 < len_at b i ->
        base_at b' i = base_at b i /\ cap_at b' i = cap_at b i /\
        len_at b i <= len_at b' i /\
        mem_read (r_blocks (ob_pool b)) (base_at b i) (len_at b i) = Some (seg_bytes b i) /\
        mem_read (r_blocks (ob_pool b')) (base_at b i) (len_at b i) = Some (seg_bytes b i)
  | _ => True
  end.
Proof.
  intros W Hall.
  pose proof (run_appends_spec NDEBUG region_admits ops n b W Hall) as HR.
  pose proof (run_appends_settled NDEBUG region_admits ops n b W Hall) as HS.
  destruct (run_appends NDEBUG region_admits ops b) as [[] b'|e b'| | |]; try done.
  - destruct HR as (n' & W' & G). intros i Hi Hl.
    by apply (settled_bytes n b n' b' (concat (map op_data ops)) i).
  - destruct HR as (_ & n' & d & W' & G). intros i Hi Hl.
    by apply (settled_bytes n b n' b' d i).
Qed.

End Addresses.

Lemma len_at_with_pool r b i : len_at (with_pool r b) i = len_at b i.
Proof. done. Qed.

Section Patch.
Variable NDEBUG : bool.
Variable region_admits : region -> Z -> bool.

Lemma svp_store_spec nB sB q l0 data :
  wf_at nB sB -> (q <= ob_pos sB)%nat -> 0 <= l0 ->
  0 < Z.of_nat (length data) ->
  l0 + Z.of_nat (length data) <= len_at sB q ->
  exists sP,
    obuf_store (ptr_add (base_at sB q) l0) data sB = Ret tt sP /\
    wf_at nB sP /\ ob_size sP = ob_size sB /\ ob_pos sP = ob_pos sB /\
    (forall i, len_at sP i = len_at sB i) /\
    (forall i, base_at sP i = base_at sB i) /\
    (forall i, (i < nB)%nat -> i <> q -> seg_bytes sP i = seg_bytes sB i) /\
    seg_bytes sP q =
      take (Z.to_nat l0) (seg_bytes sB q) ++ data
        ++ drop (Z.to_nat l0 + length data) (seg_bytes sB q).
Proof.
  intros W Hq Hl0 Hd Hfit.
  pose proof (wf_pos _ _ W) as Hpn.
  assert (Hqn : (q < nB)%nat).
  { destruct (decide (q = nB)) as [->|]; [|lia]. rewrite (wf_sent_len _ _ W) in Hfit. lia. }
  destruct (wf_seg _ _ W q Hqn) as [? ? ? ? (k & blk & Hb & Hk & Hlb)].
  rewrite Hb. simpl ptr_add. unfold obuf_store.
  rewrite (memcpy_eq sB k (0 + l0) blk data _ Hk) by lia.
  rewrite Nat2Z.id, take_ge by lia.
  set (blkP := splice (Z.to_nat (0 + l0)) data blk).
  set (sP := with_pool _ sB).
  assert (HlP : length blkP = length blk).
  { unfold blkP. apply splice_length. lia. }
  assert (HkP : r_blocks (ob_pool sP) !! k = Some blkP).
  { unfold sP. simpl. apply list_lookup_insert_eq. by apply lookup_lt_Some in Hk. }
  exists sP. split; [done|].
  assert (WP : wf_at nB sP).
  { apply (wf_at_update nB sB sP W); try done.
    - apply (wf_lcap _ _ W).
    - apply (wf_liov _ _ W).
    - intros i Hi. destruct (wf_seg _ _ W i Hi). unfold sP. rewrite len_at_with_pool. lia.
    - apply (wf_sent_len _ _ W).
    - intros i Hi. apply (wf_tail _ _ W i Hi).
    - intros k0 blk0 Hk0. destruct (decide (k0 = k)) as [->|Hne].
      + exists blkP. split; [done|]. congruence.
      + exists blk0. split; [|done]. unfold sP. simpl.
        by rewrite list_lookup_insert_ne.
    - unfold sP. simpl. rewrite (wf_size _ _ W). symmetry. by apply sum_len_ext. }
  split_and!; try done.
  - intros i Hi Hne. apply seg_bytes_frame; try done.
    intros k0 o0 Hb0. unfold sP. simpl.
    destruct (wf_seg _ _ W i Hi) as [? ? ? ? (ki & blki & Hbi & Hki & Hli)].
    rewrite Hbi in Hb0. injection Hb0 as <- <-.
    apply list_lookup_insert_ne. intros <-.
    apply (wf_distinct _ _ W q i k 0 0); try done; lia.
  - rewrite (seg_bytes_ok sP q k blkP) by (try done; unfold sP; rewrite ?len_at_with_pool; lia).
    rewrite (seg_bytes_ok sB q k blk) by (try done; lia).
    unfold sP. rewrite len_at_with_pool. unfold blkP.
    replace (Z.to_nat (0 + l0)) with (Z.to_nat l0) by lia.
    apply take_splice; lia.
Qed.

(** X8. The use case of [obuf_book]: book [size] bytes, append, then
    store [size] bytes at [obuf_svp_to_ptr] of the savepoint. The store
    is inside the buffer, the size is the one after the appends, and
    [writev] sends what the buffer held before the booking, then the
    stored bytes, then the appended ones. *)
Theorem obuf_book_then_patch n sA size svp s1 (B : list append_op) sB data :
  wf_at n sA -> 0 <= size <= REQ_MAX ->
  Forall (fun op => Z.of_nat (length (op_data op)) <= REQ_MAX) B ->
  obuf_book NDEBUG region_admits size sA = Ret svp s1 ->
  run_appends NDEBUG region_admits B s1 = Ret tt sB ->
  Z.of_nat (length data) = size ->
  exists sP,
    obuf_svp_store svp data sB = Ret tt sP /\
    obuf_wf sP /\
    ob_size sP = ob_size sA + size + Z.of_nat (length (concat (map op_data B))) /\
    obuf_content sP = obuf_content sA ++ data ++ concat (map op_data B).
Proof.
  intros W Hsize Hall Hbook Hrun Hdata.
  destruct (obuf_book_settled NDEBUG region_admits n sA size svp s1 W Hsize Hbook)
    as (n' & b1 & W1 & G1 & S1 & Hsvp & W2 & S12 & L12 & Hfit & Hlen2 & (d & G12 & Hd) & _).
  pose proof (run_appends_spec NDEBUG region_admits B n' s1 W2 Hall) as HR.
  pose proof (run_appends_settled NDEBUG region_admits B n' s1 W2 Hall) as SB.
  rewrite Hrun in HR, SB. destruct HR as (nB & WB & GB).
  set (dB := concat (map op_data B)) in *.
  set (q := ob_pos b1) in *. set (l0 := len_at b1 q) in *.
  destruct L12 as (Hp12 & _ & Hbase12 & _).
  pose proof (wf_pos _ _ WB) as HpB. pose proof (st_pos _ _ SB) as Hp1B.
  pose proof (wf_liov _ _ WB) as HliB. pose proof (wf_n _ _ WB) as HnB.
  assert (Hl0 : 0 <= l0).
  { pose proof (wf_len_le_cap n' b1 q W1 (wf_pos _ _ W1)). lia. }
  assert (HqB : (q <= ob_pos sB)%nat) by (fold q in Hp12; lia).
  assert (HlenB : l0 + size <= len_at sB q).
  { rewrite <- Hlen2. apply (st_len _ _ SB). lia. }
  (* the state the three steps reach, and its size *)
  assert (Hsz : ob_size sB = ob_size sA + size + Z.of_nat (length dB)).
  { rewrite (g_size _ _ _ GB), (g_size _ _ _ G12), (g_size _ _ _ G1), Hd. simpl. lia. }
  assert (Hcont : obuf_content sB = obuf_content sA ++ d ++ dB).
  { rewrite (g_content _ _ _ GB), (g_content _ _ _ G12), (g_content _ _ _ G1).
    by rewrite app_nil_r, <- app_assoc. }
  unfold obuf_svp_store, bind, obuf_svp_to_ptr, bind.
  rewrite Hsvp. simpl svp_pos. simpl svp_iov_len. fold q.
  rewrite (get_iov_eq sB q) by (rewrite HliB; unfold IOBUF_IOV_MAX in *; lia).
  unfold ret. fold (base_at sB q). fold (len_at b1 q). fold l0.
  destruct (decide (size = 0)) as [Hz|Hnz].
  - (* nothing booked, nothing stored *)
    assert (data = []) as -> by (apply length_zero_iff_nil; lia).
    assert (d = []) as -> by (apply length_zero_iff_nil; lia).
    unfold obuf_store. simpl length. rewrite memcpy_zero.
    replace (with_pool _ sB) with sB by (by destruct sB as [[m] ? ? ? ? ?]).
    exists sB. split_and!; [done|by exists nB|done|done].
  - destruct (svp_store_spec nB sB q l0 data WB HqB Hl0 ltac:(lia) ltac:(lia))
      as (sP & HsP & WP & HszP & HpP & HlenP & HbaseP & Hothers & Hq).
    exists sP. split_and!; [done|by exists nB|lia|].
    (* the content, segment by segment *)
    assert (Hqn : (q < nB)%nat).
    { destruct (decide (q = nB)) as [->|]; [|lia]. rewrite (wf_sent_len _ _ WB) in HlenB. lia. }
    assert (Hcnt : iovcnt sP = iovcnt sB).
    { unfold iovcnt. by rewrite HpP, HlenP. }
    assert (Hqc : (q < iovcnt sB)%nat).
    { unfold iovcnt. destruct (decide (q = ob_pos sB)) as [<-|Hne].
      - replace (len_at sB q >? 0) with true by (symmetry; apply Z.gtb_lt; lia). lia.
      - destruct (len_at sB (ob_pos sB) >? 0); lia. }
    assert (Hcn : (iovcnt sB <= nB)%nat).
    { unfold iovcnt. destruct (len_at sB (ob_pos sB) >? 0) eqn:E; [|lia].
      destruct (decide (ob_pos sB = nB)) as [Heq|]; [|lia].
      rewrite Heq, (wf_sent_len _ _ WB) in E. done. }
    set (post := concat (map (seg_bytes sB) (seq (S q) (iovcnt sB - S q)))).
    assert (HcP : obuf_content sP =
                  content_upto sB q ++ seg_bytes sP q ++ post).
    { unfold obuf_content. rewrite Hcnt.
      apply (concat_map_patch (seg_bytes sB) (seg_bytes sP)); [done|].
      intros i Hi Hne. apply Hothers; [lia|done]. }
    assert (HcB : obuf_content sB =
                  content_upto sB q ++ seg_bytes sB q ++ post).
    { unfold obuf_content.
      by apply (concat_map_patch (seg_bytes sB) (seg_bytes sB)). }
    pose proof (grows_trans _ _ _ _ _ G12 GB) as G1B.
    assert (Hpre : content_upto sB q = content_upto b1 q).
    { apply content_upto_ext. intros i Hi.
      rewrite <- (g_bytes _ _ _ G1B i) by (fold q; lia).
      rewrite <- (g_len_below _ _ _ G1B i) by (fold q; lia).
      symmetry. apply seg_bytes_take_self. }
    assert (Hcur : take (Z.to_nat l0) (seg_bytes sB q) = seg_bytes b1 q).
    { apply (g_bytes _ _ _ G1B q). fold q. lia. }
    assert (HA : obuf_content sA = content_upto b1 q ++ seg_bytes b1 q).
    { pose proof (g_content _ _ _ G1) as H1. rewrite app_nil_r in H1.
      rewrite <- H1. apply obuf_content_eq. }
    assert (HlsB : Z.of_nat (length (seg_bytes sB q)) = len_at sB q).
    { apply seg_bytes_length. apply (wf_seg _ _ WB q Hqn). }
    (* what follows the booked bytes *)
    assert (Hrest : d ++ dB = drop (Z.to_nat l0) (seg_bytes sB q) ++ post).
    { apply (app_inv_head (obuf_content sA)). rewrite <- Hcont, HcB, HA, Hpre, <- Hcur.
      rewrite <- !app_assoc. f_equal. by rewrite app_assoc, take_drop. }
    assert (HdB : dB = drop (Z.to_nat l0 + length data) (seg_bytes sB q) ++ post).
    { transitivity (drop (length d) (d ++ dB)).
      - by rewrite drop_app_length.
      - rewrite Hrest, drop_app_le by (rewrite length_drop; lia).
        rewrite drop_drop. f_equal. f_equal. lia. }
    rewrite HcP, Hq, HA, Hpre, Hcur, HdB. by rewrite <- !app_assoc.
Qed.

End Patch.

(** ** Failure, reuse and the callbacks *)

Lemma wf_at_unique n n' b : wf_at n b -> wf_at n' b -> n = n'.
Proof.
  intros W W'.
  destruct (Nat.lt_trichotomy n n') as [H|[H|H]]; [|done|].
  - destruct (wf_seg _ _ W' n H). pose proof (wf_sent_cap _ _ W). lia.
  - destruct (wf_seg _ _ W n' H). pose proof (wf_sent_cap _ _ W'). lia.
Qed.

Lemma room_next n b :
  wf_at n b -> (ob_pos b < n)%nat ->
  room (with_pos (ob_pos b + 1) b) n =
  room b n - (cap_at b (ob_pos b) - len_at b (ob_pos b)).
Proof.
  intros W Hp. unfold room. simpl ob_pos.
  change (len_at (with_pos _ b)) with (len_at b).
  rewrite (sum_cap_ext b (with_pos (ob_pos b + 1) b)) by done.
  rewrite (sum_cap_lt b (ob_pos b) n Hp). rewrite Nat.add_1_r.
  assert (len_at b (S (ob_pos b)) = 0) as ->; [|lia].
  destruct (decide (S (ob_pos b) = n)) as [<-|Hne].
  - apply (wf_sent_len _ _ W).
  - apply (wf_tail _ _ W). lia.
Qed.

Section DupFailure.
Variable NDEBUG : bool.
Variable region_admits : region -> Z -> bool.

(** When the loop of [obuf_dup] fails, the allocated segments are full. *)
Lemma dup_loop_throw_size fuel : forall n b data,
  wf_at n b -> Z.of_nat (length data) <= REQ_MAX ->
  (n - ob_pos b < fuel)%nat ->
  match obuf_dup_loop NDEBUG region_admits fuel data b with
  | Throw _ b' => ob_size b' = ob_size b + room b n
  | _ => True
  end.
Proof.
  induction fuel as [|fuel IH]; intros n b data W Hdata Hfuel; [lia|].
  pose proof (wf_liov _ _ W) as Hli. pose proof (wf_lcap _ _ W) as Hlc.
  pose proof (wf_pos _ _ W) as Hpn. pose proof (wf_n _ _ W) as Hn.
  rewrite obuf_dup_loop_eq. cbv zeta.
  mgets. mstep (get_iov_eq b (ob_pos b) ltac:(lia)).
  mstep (get_capacity_eq b (ob_pos b) ltac:(lia)).
  rewrite <- ?len_at_eq, <- ?base_at_eq.
  set (p := ob_pos b) in *. set (size := Z.of_nat (length data)) in *.
  assert (Hseg : 0 <= len_at b p <= cap_at b p /\ cap_at b p <= 2 ^ 63 /\
                 ((p < n)%nat -> 0 < cap_at b p) /\ (p = n -> cap_at b p = 0)).
  { destruct (decide (p < n)%nat) as [Hp|Hp].
    - destruct (wf_seg _ _ W p Hp). pose proof (cap_bound_seg p ltac:(lia)).
      split_and!; try lia.
    - assert (p = n) as -> by lia.
      rewrite (wf_sent_cap _ _ W), (wf_sent_len _ _ W). split_and!; try lia. }
  destruct Hseg as (Hlen & Hcap63 & Hcappos & Hcap0).
  assert (Hsize : 0 <= size <= 2 ^ 32) by (unfold REQ_MAX in Hdata; lia).
  rewrite (wrap_small (len_at b p + size)) by lia.
  destruct (len_at b p + size >? cap_at b p) eqn:Econd; [|done].
  rewrite Z.gtb_ltb in Econd. apply Z.ltb_lt in Econd.
  destruct (len_at b p <? cap_at b p) eqn:Elt.
  - apply Z.ltb_lt in Elt.
    assert (Hp : (p < n)%nat).
    { destruct (decide (p < n)%nat); [done|]. rewrite Hcap0 in Elt by lia. lia. }
    set (fill := cap_at b p - len_at b p).
    rewrite (wrap_small fill) by (unfold fill; lia).
    unfold bind at 1. rewrite assert_holds.
    2:{ unfold ret. f_equal. apply Z.ltb_lt. unfold fill. lia. }
    destruct (append_step_settled n b data fill
      (assert_ NDEBUG (v <- get_iov p ;; ret (cap_at b p =? iov_len v)) ;;;
       modify (with_pos (p + 1)) ;;;
       assert_ NDEBUG (q <- gets ob_pos ;; ret (bool_decide (q < IOBUF_IOV_MAX)%nat)) ;;;
       obuf_dup_loop NDEBUG region_admits fuel (drop (Z.to_nat fill) data)) W)
      as (b1 & Heq & W1 & G1 & Hpos1 & Hcap1 & Hlen1 & _).
    { unfold fill. fold size. lia. }
    { fold p. unfold fill. lia. }
    fold p in Heq, Hlen1, Hpos1. rewrite Heq. clear Heq.
    rewrite <- Hpos1, <- (Hcap1 (ob_pos b1)).
    rewrite (dup_next_eq NDEBUG n b1); [|done|lia|rewrite Hpos1, Hlen1, Hcap1; unfold fill; lia].
    set (b2 := with_pos (ob_pos b1 + 1) b1).
    assert (W2 : wf_at n b2) by (apply advance_wf; [done|lia]).
    set (data' := drop (Z.to_nat fill) data).
    assert (Hd' : Z.of_nat (length data') = size - fill).
    { unfold data'. rewrite length_drop. unfold fill in *. lia. }
    specialize (IH n b2 data' W2 ltac:(unfold REQ_MAX in *; lia) ltac:(simpl; lia)).
    destruct (obuf_dup_loop NDEBUG region_admits fuel data' b2) as [rest b'|e b'| | |];
      try done.
    rewrite IH. change (ob_size b2) with (ob_size b1).
    rewrite (g_size _ _ _ G1), length_take.
    unfold b2. rewrite (room_next n b1 W1 ltac:(lia)).
    rewrite Hpos1, Hlen1, Hcap1.
    assert (room b1 n = room b n - fill) as ->; [|unfold fill in *; fold size; lia].
    unfold room. rewrite Hpos1, Hlen1. fold p.
    rewrite (sum_cap_ext b b1) by (intros; apply Hcap1). lia.
  - apply Z.ltb_ge in Elt.
    destruct (cap_at b p =? 0) eqn:E0.
    + apply Z.eqb_eq in E0.
      assert (Hp : p = n).
      { destruct (decide (p < n)%nat) as [Hp|]; [|lia]. specialize (Hcappos Hp). lia. }
      rewrite <- bind_assoc. rewrite Hp.
      pose proof (materialize_spec NDEBUG region_admits n b size W Hp Hsize) as HM.
      unfold bind at 1. fold size.
      destruct ((obuf_init_pos (n + 1);;; obuf_alloc_pos NDEBUG region_admits n size) b)
        as [[] b'|e b'| | |]; try done.
      assert (Hroom : room b n = 0).
      { unfold room. fold p. rewrite Hp, sum_cap_ge, (wf_sent_len _ _ W) by lia. done. }
      rewrite Hroom.
      inversion HM as [Hmax Ho|b1 r c Hlt W1 G1 Hadm Ho| ]; subst; [lia|].
      rewrite (g_size _ _ _ G1). simpl. lia.
    + apply Z.eqb_neq in E0.
      assert (Hp : (p < n)%nat).
      { destruct (decide (p < n)%nat); [done|]. rewrite Hcap0 in E0 by lia. lia. }
      rewrite (dup_next_eq NDEBUG n b); [|done|done|fold p; lia].
      fold p.
      set (b2 := with_pos (p + 1) b).
      assert (W2 : wf_at n b2) by (apply advance_wf; [done|lia]).
      specialize (IH n b2 data W2 Hdata ltac:(simpl; lia)).
      destruct (obuf_dup_loop NDEBUG region_admits fuel data b2) as [rest b'|e b'| | |];
        try done.
      rewrite IH. change (ob_size b2) with (ob_size b).
      unfold b2, p. rewrite (room_next n b W Hp). fold p. lia.
Qed.

Lemma obuf_dup_throw_size n b data :
  wf_at n b -> Z.of_nat (length data) <= REQ_MAX ->
  match obuf_dup NDEBUG region_admits data b with
  | Throw _ b' => ob_size b' = ob_size b + room b n
  | _ => True
  end.
Proof.
  intros W Hdata. unfold obuf_dup. unfold bind at 1.
  pose proof (dup_loop_spec NDEBUG region_admits IOBUF_IOV_MAX n b data W Hdata
                ltac:(pose proof (wf_n _ _ W); lia)) as HL.
  pose proof (dup_loop_throw_size IOBUF_IOV_MAX n b data W Hdata
                ltac:(pose proof (wf_n _ _ W); lia)) as HT.
  destruct (obuf_dup_loop NDEBUG region_admits IOBUF_IOV_MAX data b)
    as [rest b1|e b1| | |]; simpl in HL; try done.
  destruct HL as (n' & d & Hd & W1 & G1 & Hfit & Hroom).
  pose proof (wf_liov _ _ W1) as Hli. pose proof (wf_pos _ _ W1) as Hpn.
  pose proof (wf_n _ _ W1) as Hn. cbv zeta.
  mgets. mstep (get_iov_eq b1 (ob_pos b1) ltac:(lia)).
  rewrite <- ?len_at_eq, <- ?base_at_eq.
  destruct (append_step n' b1 rest (Z.of_nat (length rest))
     (assert_ NDEBUG (p <- gets ob_pos ;; v <- get_iov p ;; c <- get_capacity p ;;
                      ret (iov_len v <=? c))) W1)
    as (b2 & Heq & W2 & G2 & Hpos2 & Hcap2 & Hlen2); [lia|done|].
  rewrite Heq. rewrite assert_holds; [done|].
  mgets. rewrite Hpos2.
  mstep (get_iov_eq b2 (ob_pos b1) ltac:(rewrite (wf_liov _ _ W2); lia)).
  mstep (get_capacity_eq b2 (ob_pos b1) ltac:(rewrite (wf_lcap _ _ W2); lia)).
  unfold ret. f_equal. apply Z.leb_le. rewrite <- len_at_eq.
  apply (wf_len_le_cap n'); [done|lia].
Qed.

(** X4. A failing [obuf_dup] is not undone. It raises only out of
    memory and only when the bytes exceed the free room [room] of the
    allocated segments; the buffer is then well formed with the same
    segments and blocks, and holds what it held followed by the first
    [room] bytes of the data, its size grown by [room]. *)
Theorem obuf_dup_failure_partial n b data e b' :
  wf_at n b -> Z.of_nat (length data) <= REQ_MAX ->
  obuf_dup NDEBUG region_admits data b = Throw e b' ->
  e = OutOfMemory /\ wf_at n b' /\
  0 <= room b n < Z.of_nat (length data) /\
  obuf_content b' = obuf_content b ++ take (Z.to_nat (room b n)) data /\
  ob_size b' = ob_size b + room b n /\
  blocks b' = blocks b.
Proof.
  intros W Hdata Hrun.
  pose proof (obuf_dup_spec NDEBUG region_admits n b data W Hdata) as HD.
  pose proof (obuf_dup_settled NDEBUG region_admits n b data W Hdata) as HS.
  pose proof (obuf_dup_throw_size n b data W Hdata) as HT.
  rewrite Hrun in HD, HS, HT. simpl in HD, HS.
  destruct HD as (-> & Hlt & d & rest & Hd & W' & G & _).
  destruct HS as (_ & _ & N).
  assert (Hroom : Z.of_nat (length d) = room b n).
  { pose proof (g_size _ _ _ G). lia. }
  split_and!; try done; try lia.
  rewrite (g_content _ _ _ G). f_equal.
  rewrite Hd, <- Hroom, Nat2Z.id. by rewrite take_app_length.
Qed.

(** X3. An [obuf_dup] of bytes that fit into the free room of the
    allocated segments cannot fail: it returns, the buffer holds what it
    held followed by the bytes, its size grows by their number, no
    segment is added and the region is asked for no block. *)
Theorem obuf_dup_fits n b data :
  wf_at n b -> Z.of_nat (length data) <= REQ_MAX ->
  Z.of_nat (length data) <= room b n ->
  exists b', obuf_dup NDEBUG region_admits data b = Ret tt b' /\
    wf_at n b' /\ obuf_content b' = obuf_content b ++ data /\
    ob_size b' = ob_size b + Z.of_nat (length data) /\
    blocks b' = blocks b.
Proof.
  intros W Hdata Hroom.
  pose proof (obuf_dup_spec NDEBUG region_admits n b data W Hdata) as HD.
  pose proof (obuf_dup_settled NDEBUG region_admits n b data W Hdata) as HS.
  destruct (obuf_dup NDEBUG region_admits data b) as [[] b'|e b'| | |];
    simpl in HD, HS; try done.
  - destruct HD as (n' & W' & G & [[_ ->]|[Hlt _]]); [|lia].
    destruct HS as (_ & n1 & W1 & _ & N1).
    rewrite <- (wf_at_unique _ _ _ W' W1), Nat.sub_diag, Nat.add_0_r in N1.
    exists b'. split_and!; try done; [apply (g_content _ _ _ G)|apply (g_size _ _ _ G)].
  - destruct HD as (_ & Hlt & _). lia.
Qed.

(** X6. After [obuf_reset], an [obuf_dup] of up to the whole capacity
    of the allocated segments returns without a new allocation: the
    buffer holds exactly the new bytes, in the segments and blocks it
    had before the reset. *)
Theorem obuf_reset_reuse n b data :
  wf_at n b -> Z.of_nat (length data) <= REQ_MAX ->
  Z.of_nat (length data) <= sum_cap b 0 n ->
  exists b0 b',
    obuf_reset b = Ret tt b0 /\
    obuf_dup NDEBUG region_admits data b0 = Ret tt b' /\
    wf_at n b' /\ obuf_content b' = data /\
    ob_size b' = Z.of_nat (length data) /\
    blocks b' = blocks b.
Proof.
  intros W Hdata Hcap.
  destruct (obuf_reset_spec n b W)
    as (b0 & Hreset & W0 & Hsz0 & _ & _ & Hc0 & Hpool0 & _ & _ & _ & _ & Hroom0).
  pose proof (obuf_dup_spec NDEBUG region_admits n b0 data W0 Hdata) as HD.
  pose proof (obuf_dup_settled NDEBUG region_admits n b0 data W0 Hdata) as HS.
  exists b0.
  destruct (obuf_dup NDEBUG region_admits data b0) as [[] b'|e b'| | |];
    simpl in HD, HS; try done.
  - destruct HD as (n' & W' & G & [[_ ->]|[Hlt _]]); [|lia].
    destruct HS as (_ & n1 & W1 & _ & N1).
    rewrite <- (wf_at_unique _ _ _ W' W1), Nat.sub_diag, Nat.add_0_r in N1.
    exists b'. split_and!; try done.
    + by rewrite (g_content _ _ _ G), Hc0.
    + rewrite (g_size _ _ _ G), Hsz0. lia.
    + rewrite N1. unfold blocks. by rewrite Hpool0.
  - destruct HD as (_ & Hlt & _). lia.
Qed.

(** X5. A run of appends that raises, raises out of memory and leaves
    the buffer with what it held followed by a prefix of the appended
    bytes, its size grown by the length of that prefix; the rollback to
    a savepoint taken before the run returns and restores the size, the
    position and the contents the buffer had then, without giving
    memory back. *)
Theorem obuf_failed_appends_roll_back n sA (B : list append_op) e sB :
  wf_at n sA ->
  Forall (fun op => Z.of_nat (length (op_data op)) <= REQ_MAX) B ->
  run_appends NDEBUG region_admits B sA = Throw e sB ->
  exists svp sR d,
    obuf_create_svp sA = Ret svp sA /\
    e = OutOfMemory /\
    d `prefix_of` concat (map op_data B) /\
    obuf_content sB = obuf_content sA ++ d /\
    ob_size sB = ob_size sA + Z.of_nat (length d) /\
    obuf_rollback_to_svp svp sB = Ret tt sR /\
    obuf_wf sR /\
    ob_size sR = ob_size sA /\ ob_pos sR = ob_pos sA /\
    obuf_content sR = obuf_content sA /\
    ob_pool sR = ob_pool sB.
Proof.
  intros W Hall Hrun.
  pose proof (run_appends_spec NDEBUG region_admits B n sA W Hall) as HR.
  pose proof (run_appends_throw_prefix NDEBUG region_admits B n sA W Hall) as HP.
  rewrite Hrun in HR, HP. destruct HR as (-> & nB & _ & WB & _).
  destruct HP as (d & Hpre & G).
  destruct (rollback_restores n sA d nB sB W WB G)
    as (sR & Hrb & WR & Hpos & Hsize & _ & Hcont).
  exists (svp_of sA), sR, d. split_and!; try done.
  - apply obuf_create_svp_eq. rewrite (wf_liov _ _ W).
    pose proof (wf_pos _ _ W). pose proof (wf_n _ _ W). lia.
  - apply (g_content _ _ _ G).
  - apply (g_size _ _ _ G).
  - by exists nB.
  - destruct (obuf_rollback_spec nB sB (svp_of sA) WB) as (sR' & Hrb' & _ & _ & _ & Hpool & _).
    + apply (g_pos _ _ _ G).
    + simpl. pose proof (wf_len_le_cap n sA (ob_pos sA) W (wf_pos _ _ W)).
      pose proof (g_len_cur _ _ _ G). lia.
    + simpl. rewrite (wf_size _ _ W).
      pose proof (wf_pos _ _ W) as Hq.
      rewrite (sum_len_ext sA sB (ob_pos sA))
        by (intros; apply (g_len_below _ _ _ G); lia).
      destruct (decide (ob_pos sA = n)) as [E|E].
      * rewrite E, (wf_sent_len _ _ W). lia.
      * apply sum_len_tail; [lia|]. intros i Hi. apply (wf_tail _ _ W). lia.
    + rewrite Hrb in Hrb'. by injection Hrb' as <-.
Qed.

End DupFailure.

Section Callbacks.
Variable NDEBUG : bool.
Variable region_admits : region -> Z -> bool.

(** X10. [obuf_reserve_cb] leaves size and contents alone and reports
    all the free bytes of the current segment: at least what was asked
    for, readable as one range at the pointer it returns. An
    [obuf_alloc_cb] of any part of them (of less than all of them when
    asserts are compiled in) returns that same pointer and makes the
    bytes there the end of the contents. Failure is out of memory, or
    the assert on the realloc path. *)
Theorem obuf_reserve_cb_window n b size :
  wf_at n b -> 0 <= size <= REQ_MAX ->
  match obuf_reserve_cb NDEBUG region_admits size b with
  | Ret (p, avail) b1 =>
      size <= avail /\ obuf_wf b1 /\
      obuf_content b1 = obuf_content b /\ ob_size b1 = ob_size b /\
      avail = cap_at b1 (ob_pos b1) - len_at b1 (ob_pos b1) /\
      (exists window, mem_read (r_blocks (ob_pool b1)) p avail = Some window) /\
      forall k, 0 <= k -> k + (if NDEBUG then 0 else 1) <= avail ->
        exists b2 d,
          obuf_alloc_cb NDEBUG region_admits k b1 = Ret p b2 /\ obuf_wf b2 /\
          Z.of_nat (length d) = k /\
          obuf_content b2 = obuf_content b ++ d /\ ob_size b2 = ob_size b + k /\
          mem_read (r_blocks (ob_pool b2)) p k = Some d
  | Throw e b1 => e = OutOfMemory /\ obuf_wf b1 /\ obuf_content b1 = obuf_content b
  | Abort => NDEBUG = false
  | _ => False
  end.
Proof.
  intros W Hsize. unfold obuf_reserve_cb. unfold bind at 1.
  pose proof (obuf_reserve_spec NDEBUG region_admits n b size W Hsize) as HR.
  destruct (obuf_reserve NDEBUG region_admits size b) as [p b1|e b1| | |];
    simpl in HR; try done.
  - destruct HR as (n' & W1 & G1 & _ & Hfit & Hp & _).
    pose proof (wf_liov _ _ W1) as Hli. pose proof (wf_lcap _ _ W1) as Hlc.
    pose proof (wf_pos _ _ W1) as Hpn. pose proof (wf_n _ _ W1) as Hn.
    pose proof (wf_len_le_cap n' b1 (ob_pos b1) W1 Hpn) as Hlen.
    assert (Hc63 : cap_at b1 (ob_pos b1) <= 2 ^ 63).
    { destruct (decide (ob_pos b1 < n')%nat) as [Hlt|Hge].
      - destruct (wf_seg _ _ W1 _ Hlt). pose proof (cap_bound_seg (ob_pos b1) ltac:(lia)). lia.
      - replace (ob_pos b1) with n' by lia. rewrite (wf_sent_cap _ _ W1). lia. }
    mgets. mstep (get_capacity_eq b1 (ob_pos b1) ltac:(lia)).
    mstep (get_iov_eq b1 (ob_pos b1) ltac:(lia)).
    unfold ret. rewrite <- ?len_at_eq.
    rewrite wrap_small by lia.
    pose proof (g_content _ _ _ G1) as Hc. rewrite app_nil_r in Hc.
    pose proof (g_size _ _ _ G1) as Hs. simpl in Hs.
    split_and!; try done; try lia; [by exists n'| |].
    + destruct (decide (ob_pos b1 < n')%nat) as [Hlt|Hge].
      * destruct (wf_seg _ _ W1 _ Hlt) as [? ? ? ? (k & blk & Hb & Hk & Hlb)].
        rewrite Hp, Hb. simpl ptr_add.
        rewrite (mem_read_block' _ _ _ _ _ Hk) by lia. by eexists.
      * replace (ob_pos b1) with n' by lia.
        rewrite (wf_sent_cap _ _ W1), (wf_sent_len _ _ W1). by exists [].
    + intros k Hk Hka. unfold obuf_alloc_cb. rewrite obuf_alloc_eq.
      mgets. mstep (get_iov_eq b1 (ob_pos b1) ltac:(lia)).
      mstep (get_capacity_eq b1 (ob_pos b1) ltac:(lia)).
      rewrite <- ?len_at_eq.
      assert (Hkfit : len_at b1 (ob_pos b1) + k <= cap_at b1 (ob_pos b1)).
      { destruct NDEBUG; lia. }
      rewrite wrap_small by lia.
      replace (len_at b1 (ob_pos b1) + k >? cap_at b1 (ob_pos b1)) with false
        by (symmetry; rewrite Z.gtb_ltb; apply Z.ltb_ge; lia).
      unfold bind at 1. unfold ret at 1.
      destruct (alloc_tail_spec NDEBUG n' b1 k W1 Hk Hkfit)
        as (b2 & d & Heq & W2 & G2 & Hd & Hpool & Hrd).
      replace (negb NDEBUG && (len_at b1 (ob_pos b1) + k =? cap_at b1 (ob_pos b1)))
        with false in Heq.
      2:{ symmetry. destruct NDEBUG; [done|]. simpl. apply Z.eqb_neq. lia. }
      exists b2, d. rewrite Heq, Hp. split_and!; try done.
      * by exists n'.
      * by rewrite (g_content _ _ _ G2), Hc.
      * rewrite (g_size _ _ _ G2). lia.
      * by rewrite Hpool.
  - destruct HR as (-> & W1 & G1 & _). split_and!; [done|by exists n|].
    by rewrite (g_content _ _ _ G1), app_nil_r.
  - by destruct HR.
Qed.

End Callbacks.

(** * The theorems at concrete inputs *)

(** The savepoint law on the booked savepoint of [SavepointExample]:
    the rollback restores the size and the contents after the first
    append, and leaves the buffer at the segment of the savepoint. *)
Lemma obuf_savepoint_rollback_witness :
  exists sR,
    obuf_rollback_to_svp SavepointExample.svp SavepointExample.sB = Ret tt sR /\
    ob_size sR = ob_size SavepointExample.sA /\
    ob_pos sR = svp_pos SavepointExample.svp /\
    ob_pos sR = S (ob_pos SavepointExample.sA) /\
    obuf_content sR = obuf_content SavepointExample.sA.
Proof.
  destruct (obuf_savepoint_rollback false Scenario.admits_all (ByBook 50) 1
              SavepointExample.sA SavepointExample.svp SavepointExample.s_booked
              SavepointExample.B SavepointExample.sB)
    as (sR & Hrb & _ & Hsize & Hpos & _ & Hbook & _ & Hcont & _).
  - apply wf_check_sound. vm_compute. reflexivity.
  - unfold REQ_MAX. lia.
  - repeat constructor; vm_compute; discriminate.
  - vm_compute. reflexivity.
  - vm_compute. reflexivity.
  - exists sR.
    assert (Hnext : ob_pos sR = S (ob_pos SavepointExample.sA)).
    { rewrite (Hbook 50 eq_refl). vm_compute. reflexivity. }
    exact (conj Hrb (conj Hsize (conj Hpos (conj Hnext Hcont)))).
Defined.

(** The exact fit of 28 bytes into the 28 bytes left of segment 0. *)
Lemma obuf_alloc_exact_fit_aborts_witness :
  exact_fit SavepointExample.sA 28 /\
  reserve_store_alloc false Scenario.admits_all (Scenario.bytes 28 x62)
    SavepointExample.sA = Abort.
Proof.
  split; [vm_compute; reflexivity|].
  apply (obuf_alloc_exact_fit_aborts Scenario.admits_all 1 SavepointExample.sA
           (Scenario.bytes 28 x62)).
  - apply wf_check_sound. vm_compute. reflexivity.
  - discriminate.
  - vm_compute. discriminate.
  - vm_compute. reflexivity.
Defined.

(** One more byte for the buffer whose 31 usable slots are full. *)
Lemma obuf_dup_segment_cap_witness :
  exists b', obuf_dup false Scenario.admits_all [x61] full31 = Throw OutOfMemory b' /\
    wf_at 31 b' /\
    (exists d, d `prefix_of` [x61] /\ grows full31 d b') /\
    (exists b'', obuf_rollback_to_svp (svp_of full31) b' = Ret tt b'' /\
       wf_at 31 b'' /\ ob_size b'' = ob_size full31 /\ ob_pos b'' = ob_pos full31 /\
       obuf_content b'' = obuf_content full31).
Proof.
  apply (obuf_dup_segment_cap false Scenario.admits_all 31 full31 [x61]).
  - apply wf_check_sound. vm_compute. reflexivity.
  - vm_compute. discriminate.
  - reflexivity.
  - vm_compute. reflexivity.
Defined.

(** The three parts of the claim on a buffer that has to de-fragment. *)
Lemma ibuf_reserve_defragments_witness :
  ibuf_used IbufExample.fragmented = 2 /\ ibuf_free IbufExample.fragmented = 2 /\
  exists b', ibuf_reserve false 16320 IbufExample.no_slabs 4 IbufExample.fragmented
             = Ret tt b' /\
    ib_pos b' = ib_buf b' /\ ib_buf b' = ib_buf IbufExample.fragmented /\
    ib_capacity b' = ib_capacity IbufExample.fragmented /\
    ibuf_size false b' = Ret 2 b' /\
    ibuf_data b' = Some [x05; x06].
Proof.
  split; [reflexivity|]. split; [reflexivity|].
  destruct (ibuf_reserve_defragments false 16320 IbufExample.no_slabs
              IbufExample.fragmented 4) as [Hfit Hmove].
  - apply (ibuf_wf_slab _ 0%nat [x01; x02; x03; x04; x05; x06; x07; x08] 4 6);
      try reflexivity; vm_compute; try discriminate; split; discriminate.
  - unfold SIZE_MAX. lia.
  - destruct Hfit as (b1 & Heq1 & _ & Hcap & _); [vm_compute; discriminate|].
    destruct Hmove as (b2 & Heq2 & Hpos & Hbuf & Hsz & _ & Hdata);
      [vm_compute; reflexivity|vm_compute; discriminate|].
    exists b2. rewrite Heq2 in Heq1. injection Heq1 as <-.
    split_and!; try done.
Defined.

(** The realloc path on the buffer of the scenario after the rollback:
    segment 0 holds 100 bytes, segment 1 has capacity 256. *)
Lemma obuf_reserve_slow_realloc_aborts_witness :
  cap_at (Scenario.state_of Scenario2.s3) 1 = 256 /\
  obuf_reserve_slow false Scenario.admits_all 300 (Scenario.state_of Scenario2.s3) = Abort.
Proof.
  split; [vm_compute; reflexivity|].
  apply (obuf_reserve_slow_realloc_aborts Scenario.admits_all 2
           (Scenario.state_of Scenario2.s3) 300).
  - apply wf_check_sound. vm_compute. reflexivity.
  - vm_compute. reflexivity.
  - vm_compute. lia.
  - split; [vm_compute; reflexivity|vm_compute; discriminate].
Defined.

(** A unit with empty buffers that is pinned once: not idle, not idle
    after one more pin, idle after the unpin. *)
Lemma iobuf_idle_iff_empty_unpinned_witness :
  iobuf_is_idle false IbufExample.pinned_once = Ret false IbufExample.pinned_once /\
  (exists io', iobuf_pin IbufExample.pinned_once = Ret tt io' /\
               iobuf_is_idle false io' = Ret false io') /\
  (exists io', iobuf_unpin IbufExample.pinned_once = Ret tt io' /\
               iobuf_is_idle false io' = Ret true io').
Proof.
  destruct (iobuf_idle_iff_empty_unpinned false IbufExample.pinned_once)
    as ((r & Hr & Hiff) & Hpin & Hunpin).
  - by apply ibuf_wf_null.
  - split_and!.
    + destruct r; [|done]. apply proj1 in Hiff. by destruct (Hiff eq_refl) as (_ & _ & ?).
    + destruct Hpin as (io' & ? & _ & _ & ?); [vm_compute; split; discriminate|].
      by exists io'.
    + destruct Hunpin as (io' & ? & ?); [reflexivity|reflexivity|reflexivity|].
      by exists io'.
Defined.

(** The buffer whose 31 usable slots are full: an append and a reserve
    that need slot 31 raise. *)
Lemma obuf_effective_cap_witness :
  (iovcnt full31 < IOBUF_IOV_MAX)%nat /\
  (exists b', obuf_dup false Scenario.admits_all [x61] full31 = Throw OutOfMemory b') /\
  (exists b', obuf_reserve_slow false Scenario.admits_all 1 full31 = Throw OutOfMemory b') /\
  obuf_init_pos IOBUF_IOV_MAX full31 = Throw OutOfMemory full31.
Proof.
  destruct (obuf_effective_cap false Scenario.admits_all 31 full31 [x61] 1)
    as (_ & Hcnt & _ & _ & Hdup & Hslow & Hinit).
  - apply wf_check_sound. vm_compute. reflexivity.
  - vm_compute. discriminate.
  - unfold REQ_MAX. lia.
  - split_and!; [done| | |done].
    + apply Hdup; [reflexivity|vm_compute; reflexivity].
    + apply Hslow. reflexivity.
Defined.

(** Growing the fragmented buffer to hold 100 more bytes when the slab
    cache has nothing to give. *)
Lemma ibuf_reserve_failure_atomic_witness :
  ibuf_reserve false 16320 IbufExample.no_slabs 100 IbufExample.fragmented
  = Throw OutOfMemory IbufExample.fragmented.
Proof.
  destruct (ibuf_reserve_failure_atomic false 16320 IbufExample.no_slabs
              IbufExample.fragmented 100) as [_ Hfail].
  apply (Hfail 16320).
  - apply (ibuf_wf_slab _ 0%nat [x01; x02; x03; x04; x05; x06; x07; x08] 4 6);
      try reflexivity; vm_compute; try discriminate; split; discriminate.
  - vm_compute. reflexivity.
  - vm_compute. reflexivity.
  - vm_compute. reflexivity.
  - reflexivity.
Defined.

(** The pin count must not be negative for the second part of C8: a
    unit at pin count -1 with empty buffers is idle after a pin. *)
Lemma iobuf_pin_from_minus_one :
  exists io', iobuf_pin (Iobuf (ibuf_create (SlabCache [])) (Scenario.state_of Scenario.s0) (-1))
              = Ret tt io' /\
    iobuf_is_idle false io' = Ret true io'.
Proof. eexists. split; [reflexivity|]. vm_compute. reflexivity. Qed.

(** The buffer of the scenario after both appends: 150 bytes in two
    segments. *)
Lemma obuf_size_counts_content_witness :
  obuf_size MoreExamples.s150 = Ret 150 MoreExamples.s150 /\ obuf_iovcnt MoreExamples.s150 = Ret 2%nat MoreExamples.s150.
Proof.
  destruct (obuf_size_counts_content 2 MoreExamples.s150) as (Hs & Hc & _).
  - apply wf_check_sound. vm_compute. reflexivity.
  - split; [|exact Hc].
    replace 150 with (Z.of_nat (length (obuf_content MoreExamples.s150))) by (vm_compute; reflexivity).
    exact Hs.
Defined.

(** Its reset: nothing held, the two blocks of 128 and 256 bytes kept. *)
Lemma obuf_reset_keeps_memory_witness :
  exists b', obuf_reset MoreExamples.s150 = Ret tt b' /\ obuf_size b' = Ret 0 b' /\
    obuf_content b' = [] /\ ob_pool b' = ob_pool MoreExamples.s150 /\ room b' 2 = 384.
Proof.
  destruct (obuf_reset_keeps_memory 2 MoreExamples.s150)
    as (b' & Hr & _ & Hs & _ & _ & Hc & Hp & _ & _ & _ & _ & Hroom).
  - apply wf_check_sound. vm_compute. reflexivity.
  - exists b'.
    replace 384 with (sum_cap MoreExamples.s150 0 2) by (vm_compute; reflexivity).
    exact (conj Hr (conj Hs (conj Hc (conj Hp Hroom)))).
Defined.

(** 20 bytes for the 28 bytes left of segment 0. *)
Lemma obuf_dup_fits_witness :
  exists b', obuf_dup false Scenario.admits_all (Scenario.bytes 20 x62) SavepointExample.sA
             = Ret tt b' /\
    wf_at 1 b' /\
    obuf_content b' = obuf_content SavepointExample.sA ++ Scenario.bytes 20 x62 /\
    blocks b' = blocks SavepointExample.sA.
Proof.
  destruct (obuf_dup_fits false Scenario.admits_all 1 SavepointExample.sA
              (Scenario.bytes 20 x62)) as (b' & Hr & W & Hc & _ & Hb).
  - apply wf_check_sound. vm_compute. reflexivity.
  - vm_compute. discriminate.
  - vm_compute. discriminate.
  - exists b'. exact (conj Hr (conj W (conj Hc Hb))).
Defined.

(** 50 bytes for the 28 bytes left of segment 0, with a region that
    has nothing to give: 28 bytes stay in the buffer. *)
Lemma obuf_dup_failure_partial_witness :
  MoreExamples.failed = Throw OutOfMemory (Scenario.state_of MoreExamples.failed) /\
  room SavepointExample.sA 1 = 28 /\
  obuf_content (Scenario.state_of MoreExamples.failed) =
    obuf_content SavepointExample.sA ++ Scenario.bytes 28 x62 /\
  ob_size (Scenario.state_of MoreExamples.failed) = 128.
Proof.
  assert (E : MoreExamples.failed = Throw OutOfMemory (Scenario.state_of MoreExamples.failed))
    by (vm_compute; reflexivity).
  destruct (obuf_dup_failure_partial false MoreExamples.admits_none 1 SavepointExample.sA
              (Scenario.bytes 50 x62) OutOfMemory (Scenario.state_of MoreExamples.failed))
    as (_ & _ & _ & Hc & Hs & _).
  - apply wf_check_sound. vm_compute. reflexivity.
  - vm_compute. discriminate.
  - exact E.
  - split; [exact E|]. split; [vm_compute; reflexivity|]. split.
    + replace (Scenario.bytes 28 x62)
        with (take (Z.to_nat (room SavepointExample.sA 1)) (Scenario.bytes 50 x62))
        by (vm_compute; reflexivity).
      exact Hc.
    + replace 128 with (ob_size SavepointExample.sA + room SavepointExample.sA 1)
        by (vm_compute; reflexivity).
      exact Hs.
Defined.

(** 300 bytes for the reset buffer of 128 + 256 bytes, with a region
    that has nothing to give. *)
Lemma obuf_reset_reuse_witness :
  exists b0 b',
    obuf_reset MoreExamples.s150 = Ret tt b0 /\
    obuf_dup false MoreExamples.admits_none (Scenario.bytes 300 x63) b0 = Ret tt b' /\
    obuf_content b' = Scenario.bytes 300 x63 /\ blocks b' = 2%nat.
Proof.
  destruct (obuf_reset_reuse false MoreExamples.admits_none 2 MoreExamples.s150 (Scenario.bytes 300 x63))
    as (b0 & b' & Hr & Hd & _ & Hc & _ & Hb).
  - apply wf_check_sound. vm_compute. reflexivity.
  - vm_compute. discriminate.
  - vm_compute. discriminate.
  - exists b0, b'.
    replace 2%nat with (blocks MoreExamples.s150) by (vm_compute; reflexivity).
    exact (conj Hr (conj Hd (conj Hc Hb))).
Defined.

(** The 100 bytes of segment 0 after the appends of [SavepointExample]. *)
Lemma obuf_appends_keep_addresses_witness :
  base_at SavepointExample.sB 0 = base_at SavepointExample.sA 0 /\
  mem_read (r_blocks (ob_pool SavepointExample.sB)) (base_at SavepointExample.sA 0) 100
    = Some (Scenario.bytes 100 x61).
Proof.
  pose proof (obuf_appends_keep_addresses false Scenario.admits_all 2
                SavepointExample.s_booked SavepointExample.B) as H.
  assert (E : run_appends false Scenario.admits_all SavepointExample.B
                SavepointExample.s_booked = Ret tt SavepointExample.sB)
    by (vm_compute; reflexivity).
  rewrite E in H.
  destruct (H ltac:(apply wf_check_sound; vm_compute; reflexivity)
              ltac:(repeat constructor; vm_compute; discriminate)
              0%nat ltac:(vm_compute; lia) ltac:(vm_compute; reflexivity))
    as (Hb & _ & _ & _ & Hm).
  split.
  - rewrite Hb. vm_compute. reflexivity.
  - replace (base_at SavepointExample.sA 0) with (base_at SavepointExample.s_booked 0)
      by (vm_compute; reflexivity).
    replace 100 with (len_at SavepointExample.s_booked 0) by (vm_compute; reflexivity).
    replace (Scenario.bytes 100 x61) with (seg_bytes SavepointExample.s_booked 0)
      by (vm_compute; reflexivity).
    exact Hm.
Defined.

(** The booked 50 bytes of [SavepointExample], filled in after the
    appends of 50 and 10 bytes. *)
Lemma obuf_book_then_patch_witness :
  exists sP,
    obuf_svp_store SavepointExample.svp (Scenario.bytes 50 x64) SavepointExample.sB
      = Ret tt sP /\
    ob_size sP = 210 /\
    obuf_content sP =
      Scenario.bytes 100 x61 ++ Scenario.bytes 50 x64
        ++ Scenario.bytes 50 x62 ++ Scenario.bytes 10 x63.
Proof.
  destruct (obuf_book_then_patch false Scenario.admits_all 1
              SavepointExample.sA 50 SavepointExample.svp SavepointExample.s_booked
              SavepointExample.B SavepointExample.sB (Scenario.bytes 50 x64))
    as (sP & Hst & _ & Hsz & Hc).
  - apply wf_check_sound. vm_compute. reflexivity.
  - unfold REQ_MAX. lia.
  - repeat constructor; vm_compute; discriminate.
  - vm_compute. reflexivity.
  - vm_compute. reflexivity.
  - vm_compute. reflexivity.
  - exists sP. split; [exact Hst|]. split.
    + rewrite Hsz. vm_compute. reflexivity.
    + rewrite Hc. vm_compute. reflexivity.
Defined.

(** The two appends of the scenario as the two runs. *)
Lemma obuf_savepoints_nest_witness :
  exists svp0 svp1 sR1 sR0,
    obuf_create_svp (Scenario.state_of Scenario.s0) = Ret svp0 (Scenario.state_of Scenario.s0) /\
    obuf_create_svp SavepointExample.sA = Ret svp1 SavepointExample.sA /\
    obuf_rollback_to_svp svp1 MoreExamples.s150 = Ret tt sR1 /\
    obuf_content sR1 = Scenario.bytes 100 x61 /\
    obuf_rollback_to_svp svp0 sR1 = Ret tt sR0 /\
    obuf_content sR0 = [] /\ ob_size sR0 = 0.
Proof.
  destruct (obuf_savepoints_nest false Scenario.admits_all 0
              (Scenario.state_of Scenario.s0)
              [AppDup (Scenario.bytes 100 x61)] [AppDup (Scenario.bytes 50 x62)]
              SavepointExample.sA MoreExamples.s150)
    as (svp0 & svp1 & sR1 & sR0 & sD & H0 & H1 & Hr1 & Hc1 & _ & Hr0 & _ & Hc0 & Hs0 & _).
  - apply wf_check_sound. vm_compute. reflexivity.
  - repeat constructor; vm_compute; discriminate.
  - repeat constructor; vm_compute; discriminate.
  - vm_compute. reflexivity.
  - vm_compute. reflexivity.
  - exists svp0, svp1, sR1, sR0.
    split; [exact H0|]. split; [exact H1|]. split; [exact Hr1|]. split.
    { rewrite Hc1. vm_compute. reflexivity. }
    split; [exact Hr0|]. split.
    { rewrite Hc0. vm_compute. reflexivity. }
    rewrite Hs0. vm_compute. reflexivity.
Defined.

(** Asking for 10 bytes where 28 are left: all 28 are granted, and 27
    of them are taken at the same pointer. *)
Lemma obuf_reserve_cb_window_witness :
  exists p b1,
    obuf_reserve_cb false Scenario.admits_all 10 SavepointExample.sA = Ret (p, 28) b1 /\
    exists b2 d,
      obuf_alloc_cb false Scenario.admits_all 27 b1 = Ret p b2 /\
      ob_size b2 = 127 /\ mem_read (r_blocks (ob_pool b2)) p 27 = Some d.
Proof.
  pose proof (obuf_reserve_cb_window false Scenario.admits_all 1 SavepointExample.sA 10
                ltac:(apply wf_check_sound; vm_compute; reflexivity)
                ltac:(unfold REQ_MAX; lia)) as H.
  remember (obuf_reserve_cb false Scenario.admits_all 10 SavepointExample.sA) as o eqn:Ho.
  assert (E : o = Ret (Some (0%nat, 100), 28) SavepointExample.sA)
    by (rewrite Ho; vm_compute; reflexivity).
  rewrite E in H. destruct H as (_ & _ & _ & _ & _ & _ & Halloc).
  destruct (Halloc 27 ltac:(lia) ltac:(lia)) as (b2 & d & Ha & _ & _ & _ & Hs & Hm).
  exists (Some (0%nat, 100)), SavepointExample.sA. split; [exact E|].
  exists b2, d. split; [exact Ha|]. split; [|exact Hm].
  rewrite Hs. vm_compute. reflexivity.
Defined.

(** The appends of [SavepointExample] with a region that has nothing
    to give: the first 28 of the 60 bytes stay, and the rollback to the
    savepoint at 100 bytes removes them. *)
Lemma obuf_failed_appends_roll_back_witness :
  exists svp sR,
    obuf_create_svp SavepointExample.sA = Ret svp SavepointExample.sA /\
    obuf_content (Scenario.state_of MoreExamples.failedB) =
      Scenario.bytes 100 x61 ++ Scenario.bytes 28 x62 /\
    ob_size (Scenario.state_of MoreExamples.failedB) = 128 /\
    obuf_rollback_to_svp svp (Scenario.state_of MoreExamples.failedB) = Ret tt sR /\
    ob_size sR = 100 /\ obuf_content sR = Scenario.bytes 100 x61.
Proof.
  destruct (obuf_failed_appends_roll_back false MoreExamples.admits_none 1 SavepointExample.sA
              SavepointExample.B OutOfMemory (Scenario.state_of MoreExamples.failedB))
    as (svp & sR & d & Hsvp & _ & _ & _ & _ & Hrb & _ & Hs & _ & Hc & _).
  - apply wf_check_sound. vm_compute. reflexivity.
  - repeat constructor; vm_compute; discriminate.
  - vm_compute. reflexivity.
  - exists svp, sR. split; [exact Hsvp|].
    split; [vm_compute; reflexivity|]. split; [vm_compute; reflexivity|].
    split; [exact Hrb|]. split.
    + rewrite Hs. vm_compute. reflexivity.
    + rewrite Hc. vm_compute. reflexivity.
Defined.

Lemma fragmented_wf : ibuf_wf IbufExample.fragmented.
Proof.
  apply (ibuf_wf_slab _ 0%nat [x01; x02; x03; x04; x05; x06; x07; x08] 4 6);
    try reflexivity; vm_compute; try discriminate; split; discriminate.
Qed.

(** Room for 100 bytes in the fragmented buffer of 8 bytes: a slab of
    the readahead size. *)
Lemma ibuf_reserve_ensures_witness :
  ibuf_reserve false 16320 MoreExamples.slab_exact 100 IbufExample.fragmented = Ret tt MoreExamples.grown /\
  100 <= ibuf_free MoreExamples.grown /\ ibuf_data MoreExamples.grown = Some [x05; x06] /\
  16320 <= ib_capacity MoreExamples.grown /\ ibuf_pos MoreExamples.grown = Ret 0 MoreExamples.grown.
Proof.
  pose proof (ibuf_reserve_ensures false 16320 MoreExamples.slab_exact IbufExample.fragmented 100
                fragmented_wf ltac:(lia) ltac:(vm_compute; discriminate) ltac:(lia)) as H.
  remember (ibuf_reserve false 16320 MoreExamples.slab_exact 100 IbufExample.fragmented) as o eqn:Ho.
  assert (E : o = Ret tt MoreExamples.grown) by (rewrite Ho; vm_compute; reflexivity).
  rewrite E in H.
  destruct H as (_ & Hfree & _ & Hdata & [Hsame|[_ Hcap]] & _ & Hpos).
  - intros sc c cap. unfold MoreExamples.slab_exact.
    destruct (c <=? SIZE_MAX) eqn:Ec; [|discriminate].
    intros Hs. injection Hs as <-. apply Z.leb_le in Ec. lia.
  - exfalso. revert Hsame. vm_compute. discriminate.
  - split; [exact E|]. split; [exact Hfree|]. split; [exact Hdata|]. split; [exact Hcap|].
    apply Hpos. vm_compute. reflexivity.
Defined.

(** The fragmented buffer: 4 bytes consumed, 2 unconsumed, 2 free. *)
Lemma ibuf_measures_witness :
  exists p s u,
    ibuf_pos IbufExample.fragmented = Ret p IbufExample.fragmented /\
    ibuf_size false IbufExample.fragmented = Ret s IbufExample.fragmented /\
    ibuf_unused IbufExample.fragmented = Ret u IbufExample.fragmented /\
    p + s + u = 8.
Proof.
  destruct (ibuf_measures false IbufExample.fragmented fragmented_wf)
    as (p & s & u & Hp & Hs & Hu & _ & _ & _ & _ & Hsum & _).
  exists p, s, u. exact (conj Hp (conj Hs (conj Hu Hsum))).
Defined.

(** A unit with unconsumed input: the output is emptied, the input
    stays. *)
Lemma iobuf_reset_empties_output_witness :
  exists io', iobuf_reset false MoreExamples.unit_used = Ret tt io' /\
    io_in io' = IbufExample.fragmented /\
    ob_size (io_out io') = 0 /\ obuf_content (io_out io') = [].
Proof.
  destruct (iobuf_reset_empties_output false MoreExamples.unit_used 2)
    as (io' & Hr & _ & _ & Hs & Hc & _ & _ & _ & _ & _ & Hin & _).
  - exact fragmented_wf.
  - apply wf_check_sound. vm_compute. reflexivity.
  - exists io'. split; [exact Hr|]. split; [|exact (conj Hs Hc)].
    apply Hin. unfold MoreExamples.unit_used. cbn [io_in]. vm_compute. discriminate.
Defined.

(** The unit put back into an empty cache and taken out again; its
    384 bytes of output memory are below the ceiling and stay. *)
Lemma iobuf_delete_then_new_witness :
  exists io',
    iobuf_delete false 16320 MoreExamples.region_bytes MoreExamples.unit_used [] = Ret tt [io'] /\
    iobuf_new false 16320 MoreExamples.region_bytes None (SlabCache []) [io'] = Ret io' [] /\
    iobuf_is_idle false io' = Ret true io' /\
    ob_pool (io_out io') = ob_pool (io_out MoreExamples.unit_used).
Proof.
  destruct (iobuf_delete_then_new false 16320 MoreExamples.region_bytes None (SlabCache [])
              MoreExamples.unit_used [] 2) as (io' & Hd & Hn & Hi & _ & _ & _ & _ & _ & _ & _ & Hpool & _).
  - lia.
  - lia.
  - reflexivity.
  - exact fragmented_wf.
  - apply wf_check_sound. vm_compute. reflexivity.
  - reflexivity.
  - exists io'. split; [exact Hd|]. split; [exact Hn|]. split; [exact Hi|].
    destruct Hpool as [Hp _]; [vm_compute; reflexivity|]. exact Hp.
Defined.

(** A new unit on memory that held something else. *)
Lemma iobuf_new_fresh_witness :
  exists io,
    iobuf_new false 16320 MoreExamples.region_bytes (Some MoreExamples.unit_raw) (SlabCache []) [] = Ret io [] /\
    iobuf_is_idle false io = Ret true io /\
    io_pins io = 0 /\ ib_capacity (io_in io) = 0 /\ ob_alloc_factor (io_out io) = 16320.
Proof.
  destruct (iobuf_new_fresh false 16320 MoreExamples.region_bytes (Some MoreExamples.unit_raw) (SlabCache []) MoreExamples.unit_raw)
    as (io & Hn & Hi & _ & Hc & _ & _ & Haf & Hp).
  - lia.
  - lia.
  - reflexivity.
  - reflexivity.
  - reflexivity.
  - reflexivity.
  - exists io. exact (conj Hn (conj Hi (conj Hp (conj Hc Haf)))).
Defined.
